(** * FCC IPES pipeline: extraction dedup, relevance filter, company structuring

    A shallow embedding of the pure logic of [src/extract.py], [src/filter.py],
    [src/structure.py] and of the two copies of [sanitize_filename]
    ([src/download_docs.py], [src/enrich.py]), and of the loops around it:
    the retries of [fetch_page], the pagination of [fetch_all_filings],
    the statistics of [filter_filings], and the URL table and the retries
    of [download_all] and [download_document].

    Conventions of the embedding.
    - A Python [str] is a [string]; a character is a code point below 256
      (Latin-1), compared by its code as Python compares code points.
    - The regular expressions of the sources are concatenations of
      single-character atoms under [?], [*], [+], [+?] and the anchor [$];
      they are written as lists of [Re.item] and run by a backtracking
      matcher that tries alternatives in the order of Python's [re].
    - A Python [dict] is an association list in insertion order, a [set]
      a duplicate-free list.
    - A filing is a record with the keys the code reads, typed as the ECFS
      API sends them; a key that may be absent is an [option].
    - What the code reads and writes through files or the network is a
      parameter or a result of the function: the input lines of
      [structure_companies] are a list of filings, the API behind
      [extract_filings] is a function from a query to the filings it
      returns, the server behind [fetch_page] and [download_document] a
      function from the number of the request to its reply. What a
      function does besides returning (the seconds it sleeps, the
      offsets it asks for, the content it writes) is part of its result.
    - The [while True] loop of [fetch_all_filings] runs for a given number
      of turns and returns [None] when they are used up; the theorems
      about it show that 201 turns are always enough. *)

From Stdlib Require Import String Ascii List Bool Arith NArith Lia.
From Stdlib Require Import Permutation Sorted DecimalString.
Import ListNotations.

Local Open Scope string_scope.
Local Open Scope list_scope.

(* ================================================================== *)
(** * Python string operations *)

Module PyStr.

Definition code (c : ascii) : N := N_of_ascii c.

Definition in_range (lo hi : N) (c : ascii) : bool :=
  (N.leb lo (code c) && N.leb (code c) hi)%bool.

(** [str.isspace] on one character, which is also the class [\s] of [re]
    and the set removed by [str.strip()]: TAB..CR, FS..US, space, NEL,
    NBSP. *)
Definition is_space (c : ascii) : bool :=
  (in_range 9 13 c || in_range 28 32 c
   || N.eqb (code c) 133 || N.eqb (code c) 160)%bool.

(** [str.lower] on one character: A-Z, and the Latin-1 capitals
    U+00C0..U+00DE except the multiplication sign U+00D7, move up by 32. *)
Definition lower_char (c : ascii) : ascii :=
  if (in_range 65 90 c || in_range 192 214 c || in_range 216 222 c)%bool
  then ascii_of_N (code c + 32)
  else c.

Fixpoint lower (s : string) : string :=
  match s with
  | EmptyString => EmptyString
  | String c s' => String (lower_char c) (lower s')
  end.

(** [s.lstrip(chars)] with the set given as a predicate. *)
Fixpoint lstrip_by (p : ascii -> bool) (s : string) : string :=
  match s with
  | EmptyString => EmptyString
  | String c s' => if p c then lstrip_by p s' else s
  end.

(** [s.rstrip(chars)]: the tail is stripped first; a character is dropped
    when everything after it has been dropped and it is in the set. *)
Fixpoint rstrip_by (p : ascii -> bool) (s : string) : string :=
  match s with
  | EmptyString => EmptyString
  | String c s' =>
      match rstrip_by p s' with
      | EmptyString => if p c then EmptyString else String c EmptyString
      | t => String c t
      end
  end.

(** [s.strip()] *)
Definition strip (s : string) : string :=
  rstrip_by is_space (lstrip_by is_space s).

(** [s.rstrip('.,')] *)
Definition rstrip_dot_comma (s : string) : string :=
  rstrip_by (fun c => (Ascii.eqb c "." || Ascii.eqb c ",")%bool) s.

(** [s[:n]] *)
Fixpoint take (n : nat) (s : string) : string :=
  match n, s with
  | S k, String c s' => String c (take k s')
  | _, _ => EmptyString
  end.

(** [sub in s] *)
Fixpoint contains (sub s : string) : bool :=
  if String.prefix sub s then true
  else match s with
       | EmptyString => false
       | String _ s' => contains sub s'
       end.

(** [c in s] for a single character *)
Fixpoint mem_char (c : ascii) (s : string) : bool :=
  match s with
  | EmptyString => false
  | String d s' => (Ascii.eqb c d || mem_char c s')%bool
  end.

(** [s.rsplit(c, 1)] for a string that contains [c]: the parts before and
    after the last [c]. *)
Fixpoint rsplit1 (c : ascii) (s : string) : string * string :=
  match s with
  | EmptyString => (EmptyString, EmptyString)
  | String d s' =>
      if mem_char c s' then
        let (a, b) := rsplit1 c s' in (String d a, b)
      else if Ascii.eqb d c then (EmptyString, s')
      else (String d EmptyString, s')
  end.

(** [s] is not empty and its last character is in the set. *)
Fixpoint ends_with (p : ascii -> bool) (s : string) : bool :=
  match s with
  | EmptyString => false
  | String c EmptyString => p c
  | String _ s' => ends_with p s'
  end.

Definition ends_with_newline (s : string) : bool :=
  ends_with (fun c => Ascii.eqb c "010") s.

(** Every character of [s] is in the set. *)
Fixpoint all_chars (p : ascii -> bool) (s : string) : bool :=
  match s with
  | EmptyString => true
  | String c s' => (p c && all_chars p s')%bool
  end.

(** [u.endswith(v)] *)
Fixpoint is_suffix (v u : string) : bool :=
  if String.eqb u v then true
  else match u with
       | EmptyString => false
       | String _ u' => is_suffix v u'
       end.

(** [c.lower() == c] *)
Definition is_lower (c : ascii) : bool := Ascii.eqb (lower_char c) c.

(** Truthiness of a string: [if s:] *)
Definition truthy (s : string) : bool :=
  match s with EmptyString => false | _ => true end.

(** [bytes.lower]: only the ASCII letters change. *)
Definition lower_byte (c : ascii) : ascii :=
  if in_range 65 90 c then ascii_of_N (code c + 32) else c.

Fixpoint lower_bytes (s : string) : string :=
  match s with
  | EmptyString => EmptyString
  | String c s' => String (lower_byte c) (lower_bytes s')
  end.

(** The scan of [s.replace(old, new)] for a non-empty [old]: occurrences
    are taken left to right and do not overlap. [skip] counts the
    characters of the last occurrence that are still to be passed over. *)
Fixpoint replace_scan (old new : string) (skip : nat) (s : string) : string :=
  match skip with
  | S k =>
      match s with
      | String _ s' => replace_scan old new k s'
      | EmptyString => EmptyString
      end
  | O =>
      match s with
      | String c s' =>
          if String.prefix old s
          then new ++ replace_scan old new (String.length old - 1) s'
          else String c (replace_scan old new 0 s')
      | EmptyString => EmptyString
      end
  end.

(** [s.replace(old, new)], [old] not empty *)
Definition replace (old new s : string) : string := replace_scan old new 0 s.

End PyStr.

(* ================================================================== *)
(** * The fragment of Python's [re] used by the sources *)

Module Re.

(** One item of a pattern: a one-character atom (a literal or a class,
    given by its predicate) with its quantifier, or the anchor [$]. *)
Inductive item : Type :=
| One (p : ascii -> bool)       (** [x]   *)
| Opt (p : ascii -> bool)       (** [x?]  *)
| Star (p : ascii -> bool)      (** [x*]  *)
| Plus (p : ascii -> bool)      (** [x+]  *)
| PlusLazy (p : ascii -> bool)  (** [x+?] *)
| Eos.                          (** [$]   *)

Definition pattern := list item.

(** Atoms *)
Definition lit (a : ascii) : ascii -> bool := fun c => Ascii.eqb c a.
(** a literal under [re.IGNORECASE] *)
Definition lit_i (a : ascii) : ascii -> bool :=
  fun c => Ascii.eqb (PyStr.lower_char c) a.
(** [\s] *)
Definition space : ascii -> bool := PyStr.is_space.
(** [.] without DOTALL: anything but a newline *)
Definition dot : ascii -> bool := fun c => negb (Ascii.eqb c "010").
(** a bracketed set of characters *)
Definition one_of (set : string) : ascii -> bool :=
  fun c => PyStr.mem_char c set.

(** [$] without MULTILINE: at the end, or just before a final newline. *)
Definition at_end (s : string) : bool :=
  match s with
  | EmptyString => true
  | String c EmptyString => Ascii.eqb c "010"
  | _ => false
  end.

Definition with_seg {T} (seg : string) (r : option T) : option (string * T) :=
  match r with Some t => Some (seg, t) | None => None end.

Definition cons_char {T} (c : ascii) (r : option (string * T))
  : option (string * T) :=
  match r with Some (seg, t) => Some (String c seg, t) | None => None end.

(** Greedy repetition [x*] followed by the continuation [k]: take one more
    character first, give it back when the rest fails. Returns what the
    repetition consumed and the continuation's result. *)
Fixpoint greedy {T} (p : ascii -> bool) (k : string -> option T)
         (s : string) : option (string * T) :=
  match s with
  | String c s' =>
      if p c then
        match greedy p k s' with
        | Some (seg, t) => Some (String c seg, t)
        | None => with_seg EmptyString (k s)
        end
      else with_seg EmptyString (k s)
  | EmptyString => with_seg EmptyString (k s)
  end.

(** Lazy repetition [x*?]: try the continuation first, take one more
    character only when it fails. *)
Fixpoint lazy {T} (p : ascii -> bool) (k : string -> option T)
         (s : string) : option (string * T) :=
  match k s with
  | Some t => Some (EmptyString, t)
  | None =>
      match s with
      | String c s' => if p c then cons_char c (lazy p k s') else None
      | EmptyString => None
      end
  end.

Definition step {T} (it : item) (k : string -> option T) (s : string)
  : option (string * T) :=
  match it with
  | One p =>
      match s with
      | String c s' =>
          if p c then with_seg (String c EmptyString) (k s') else None
      | EmptyString => None
      end
  | Opt p =>
      match s with
      | String c s' =>
          if p c then
            match k s' with
            | Some t => Some (String c EmptyString, t)
            | None => with_seg EmptyString (k s)
            end
          else with_seg EmptyString (k s)
      | EmptyString => with_seg EmptyString (k s)
      end
  | Star p => greedy p k s
  | Plus p =>
      match s with
      | String c s' => if p c then cons_char c (greedy p k s') else None
      | EmptyString => None
      end
  | PlusLazy p =>
      match s with
      | String c s' => if p c then cons_char c (lazy p k s') else None
      | EmptyString => None
      end
  | Eos => if at_end s then with_seg EmptyString (k s) else None
  end.

(** Match the pattern at the start of [s]. The result is the first match
    in backtracking order: the text each item consumed, and what is left
    of [s] after the match. *)
Fixpoint match_items (its : pattern) (s : string)
  : option (list string * string) :=
  match its with
  | [] => Some ([], s)
  | it :: rest =>
      match step it (match_items rest) s with
      | Some (seg, (segs, tl)) => Some (seg :: segs, tl)
      | None => None
      end
  end.

(** [match.group(0)]: the text of a match, item after item *)
Definition matched (segs : list string) : string :=
  fold_right String.append EmptyString segs.

(** The scan of [re.sub(pattern, repl, s)]: at each position left to right
    the pattern is tried; a match is replaced by [repl] and the scan goes
    on after it. [skip] counts the characters of the last match that are
    still to be passed over. An empty match is replaced and the scan moves
    on by one character. *)
Fixpoint sub_scan (pat : pattern) (repl : string) (skip : nat) (s : string)
  : string :=
  match skip with
  | S k =>
      match s with
      | String _ s' => sub_scan pat repl k s'
      | EmptyString => EmptyString
      end
  | O =>
      match match_items pat s with
      | Some (_, rest) =>
          match String.length s - String.length rest, s with
          | S k, String _ s' => repl ++ sub_scan pat repl k s'
          | O, String c s' => repl ++ String c (sub_scan pat repl 0 s')
          | _, EmptyString => repl
          end
      | None =>
          match s with
          | String c s' => String c (sub_scan pat repl 0 s')
          | EmptyString => EmptyString
          end
      end
  end.

(** [re.sub(pattern, repl, s)] *)
Definition sub (pat : pattern) (repl : string) (s : string) : string :=
  sub_scan pat repl 0 s.

(** The matcher returns a match. *)
Definition succeeds {T} (r : option T) : Prop := exists t, r = Some t.

(** What a pattern means, whatever the order in which the matcher tries
    things: [lang pat s rest] when [pat] matches a prefix of [s] and [rest]
    is what follows it. *)
Inductive lang : pattern -> string -> string -> Prop :=
| lang_nil s : lang [] s s
| lang_one p pat c s rest :
    p c = true -> lang pat s rest -> lang (One p :: pat) (String c s) rest
| lang_opt_skip p pat s rest :
    lang pat s rest -> lang (Opt p :: pat) s rest
| lang_opt_take p pat c s rest :
    p c = true -> lang pat s rest -> lang (Opt p :: pat) (String c s) rest
| lang_star_stop p pat s rest :
    lang pat s rest -> lang (Star p :: pat) s rest
| lang_star_more p pat c s rest :
    p c = true -> lang (Star p :: pat) s rest ->
    lang (Star p :: pat) (String c s) rest
| lang_plus p pat c s rest :
    p c = true -> lang (Star p :: pat) s rest ->
    lang (Plus p :: pat) (String c s) rest
| lang_plus_lazy p pat c s rest :
    p c = true -> lang (Star p :: pat) s rest ->
    lang (PlusLazy p :: pat) (String c s) rest
| lang_eos pat s rest :
    at_end s = true -> lang pat s rest -> lang (Eos :: pat) s rest.

(** [re.search(pattern, s) is not None]: the pattern matches at some
    position of [s]. *)
Fixpoint search (pat : pattern) (s : string) : bool :=
  match match_items pat s with
  | Some _ => true
  | None =>
      match s with
      | String _ s' => search pat s'
      | EmptyString => false
      end
  end.

End Re.

(* ================================================================== *)
(** * Python lists, dicts and sorting *)

Module Py.

(** [x.get(key, default)] on a key that may be absent *)
Definition get_or {A} (o : option A) (default : A) : A :=
  match o with Some a => a | None => default end.

(** A [dict] with string keys, in insertion order. *)
Definition dict (V : Type) := list (string * V).

Fixpoint dict_get {V} (k : string) (d : dict V) : option V :=
  match d with
  | [] => None
  | (k', v) :: t => if String.eqb k' k then Some v else dict_get k t
  end.

(** [k in d] *)
Definition dict_mem {V} (k : string) (d : dict V) : bool :=
  match dict_get k d with Some _ => true | None => false end.

(** [d[k] = v]: an existing key keeps its place, a new one goes last. *)
Fixpoint dict_set {V} (k : string) (v : V) (d : dict V) : dict V :=
  match d with
  | [] => [(k, v)]
  | (k', v') :: t =>
      if String.eqb k' k then (k, v) :: t else (k', v') :: dict_set k v t
  end.

(** [d[k]] on a [defaultdict]: the stored value, or the factory's. *)
Definition default_get {V} (k : string) (d : dict V) (empty : V) : V :=
  get_or (dict_get k d) empty.

(** A [set] of strings, kept as a duplicate-free list. The sources only
    read sets through [sorted] or a sort with a total key, so the order
    kept here never shows. *)
Definition mem (x : string) (l : list string) : bool :=
  existsb (String.eqb x) l.

Definition set_add (x : string) (l : list string) : list string :=
  if mem x l then l else l ++ [x].

(** [list.sort] is stable; so is insertion from the right, which puts an
    element before the first one that is not smaller. *)
Fixpoint insert_by {A} (le : A -> A -> bool) (x : A) (l : list A) : list A :=
  match l with
  | [] => [x]
  | y :: t => if le x y then x :: l else y :: insert_by le x t
  end.

Fixpoint sort_by {A} (le : A -> A -> bool) (l : list A) : list A :=
  match l with
  | [] => []
  | x :: t => insert_by le x (sort_by le t)
  end.

(** [l.sort(key=f)] for a string-valued key *)
Definition sort_key {A} (f : A -> string) (l : list A) : list A :=
  sort_by (fun a b => String.leb (f a) (f b)) l.

(** [sorted(l)] on strings *)
Definition sorted (l : list string) : list string := sort_by String.leb l.

(** [l[-1]] of a list, when it has one *)
Definition last_opt {A} (l : list A) : option A :=
  List.last (map Some l) None.

(** What a call does: it returns a value or lets an exception through. *)
Inductive outcome (A : Type) : Type :=
| Returns (a : A)
| Raises.

Arguments Returns {A} a.
Arguments Raises {A}.

(** [str(n)] and [f"{n}"] of a natural number *)
Definition str_of_nat (n : nat) : string :=
  NilEmpty.string_of_uint (Nat.to_uint n).

End Py.

(* ================================================================== *)
(** * The raw filing, as the ECFS API sends it *)

Module Ecfs.

(** An entry of [filers], [authors] or [lawfirms] *)
Record party := { party_name : option string }.

Record proceeding := {
  proc_name : option string;
  proc_description : option string }.

Record document := {
  doc_filename : option string;
  doc_src : option string }.

(** The keys of a filing read by the pipeline. [None] is an absent key;
    [submissiontype] and [filingstatus] hold the [description] of the
    nested object, [None] when either level is absent. Where the code reads
    a key through [x.get(key) or ""] (filter.py) a JSON null behaves as an
    absent key. A null under [date_received], under the first filer's
    [name] or in place of the [submissiontype] object makes
    [structure_companies] raise before it writes any record; such inputs
    are outside the model. *)
Record filing := {
  id_submission : option string;
  filers : list party;
  submissiontype : option string;
  filingstatus : option string;
  date_received : option string;
  proceedings : list proceeding;
  documents : list document;
  authors : list party;
  lawfirms : list party }.

End Ecfs.

(* ================================================================== *)
(** * src/structure.py *)

Module Structure.

Import Re.

(** The tail shared by the suffix patterns: [\s*,?\s*] *)
Definition sep : pattern := [Star space; Opt (lit ","); Star space].

(** A letter followed by an optional period: [x\.?] *)
Definition letter_dot (a : ascii) : pattern := [One (lit a); Opt (lit ".")].

(** The table [suffixes] of [normalize_company_name], in its order. *)
Definition suffixes : list (pattern * string) :=
  [ (* \s*,?\s*l\.?l\.?c\.?$ *)
    (sep ++ letter_dot "l" ++ letter_dot "l" ++ letter_dot "c" ++ [Eos],
     " llc");
    (* \s*,?\s*inc\.?$ *)
    (sep ++ [One (lit "i"); One (lit "n")] ++ letter_dot "c" ++ [Eos],
     " inc");
    (* \s*,?\s*corp\.?$ *)
    (sep ++ [One (lit "c"); One (lit "o"); One (lit "r")]
         ++ letter_dot "p" ++ [Eos],
     " corp");
    (* \s*,?\s*l\.?l\.?p\.?$ *)
    (sep ++ letter_dot "l" ++ letter_dot "l" ++ letter_dot "p" ++ [Eos],
     " llp");
    (* \s*,?\s*l\.?p\.?$ *)
    (sep ++ letter_dot "l" ++ letter_dot "p" ++ [Eos],
     " lp");
    (* \s*,?\s*ltd\.?$ *)
    (sep ++ [One (lit "l"); One (lit "t")] ++ letter_dot "d" ++ [Eos],
     " ltd");
    (* \s*,?\s*co\.?$ *)
    (sep ++ [One (lit "c")] ++ letter_dot "o" ++ [Eos],
     " co");
    (* \s*,?\s*p\.?l\.?l\.?c\.?$ *)
    (sep ++ letter_dot "p" ++ letter_dot "l" ++ letter_dot "l"
         ++ letter_dot "c" ++ [Eos],
     " pllc") ].

(** One turn of the loop [for pattern, replacement in suffixes] *)
Definition apply_rule (s : string) (rule : pattern * string) : string :=
  Re.sub (fst rule) (snd rule) s.

(** The whole loop: every rule in turn, each on the result of the last. *)
Definition apply_suffixes (s : string) : string :=
  fold_left apply_rule suffixes s.

Definition normalize_company_name (name : string) : string :=
  if negb (PyStr.truthy name) then ""
  else
    let normalized := PyStr.strip (PyStr.lower name) in
    let normalized := apply_suffixes normalized in
    let normalized := PyStr.strip (Re.sub [Plus space] " " normalized) in
    PyStr.rstrip_dot_comma normalized.

(** The two patterns of [extract_dba_name]; [re.match] anchors them at
    the start, which is all the leading [^] says. Both end with the groups
    and items [\s+(.+)$]. *)
Definition dba_patterns : list pattern :=
  [ (* ^(.+?)\s+d/?b/?a\s+(.+)$ *)
    [PlusLazy dot; Plus space;
     One (lit_i "d"); Opt (lit "/"); One (lit_i "b"); Opt (lit "/");
     One (lit_i "a");
     Plus space; Plus dot; Eos];
    (* ^(.+?)\s+doing\s+business\s+as\s+(.+)$ *)
    [PlusLazy dot; Plus space;
     One (lit_i "d"); One (lit_i "o"); One (lit_i "i"); One (lit_i "n");
     One (lit_i "g");
     Plus space;
     One (lit_i "b"); One (lit_i "u"); One (lit_i "s"); One (lit_i "i");
     One (lit_i "n"); One (lit_i "e"); One (lit_i "s"); One (lit_i "s");
     Plus space;
     One (lit_i "a"); One (lit_i "s");
     Plus space; Plus dot; Eos] ].

(** [match.group(1)] is the first item's text, [match.group(2)] the text
    of the last item before [$]. *)
Definition group1 (segs : list string) : string := nth 0 segs "".
Definition group2 (segs : list string) : string :=
  nth (List.length segs - 2) segs "".

Fixpoint extract_dba_loop (pats : list pattern) (name : string)
  : string * option string :=
  match pats with
  | [] => (name, None)
  | pat :: rest =>
      match Re.match_items pat name with
      | Some (segs, _) =>
          (PyStr.strip (group1 segs), Some (PyStr.strip (group2 segs)))
      | None => extract_dba_loop rest name
      end
  end.

Definition extract_dba_name (name : string) : string * option string :=
  extract_dba_loop dba_patterns name.

Definition govt_keywords : list string :=
  [ "wireline competition bureau";
    "federal communications commission";
    "fcc";
    "u.s. department";
    "department of justice" ].

Definition is_government_entity (name : string) : bool :=
  let name_lower := PyStr.lower name in
  existsb (fun kw => PyStr.contains kw name_lower) govt_keywords.

(** ** The company record *)

Record doc_entry := {
  filename : string;
  url : string;
  filing_id : option string;
  filing_type : option string;
  filing_date : string }.

Record filing_summary := {
  summary_id : option string;
  summary_type : option string;
  summary_date : string;
  summary_status : option string }.

Record company := {
  company_name : string;
  company_name_normalized : string;
  dba_name : option string;
  name_variations : list string;
  docket_numbers : list string;
  first_filing_date : string;
  latest_filing_date : option string;
  application_count : nat;
  total_filing_count : nat;
  filings : list filing_summary;
  documents : list doc_entry;
  contacts : list string;
  attorneys : list string;
  proceeding_types : list string }.

Record stats := {
  total_filings : nat;
  excluded_govt : nat;
  excluded_no_filer : nat;
  unique_companies : nat;
  companies_with_multiple_apps : nat;
  total_documents : nat }.

(** ** Grouping: the loop over the input lines *)

(** The state of the loop: the two [defaultdict]s [company_filings] and
    [name_variations] (here [variations]) and the counters [total_filings],
    [excluded_govt] and [excluded_no_filer] (here [seen], [govt] and
    [no_filer]). *)
Record groups := {
  company_filings : Py.dict (list Ecfs.filing);
  variations : Py.dict (list string);
  seen : nat;
  govt : nat;
  no_filer : nat }.

Definition no_groups : groups :=
  {| company_filings := []; variations := []; seen := 0; govt := 0;
     no_filer := 0 |}.

Definition skip_no_filer (g : groups) : groups :=
  {| company_filings := company_filings g; variations := variations g;
     seen := S (seen g); govt := govt g; no_filer := S (no_filer g) |}.

Definition skip_govt (g : groups) : groups :=
  {| company_filings := company_filings g; variations := variations g;
     seen := S (seen g); govt := S (govt g); no_filer := no_filer g |}.

Definition group_under (normalized filer_name : string) (filing : Ecfs.filing)
           (g : groups) : groups :=
  {| company_filings :=
       Py.dict_set normalized
         (Py.default_get normalized (company_filings g) [] ++ [filing])
         (company_filings g);
     variations :=
       Py.dict_set normalized
         (Py.set_add filer_name (Py.default_get normalized (variations g) []))
         (variations g);
     seen := S (seen g); govt := govt g; no_filer := no_filer g |}.

(** The body of [for line in f] *)
Definition add_filing (g : groups) (filing : Ecfs.filing) : groups :=
  match Ecfs.filers filing with
  | [] => skip_no_filer g
  | first :: _ =>
      let filer_name := PyStr.strip (Py.get_or (Ecfs.party_name first) "") in
      if negb (PyStr.truthy filer_name) then skip_no_filer g
      else if is_government_entity filer_name then skip_govt g
      else group_under (normalize_company_name filer_name) filer_name filing g
  end.

Definition group_filings (input : list Ecfs.filing) : groups :=
  fold_left add_filing input no_groups.

(** ** Building one record *)

Definition is_application (f : Ecfs.filing) : bool :=
  match Ecfs.submissiontype f with
  | Some d => String.eqb d "APPLICATION"
  | None => false
  end.

Definition date_of (f : Ecfs.filing) : string :=
  Py.get_or (Ecfs.date_received f) "".

(** [f.get('date_received', '')[:10]] *)
Definition day_of (f : Ecfs.filing) : string := PyStr.take 10 (date_of f).

Definition placeholder_dockets : list string := ["INBOX-52.15"; "INBOX-1.41"].

Definition add_docket (dockets : list string) (p : Ecfs.proceeding)
  : list string :=
  let docket := Py.get_or (Ecfs.proc_name p) "" in
  if (PyStr.truthy docket && negb (Py.mem docket placeholder_dockets))%bool
  then Py.set_add docket dockets else dockets.

Definition collect_dockets (fs : list Ecfs.filing) : list string :=
  fold_left (fun acc f => fold_left add_docket (Ecfs.proceedings f) acc) fs [].

Definition doc_entries (f : Ecfs.filing) : list doc_entry :=
  map (fun doc =>
         {| filename := Py.get_or (Ecfs.doc_filename doc) "";
            url := Py.get_or (Ecfs.doc_src doc) "";
            filing_id := Ecfs.id_submission f;
            filing_type := Ecfs.submissiontype f;
            filing_date := day_of f |})
      (Ecfs.documents f).

Definition collect_documents (fs : list Ecfs.filing) : list doc_entry :=
  flat_map doc_entries fs.

Definition add_name (names : list string) (p : Ecfs.party) : list string :=
  let name := PyStr.strip (Py.get_or (Ecfs.party_name p) "") in
  if PyStr.truthy name then Py.set_add name names else names.

Definition collect_names (people : Ecfs.filing -> list Ecfs.party)
           (fs : list Ecfs.filing) : list string :=
  fold_left (fun acc f => fold_left add_name (people f) acc) fs [].

Definition add_proceeding_type (types : list string) (p : Ecfs.proceeding)
  : list string :=
  let desc := Py.get_or (Ecfs.proc_description p) "" in
  if PyStr.truthy desc then Py.set_add desc types else types.

Definition collect_proceeding_types (fs : list Ecfs.filing) : list string :=
  fold_left (fun acc f => fold_left add_proceeding_type (Ecfs.proceedings f) acc)
            fs [].

(** The key [(-len(x), x)] of the election of the primary name *)
Definition longer_first (a b : string) : bool :=
  if Nat.ltb (String.length b) (String.length a) then true
  else if Nat.eqb (String.length a) (String.length b) then String.leb a b
  else false.

Definition summary_of (f : Ecfs.filing) : filing_summary :=
  {| summary_id := Ecfs.id_submission f;
     summary_type := Ecfs.submissiontype f;
     summary_date := day_of f;
     summary_status := Ecfs.filingstatus f |}.

(** The body of [for normalized_name, filings in company_filings.items()]:
    [None] is the [continue] of a group without an application. The sort
    keeps a list empty or not, so the test [if not applications] is made
    on the sorted list, whose head is [applications[0]]. *)
Definition build_company (name_variations_of : Py.dict (list string))
           (normalized_name : string) (group : list Ecfs.filing)
  : option company :=
  let applications := filter is_application group in
  let other_filings := filter (fun f => negb (is_application f)) group in
  match Py.sort_key date_of applications with
  | [] => None
  | primary_app :: _ =>
      let other_filings := Py.sort_key date_of other_filings in
      let dockets := collect_dockets group in
      let documents := collect_documents group in
      let contacts := collect_names Ecfs.authors group in
      let attorneys := collect_names Ecfs.lawfirms group in
      let proceeding_types := collect_proceeding_types group in
      let variations :=
        Py.sort_by longer_first
                   (Py.default_get normalized_name name_variations_of []) in
      let primary_name :=
        match variations with v :: _ => v | [] => normalized_name end in
      let '(base_name, dba) := extract_dba_name primary_name in
      let filing_summaries :=
        Py.sort_key summary_date (map summary_of group) in
      Some {| company_name := primary_name;
              company_name_normalized := normalized_name;
              dba_name := dba;
              name_variations := Py.sorted variations;
              docket_numbers := Py.sorted dockets;
              first_filing_date := day_of primary_app;
              latest_filing_date := option_map day_of (Py.last_opt group);
              application_count := List.length applications;
              total_filing_count := List.length group;
              filings := filing_summaries;
              documents := documents;
              contacts := Py.sorted contacts;
              attorneys := Py.sorted attorneys;
              proceeding_types := Py.sorted proceeding_types |}
  end.

Fixpoint build_companies (name_variations_of : Py.dict (list string))
         (items : Py.dict (list Ecfs.filing)) : list company :=
  match items with
  | [] => []
  | (normalized_name, group) :: rest =>
      match build_company name_variations_of normalized_name group with
      | Some c => c :: build_companies name_variations_of rest
      | None => build_companies name_variations_of rest
      end
  end.

(** [structure_companies]: the records written to the output file, and
    the statistics returned. The input is the list of filings the lines
    of the input file parse to. *)
Definition structure_companies (input : list Ecfs.filing)
  : list company * stats :=
  let g := group_filings input in
  let companies :=
    Py.sort_key company_name_normalized
                (build_companies (variations g) (company_filings g)) in
  (companies,
   {| total_filings := seen g;
      excluded_govt := govt g;
      excluded_no_filer := no_filer g;
      unique_companies := List.length companies;
      companies_with_multiple_apps :=
        List.length (filter (fun c => Nat.ltb 1 (application_count c)) companies);
      total_documents :=
        list_sum (map (fun c => List.length (documents c)) companies) |}).

End Structure.

(* ================================================================== *)
(** * src/extract.py *)

Module Extract.

(** The double quote, which the first query is wrapped in *)
Definition dquote : string := String "034" EmptyString.

Definition queries : list string :=
  [ (dquote ++ "Numbering Authorization Application" ++ dquote)%string;
    "52.15(g)" ].

Record query_stat := {
  query : string;
  fetched : nat;
  new_unique : nat }.

Record meta := {
  meta_queries : list query_stat;
  total_unique_filings : nat }.

(** The body of [for f in filings]: a filing is stored when its id is
    truthy and not yet a key. *)
Definition add_filing (all_filings : Py.dict Ecfs.filing) (f : Ecfs.filing)
  : Py.dict Ecfs.filing :=
  match Ecfs.id_submission f with
  | Some submission_id =>
      if (PyStr.truthy submission_id
          && negb (Py.dict_mem submission_id all_filings))%bool
      then Py.dict_set submission_id f all_filings
      else all_filings
  | None => all_filings
  end.

(** The body of [for query in queries], on what [fetch_all_filings]
    returned for the query. *)
Definition run_query (fetch_all_filings : string -> list Ecfs.filing)
           (st : Py.dict Ecfs.filing * list query_stat) (q : string)
  : Py.dict Ecfs.filing * list query_stat :=
  let (all_filings, query_stats) := st in
  let filings := fetch_all_filings q in
  let count_before := List.length all_filings in
  let all_filings := fold_left add_filing filings all_filings in
  let count_after := List.length all_filings in
  let new_count := count_after - count_before in
  (all_filings,
   query_stats ++ [{| query := q; fetched := List.length filings;
                      new_unique := new_count |}]).

(** The loop over any list of queries *)
Definition run_queries (fetch_all_filings : string -> list Ecfs.filing)
           (qs : list string) : Py.dict Ecfs.filing * list query_stat :=
  fold_left (run_query fetch_all_filings) qs ([], []).

(** [extract_filings]: the API is the function [fetch_all_filings] from a
    query to the filings it returns, in the order it returns them. The
    result is the dedup map (whose values, in order, are the lines
    written) and the metadata. *)
Definition extract_filings (fetch_all_filings : string -> list Ecfs.filing)
  : Py.dict Ecfs.filing * meta :=
  let (all_filings, query_stats) := run_queries fetch_all_filings queries in
  (all_filings,
   {| meta_queries := query_stats;
      total_unique_filings := List.length all_filings |}).

(** ** Pagination: [fetch_page] and [fetch_all_filings] *)

Definition LIMIT : nat := 25.

(** A key of a response that holds a list of filings: absent, [null], or
    the list. *)
Inductive listing : Type :=
| Absent
| Null
| Items (l : list Ecfs.filing).

(** The two keys of a response read by [fetch_all_filings] *)
Record page := {
  page_filings : listing;
  page_filing : listing }.

(** What one call of [requests.get] followed by [raise_for_status] and
    [resp.json()] comes to: the decoded response, a
    [requests.RequestException], or another exception. *)
Inductive reply : Type :=
| Json (data : page)
| RequestException
| OtherException.

(** The loop [for attempt in range(3)] of [fetch_page]. [get attempt] is
    what the request of that attempt comes to. The result lists the
    seconds slept and gives the outcome; a loop that ends without
    returning makes the function return [None]. *)
Fixpoint fetch_attempts (get : nat -> reply) (attempts : list nat)
  : list nat * Py.outcome (option page) :=
  match attempts with
  | [] => ([], Py.Returns None)
  | attempt :: rest =>
      match get attempt with
      | Json data => ([], Py.Returns (Some data))
      | RequestException =>
          if Nat.ltb attempt 2 then
            let (slept, r) := fetch_attempts get rest in
            (2 ^ attempt :: slept, r)
          else ([], Py.Raises)
      | OtherException => ([], Py.Raises)
      end
  end.

Definition fetch_page (get : nat -> reply)
  : list nat * Py.outcome (option page) :=
  fetch_attempts get (seq 0 3).

(** [data.get("filings", data.get("filing", []))]; [None] is Python's. *)
Definition batch_of (data : page) : option (list Ecfs.filing) :=
  match page_filings data with
  | Items l => Some l
  | Null => None
  | Absent =>
      match page_filing data with
      | Items l => Some l
      | Null => None
      | Absent => Some []
      end
  end.

(** The loop [while True] of [fetch_all_filings]. [fetch_page offset] is
    the page the API gives at that offset for the query, [None] when
    [fetch_page] raises. [turns] bounds the number of turns followed; the
    result lists the offsets asked for, and gives the outcome, [None] when
    the turns are used up before the loop ends. *)
Fixpoint fetch_loop (fetch_page : nat -> option page) (turns : nat)
         (filings : list Ecfs.filing) (offset : nat)
  : list nat * option (Py.outcome (list Ecfs.filing)) :=
  match turns with
  | O => ([], None)
  | S turns =>
      let (asked, r) :=
        match fetch_page offset with
        | None => ([], Some Py.Raises)
        | Some data =>
            match batch_of data with
            | None | Some [] => ([], Some (Py.Returns filings))
            | Some batch =>
                let filings := filings ++ batch in
                let offset := offset + LIMIT in
                if Nat.ltb 5000 offset then ([], Some (Py.Returns filings))
                else fetch_loop fetch_page turns filings offset
            end
        end in
      (offset :: asked, r)
  end.

Definition fetch_all_filings (fetch_page : nat -> option page) (turns : nat)
  : list nat * option (Py.outcome (list Ecfs.filing)) :=
  fetch_loop fetch_page turns [] 0.

End Extract.

(* ================================================================== *)
(** * src/filter.py *)

Module Filter.

(** [(x.get(key) or "")]: an absent key and a null both read as [""]. *)
Definition or_empty (o : option string) : string := Py.get_or o "".

(** The loop [for proc in proceedings], [true] when it returns *)
Fixpoint check_proceedings (proceedings : list Ecfs.proceeding) : bool :=
  match proceedings with
  | [] => false
  | proc :: rest =>
      let desc := PyStr.lower (or_empty (Ecfs.proc_description proc)) in
      if PyStr.contains "interconnected voip numbering" desc then true
      else if PyStr.contains "voip numbering authorization application" desc
      then true
      else if PyStr.contains "authorization to obtain numbering resources" desc
      then true
      else check_proceedings rest
  end.

(** The loop [for doc in documents] *)
Fixpoint check_documents (documents : list Ecfs.document) : bool :=
  match documents with
  | [] => false
  | doc :: rest =>
      let filename := PyStr.lower (or_empty (Ecfs.doc_filename doc)) in
      if PyStr.contains "voip numbering" filename then true
      else check_documents rest
  end.

Definition is_ipes_filing (filing : Ecfs.filing) : bool :=
  if check_proceedings (Ecfs.proceedings filing) then true
  else if check_documents (Ecfs.documents filing) then true
  else false.

(** ** [filter_filings] *)

(** [filing.get("submissiontype", {}).get("description", "UNKNOWN")] *)
Definition type_of (filing : Ecfs.filing) : string :=
  Py.get_or (Ecfs.submissiontype filing) "UNKNOWN".

(** [type_counts[st] = type_counts.get(st, 0) + 1] *)
Definition bump (type_counts : Py.dict nat) (st : string) : Py.dict nat :=
  Py.dict_set st (Py.get_or (Py.dict_get st type_counts) 0 + 1) type_counts.

(** The body of [for line in f], on the list [kept], the counter [dropped]
    and the dict [type_counts]. *)
Definition sift (state : list Ecfs.filing * nat * Py.dict nat)
           (filing : Ecfs.filing) : list Ecfs.filing * nat * Py.dict nat :=
  let '(kept, dropped, type_counts) := state in
  if is_ipes_filing filing then
    let st := type_of filing in
    (kept ++ [filing], dropped, bump type_counts st)
  else (kept, dropped + 1, type_counts).

Record stats := {
  total_input : nat;
  kept : nat;
  dropped : nat;
  by_submission_type : Py.dict nat }.

(** The key [-x[1]] of the sort of [type_counts.items()] *)
Definition more_first (x y : string * nat) : bool := Nat.leb (snd y) (snd x).

(** [filter_filings]: the filings written to the output file, in order,
    and the statistics returned. The input is the list of filings the
    lines of the input file parse to. *)
Definition filter_filings (input : list Ecfs.filing)
  : list Ecfs.filing * stats :=
  let '(kept, dropped, type_counts) := fold_left sift input ([], 0, []) in
  (kept,
   {| total_input := List.length kept + dropped;
      kept := List.length kept;
      dropped := dropped;
      by_submission_type := Py.sort_by more_first type_counts |}).

End Filter.

(* ================================================================== *)
(** * [sanitize_filename] of src/download_docs.py *)

Module DownloadDocs.

(** The bracketed class of the first [re.sub]: less-than, greater-than,
    colon, double quote, slash, backslash, bar, question mark, star. *)
Definition unsafe_chars : string :=
  "<>:" ++ String "034" EmptyString ++ "/\|?*".

Definition sanitize_filename (filename : string) : string :=
  (* Replace problematic characters *)
  let filename := Re.sub [Re.One (Re.one_of unsafe_chars)] "_" filename in
  (* Collapse multiple underscores/spaces *)
  let filename :=
    Re.sub [Re.Plus (fun c => (Re.lit "_" c || Re.space c)%bool)] "_"
           filename in
  (* Limit length *)
  if Nat.ltb 100 (String.length filename) then
    let '(name, ext) :=
      if PyStr.mem_char "." filename then PyStr.rsplit1 "." filename
      else (filename, "") in
    (PyStr.take 95 name ++ (if PyStr.truthy ext then "." ++ ext else ""))%string
  else filename.

(** ** [transform_url] *)

Definition transform_url (viewer_url : string) : string :=
  PyStr.replace "/ecfs/document/" "/ecfs/documents/" viewer_url.

(** ** The documents of [download_all]

    The input is the list of records of companies.json, as
    [structure_companies] writes them. *)

(** The body of [for doc in company.get("documents", [])] *)
Definition add_doc (docs_by_url : Py.dict Structure.doc_entry)
           (doc : Structure.doc_entry) : Py.dict Structure.doc_entry :=
  let url := Structure.url doc in
  if (PyStr.truthy url && negb (Py.dict_mem url docs_by_url))%bool
  then Py.dict_set url doc docs_by_url
  else docs_by_url.

Definition docs_by_url (companies : list Structure.company)
  : Py.dict Structure.doc_entry :=
  fold_left (fun acc company => fold_left add_doc (Structure.documents company) acc)
            companies [].

(** [docs = list(docs_by_url.values())] *)
Definition docs (companies : list Structure.company)
  : list Structure.doc_entry :=
  map snd (docs_by_url companies).

(** ** [download_document] *)

Definition MAX_RETRIES : nat := 3.
Definition RETRY_BACKOFF : list nat := [1; 3; 10].

(** What one [client.get] comes to: a response with its status code, body
    and content-type header, or one of the exceptions the loop tells
    apart. *)
Inductive reply : Type :=
| Response (status_code : nat) (content : string)
           (content_type : option string)
| TimeoutException
| RequestError (type_name : string)
| OtherError (text : string).

(** The result dict, and beside it what the call did: the number of
    requests sent, the seconds slept between them, and the content
    written to the output path. *)
Record result := {
  result_url : string;
  download_url : option string;
  result_filename : string;
  status : string;
  message : option string;
  size : option nat;
  result_content_type : option string;
  requests : nat;
  slept : list nat;
  written : option string }.

(** The test for an HTML error page *)
Definition is_error_page (content content_type : string) : bool :=
  (PyStr.contains "text/html" content_type
   && Nat.ltb (String.length content) 5000
   && (PyStr.contains "error" (PyStr.lower_bytes content)
       || PyStr.contains "not found" (PyStr.lower_bytes content)))%bool.

Definition one_more_request (r : result) : result :=
  {| result_url := result_url r; download_url := download_url r;
     result_filename := result_filename r; status := status r;
     message := message r; size := size r;
     result_content_type := result_content_type r;
     requests := S (requests r); slept := slept r; written := written r |}.

Definition after_sleep (seconds : nat) (r : result) : result :=
  {| result_url := result_url r; download_url := download_url r;
     result_filename := result_filename r; status := status r;
     message := message r; size := size r;
     result_content_type := result_content_type r;
     requests := requests r; slept := seconds :: slept r;
     written := written r |}.

(** The loop [for attempt in range(MAX_RETRIES)]. [get attempt] is what
    the request of that attempt comes to; [message] is the message left
    by the attempts made so far. Writing the file is taken to succeed. *)
Fixpoint download_attempts (viewer_url download output_filename : string)
         (get : nat -> reply) (attempts : list nat) (message : option string)
  : result :=
  let failed message :=
    {| result_url := viewer_url; download_url := Some download;
       result_filename := output_filename; status := "failed";
       message := message; size := None; result_content_type := None;
       requests := 0; slept := []; written := None |} in
  match attempts with
  | [] => failed message
  | attempt :: rest =>
      let next message :=
        (* Wait before retry *)
        let r := download_attempts viewer_url download output_filename
                                   get rest (Some message) in
        if Nat.ltb attempt (MAX_RETRIES - 1)
        then after_sleep (nth attempt RETRY_BACKOFF 0) r
        else r in
      one_more_request
        match get attempt with
        | Response status_code content content_type =>
            if Nat.eqb status_code 200 then
              let content_type := Py.get_or content_type "" in
              if is_error_page content content_type then
                (* continue *)
                download_attempts viewer_url download output_filename
                                  get rest (Some "HTML error page returned")
              else
                {| result_url := viewer_url; download_url := Some download;
                   result_filename := output_filename; status := "success";
                   message := message;
                   size := Some (String.length content);
                   result_content_type := Some content_type;
                   requests := 0; slept := []; written := Some content |}
            else if Nat.eqb status_code 404 then
              (* break *)
              failed (Some "404 Not Found")
            else next ("HTTP " ++ Py.str_of_nat status_code)%string
        | TimeoutException => next "Timeout"
        | RequestError type_name => next ("Request error: " ++ type_name)%string
        | OtherError text => next ("Error: " ++ text)%string
        end
  end.

(** [download_document]: [already_there] tells whether the output path
    exists with a size above 0. *)
Definition download_document (doc : Structure.doc_entry)
           (already_there : string -> bool) (get : nat -> reply) : result :=
  let viewer_url := Structure.url doc in
  let download := transform_url viewer_url in
  let filename := sanitize_filename (Structure.filename doc) in
  let filing_id := Py.get_or (Structure.filing_id doc) "None" in
  let output_filename := (filing_id ++ "_" ++ filename)%string in
  if already_there output_filename then
    {| result_url := viewer_url; download_url := None;
       result_filename := output_filename; status := "skipped";
       message := Some "already exists"; size := None;
       result_content_type := None;
       requests := 0; slept := []; written := None |}
  else
    download_attempts viewer_url download output_filename get
                      (seq 0 MAX_RETRIES) None.

End DownloadDocs.

(* ================================================================== *)
(** * [sanitize_filename] of src/enrich.py *)

Module Enrich.

(** The bracketed class of the first [re.sub]: less-than, greater-than,
    colon, double quote, slash, backslash, bar, question mark, star. *)
Definition unsafe_chars : string :=
  "<>:" ++ String "034" EmptyString ++ "/\|?*".

Definition sanitize_filename (filename : string) : string :=
  (* Replace problematic characters with underscore *)
  let filename := Re.sub [Re.One (Re.one_of unsafe_chars)] "_" filename in
  (* Collapse multiple underscores/spaces into single underscore *)
  let filename :=
    Re.sub [Re.Plus (fun c => (Re.lit "_" c || Re.space c)%bool)] "_"
           filename in
  (* Truncate to 100 chars (matching download script) *)
  if Nat.ltb 100 (String.length filename) then
    let '(name, ext) :=
      if PyStr.mem_char "." filename then PyStr.rsplit1 "." filename
      else (filename, "") in
    (PyStr.take 95 name ++ (if PyStr.truthy ext then "." ++ ext else ""))%string
  else filename.

End Enrich.

(* ================================================================== *)
(** * Vocabulary of the statements *)

Module Spec.

Import Structure.

(** The name under which the aggregator files a filing: the first filer's
    name, stripped; [""] when there is none. *)
Definition filer_name_of (f : Ecfs.filing) : string :=
  match Ecfs.filers f with
  | [] => ""
  | first :: _ => PyStr.strip (Py.get_or (Ecfs.party_name first) "")
  end.

(** A filing enters a group when it has a filer name and the name is not
    a government body's. *)
Definition grouped (f : Ecfs.filing) : bool :=
  (PyStr.truthy (filer_name_of f)
   && negb (is_government_entity (filer_name_of f)))%bool.

Definition key_of (f : Ecfs.filing) : string :=
  normalize_company_name (filer_name_of f).

(** The CompanyGroup of a key: the grouped filings of the input with that
    key, in input order. *)
Definition group_of (input : list Ecfs.filing) (key : string)
  : list Ecfs.filing :=
  filter (fun f => (grouped f && String.eqb (key_of f) key)%bool) input.

(** The name variants observed for a key *)
Definition variants_of (input : list Ecfs.filing) (key : string)
  : list string :=
  map filer_name_of (group_of input key).

(** A filing misses its submission id: absent (or null), or empty. *)
Definition missing_id (f : Ecfs.filing) : bool :=
  match Ecfs.id_submission f with
  | Some i => negb (PyStr.truthy i)
  | None => true
  end.

Definition has_id (id : string) (f : Ecfs.filing) : bool :=
  match Ecfs.id_submission f with
  | Some i => String.eqb i id
  | None => false
  end.

(** The ids of the filings that have one, in order of appearance *)
Definition ids_of (fs : list Ecfs.filing) : list string :=
  flat_map (fun f => match Ecfs.id_submission f with
                     | Some i => if PyStr.truthy i then [i] else []
                     | None => []
                     end) fs.

(** All filings fetched, by query order, then by order within a query *)
Definition fetched_in_order (fetch_all_filings : string -> list Ecfs.filing)
           (qs : list string) : list Ecfs.filing :=
  flat_map fetch_all_filings qs.

(** [s] contains [phrase], whatever the case of [s]'s letters. *)
Definition contains_ci (phrase s : string) : Prop :=
  exists pre post, PyStr.lower s = (pre ++ phrase ++ post)%string.

Definition trigger_phrases : list string :=
  [ "interconnected voip numbering";
    "voip numbering authorization application";
    "authorization to obtain numbering resources" ].

(** The suffix table read as the specification words it: only the first
    rule whose pattern matches the name is applied. *)
Fixpoint first_rule_only (rules : list (Re.pattern * string)) (s : string)
  : string :=
  match rules with
  | [] => s
  | rule :: rest =>
      if Re.search (fst rule) s then apply_rule s rule
      else first_rule_only rest s
  end.

(** A string after the first [i] rules of the table *)
Definition run_rules (i : nat) (s : string) : string :=
  fold_left apply_rule (firstn i suffixes) s.

(** The letters of the rules of the table, in its order *)
Definition suffix_words : list string :=
  ["llc"; "inc"; "corp"; "llp"; "lp"; "ltd"; "co"; "pllc"].

(** [dotted body w]: [body] is the letters of [w], some of them followed
    by an optional period. *)
Inductive dotted : Re.pattern -> string -> Prop :=
| dotted_nil : dotted [] ""
| dotted_letter a body w :
    dotted body w -> dotted (Re.One (Re.lit a) :: body) (String a w)
| dotted_dot body w :
    dotted body w -> dotted (Re.Opt (Re.lit ".") :: body) w.

(** The letters of [w], each followed by an optional period, and the
    strings this matches. *)
Fixpoint all_dotted (w : string) : Re.pattern :=
  match w with
  | EmptyString => []
  | String a w' => Re.One (Re.lit a) :: Re.Opt (Re.lit ".") :: all_dotted w'
  end.

Fixpoint dot_forms (w : string) : list string :=
  match w with
  | EmptyString => [EmptyString]
  | String a w' =>
      flat_map (fun u => [String a u; String a (String "." u)]) (dot_forms w')
  end.

(** What [re.sub] does with a pattern anchored at the end: from the first
    position where the pattern matches, the rest is replaced. *)
Fixpoint rewrite_tail (pat : Re.pattern) (repl : string) (s : string)
  : string :=
  match Re.match_items pat s with
  | Some _ => repl
  | None =>
      match s with
      | EmptyString => EmptyString
      | String c s' => String c (rewrite_tail pat repl s')
      end
  end.

(** What [re.sub(r'\s+', ' ', s)] does: every run of whitespace becomes one
    space. [after_space] tells that the run has begun. *)
Fixpoint squeeze (after_space : bool) (s : string) : string :=
  match s with
  | EmptyString => EmptyString
  | String c s' =>
      if PyStr.is_space c then
        if after_space then squeeze true s'
        else String " " (squeeze true s')
      else String c (squeeze false s')
  end.

(** The only whitespace of [s] is single spaces. *)
Fixpoint single_spaced (after_space : bool) (s : string) : bool :=
  match s with
  | EmptyString => true
  | String c s' =>
      if PyStr.is_space c then
        (Ascii.eqb c " " && negb after_space && single_spaced true s')%bool
      else single_spaced false s'
  end.

(** The largest of a list of strings, by code points *)
Definition max_string (l : list string) : string :=
  fold_left (fun m x => if String.leb m x then x else m) l "".

(** A dict has no entry for an empty group. *)
Definition some_if_any {T} (l : list T) : option (list T) :=
  match l with [] => None | _ => Some l end.

(** A filing with one filer and nothing else but what is given *)
Definition simple_filing (id name type date : option string) : Ecfs.filing :=
  {| Ecfs.id_submission := id;
     Ecfs.filers := [ {| Ecfs.party_name := name |} ];
     Ecfs.submissiontype := type;
     Ecfs.filingstatus := None;
     Ecfs.date_received := date;
     Ecfs.proceedings := [];
     Ecfs.documents := [];
     Ecfs.authors := [];
     Ecfs.lawfirms := [] |}.

(** The elements of [xs] that have a key, each the first with its key, in
    the order of [xs]. *)
Fixpoint first_by {A} (key : A -> string) (xs : list A) : list A :=
  match xs with
  | [] => []
  | x :: rest =>
      if PyStr.truthy (key x)
      then x :: filter (fun y => negb (String.eqb (key y) (key x)))
                       (first_by key rest)
      else first_by key rest
  end.

(** The submission id of a filing, [""] when it has none *)
Definition id_of (f : Ecfs.filing) : string :=
  Py.get_or (Ecfs.id_submission f) "".

(** The filings of the page number [i] of a query, none when the page
    cannot be fetched or holds no list. *)
Definition batch_at (fetch_page : nat -> option Extract.page) (i : nat)
  : list Ecfs.filing :=
  match fetch_page (i * Extract.LIMIT) with
  | Some data => Py.get_or (Extract.batch_of data) []
  | None => []
  end.

(** The pages 0 to [n - 1] put end to end *)
Definition batches (fetch_page : nat -> option Extract.page) (n : nat)
  : list Ecfs.filing :=
  flat_map (batch_at fetch_page) (seq 0 n).

(** What [re.sub] does with a one-character class: every character of
    the class becomes [r]. *)
Fixpoint replace_chars (p : ascii -> bool) (r : ascii) (s : string)
  : string :=
  match s with
  | EmptyString => EmptyString
  | String c s' => String (if p c then r else c) (replace_chars p r s')
  end.

(** What [re.sub] does with a repeated class: every run of characters of
    the class becomes one [r]. [in_run] tells that the run has begun. *)
Fixpoint squeeze_by (p : ascii -> bool) (r : ascii) (in_run : bool)
         (s : string) : string :=
  match s with
  | EmptyString => EmptyString
  | String c s' =>
      if p c then
        if in_run then squeeze_by p r true s'
        else String r (squeeze_by p r true s')
      else String c (squeeze_by p r false s')
  end.

(** The class of the first [re.sub] of [sanitize_filename] *)
Definition unsafe : ascii -> bool := Re.one_of DownloadDocs.unsafe_chars.

(** The class of the second [re.sub] of [sanitize_filename]: underscore
    or whitespace *)
Definition underscore_or_space (c : ascii) : bool :=
  (Re.lit "_" c || Re.space c)%bool.

(** A clean file name: none of the characters [sanitize_filename]
    replaces, no whitespace, and no underscore next to an underscore.
    [after_underscore] tells that the character before was one. *)
Fixpoint clean_name (after_underscore : bool) (s : string) : bool :=
  match s with
  | EmptyString => true
  | String c s' =>
      if underscore_or_space c then
        (Ascii.eqb c "_" && negb after_underscore && clean_name true s')%bool
      else
        (negb (unsafe c) && clean_name false s')%bool
  end.

(** The text after the last period of a name, [""] when it has none *)
Definition extension (s : string) : string :=
  if PyStr.mem_char "." s then snd (PyStr.rsplit1 "." s) else "".

(** The last step of [sanitize_filename]: a name of more than 100
    characters is cut to the 95 first characters of what is before its
    last period, followed by the period and what is after it. *)
Definition limit_length (filename : string) : string :=
  if Nat.ltb 100 (String.length filename) then
    let '(name, ext) :=
      if PyStr.mem_char "." filename then PyStr.rsplit1 "." filename
      else (filename, "") in
    (PyStr.take 95 name ++ (if PyStr.truthy ext then "." ++ ext else ""))%string
  else filename.

(** A character [sanitize_filename] leaves in place when it is not an
    underscore: not one of the replaced characters, not whitespace *)
Definition safe_char (c : ascii) : bool :=
  (negb (unsafe c) && negb (PyStr.is_space c))%bool.

(** A reply after which [download_document] sends no other request: a
    200 that is not taken for an HTML error page, which is saved, or a
    404. *)
Definition final_reply (r : DownloadDocs.reply) : bool :=
  match r with
  | DownloadDocs.Response status_code content content_type =>
      (Nat.eqb status_code 200
       && negb (DownloadDocs.is_error_page content
                                           (Py.get_or content_type ""))
       || Nat.eqb status_code 404)%bool
  | _ => false
  end.

(** The body shared by the dedup loops of [extract_filings] and
    [download_all]: an element is stored under its key when the key is
    truthy and not yet in the dict. *)
Definition add_first {A} (key : A -> string) (d : Py.dict A) (x : A)
  : Py.dict A :=
  if (PyStr.truthy (key x) && negb (Py.dict_mem (key x) d))%bool
  then Py.dict_set (key x) x d
  else d.

(** A name after the two [re.sub] of [sanitize_filename] *)
Definition cleaned (filename : string) : string :=
  squeeze_by underscore_or_space "_" false (replace_chars unsafe "_" filename).

(** What holds of the result [r] of the attempts of [download_document]
    numbered [a], [a + 1], ..., [n] of them, on the replies [get]. *)
Definition attempts_policy (get : nat -> DownloadDocs.reply)
           (output_filename : string) (a n : nat) (r : DownloadDocs.result)
  : Prop :=
  DownloadDocs.requests r <= n /\
  (forall i, a <= i -> S i < a + DownloadDocs.requests r ->
             final_reply (get i) = false) /\
  (DownloadDocs.requests r < n ->
   1 <= DownloadDocs.requests r /\
   final_reply (get (a + DownloadDocs.requests r - 1)) = true) /\
  list_sum (DownloadDocs.slept r) <= list_sum (skipn a [1; 3]) /\
  (forall s, In s (DownloadDocs.slept r) -> In s (skipn a [1; 3])) /\
  DownloadDocs.result_filename r = output_filename /\
  (DownloadDocs.status r = "success" \/ DownloadDocs.status r = "failed") /\
  (DownloadDocs.status r = "success" <-> DownloadDocs.written r <> None) /\
  (DownloadDocs.written r <> None ->
   exists content content_type,
     get (a + DownloadDocs.requests r - 1)
     = DownloadDocs.Response 200 content content_type /\
     DownloadDocs.written r = Some content /\
     DownloadDocs.size r = Some (String.length content)).

(** A string without its periods *)
Fixpoint undot (s : string) : string :=
  match s with
  | EmptyString => EmptyString
  | String c s' => if Ascii.eqb c "." then undot s' else String c (undot s')
  end.

(** [spelled body w]: [body] is the letters of [w], each followed or not
    by an optional period. *)
Inductive spelled : Re.pattern -> string -> Prop :=
| spelled_nil : spelled [] ""
| spelled_letter a body w :
    spelled body w -> spelled (Re.One (Re.lit a) :: body) (String a w)
| spelled_letter_dot a body w :
    spelled body w ->
    spelled (Re.One (Re.lit a) :: Re.Opt (Re.lit ".") :: body) (String a w).

(** A character that is neither whitespace nor a comma *)
Definition name_char (c : ascii) : bool :=
  negb (PyStr.is_space c || Ascii.eqb c ",").

(** The text an item of a pattern can consume *)
Definition fits (it : Re.item) (seg : string) : Prop :=
  match it with
  | Re.One p => exists c, seg = String c "" /\ p c = true
  | Re.Opt p => seg = "" \/ exists c, seg = String c "" /\ p c = true
  | Re.Star p => PyStr.all_chars p seg = true
  | Re.Plus p | Re.PlusLazy p => seg <> "" /\ PyStr.all_chars p seg = true
  | Re.Eos => seg = ""
  end.

(** A filing that is in a record: it is grouped, and the group of its key
    holds an application. *)
Definition in_record (input : list Ecfs.filing) (f : Ecfs.filing) : bool :=
  (grouped f && existsb is_application (group_of input (key_of f)))%bool.

(** The words one pass of the table can leave at the end of a name: what
    the rule for llp writes is rewritten by the rule for lp, and the rule
    for pllc comes after the rule for llc. *)
Definition final_words : list string :=
  ["llc"; "inc"; "corp"; "lp"; "ltd"; "co"].

(** [key] is the word [w], or it ends with a space and [w] and has no
    comma before that space. *)
Definition ends_in_word (w key : string) : bool :=
  (String.eqb key w
   || (PyStr.is_suffix (" " ++ w) key
       && negb (PyStr.is_suffix (", " ++ w) key)))%bool.

(** A settled key: it does not end with whitespace, and either no rule of
    the table matches it or it ends in one of the final words. *)
Definition settled (key : string) : bool :=
  (negb (PyStr.ends_with PyStr.is_space key)
   && (forallb (fun rule => negb (Re.search (fst rule) key)) suffixes
       || existsb (fun w => ends_in_word w key) final_words))%bool.

End Spec.

(* ================================================================== *)
(** * Strings *)

Lemma append_empty_r (s : string) : (s ++ "")%string = s.
Proof. induction s as [|c s IH]; simpl; [reflexivity | now rewrite IH]. Qed.

Lemma append_assoc (a b c : string) :
  ((a ++ b) ++ c)%string = (a ++ (b ++ c))%string.
Proof. induction a as [|x a IH]; simpl; [reflexivity | now rewrite IH]. Qed.

Lemma append_length (a b : string) :
  String.length (a ++ b) = String.length a + String.length b.
Proof. induction a as [|x a IH]; simpl; [reflexivity | now rewrite IH]. Qed.

Lemma prefix_spec (sub s : string) :
  String.prefix sub s = true <-> exists post, s = (sub ++ post)%string.
Proof.
  revert s; induction sub as [|a sub IH]; intros s.
  - simpl. destruct s; split; intros _; eauto.
  - destruct s as [|b s]; simpl.
    + split; [discriminate | intros [post H]; discriminate].
    + destruct (ascii_dec a b) as [->|Hne].
      * rewrite IH. split; intros [post H]; exists post.
        -- now rewrite H.
        -- now injection H.
      * split; [discriminate | intros [post H]; injection H; congruence].
Qed.

(** [sub in s] holds exactly when [s] splits around a copy of [sub]. *)
Lemma contains_spec (sub s : string) :
  PyStr.contains sub s = true <->
  exists pre post, s = (pre ++ sub ++ post)%string.
Proof.
  induction s as [|c s IH].
  - cbn [PyStr.contains]. destruct (String.prefix sub "") eqn:E.
    + split; [intros _ | reflexivity].
      apply prefix_spec in E as [post E]. exists "", post. exact E.
    + split; [discriminate|].
      intros [pre [post H]]. destruct pre; simpl in H.
      * assert (String.prefix sub "" = true) by (apply prefix_spec; eauto).
        congruence.
      * discriminate.
  - cbn [PyStr.contains]. destruct (String.prefix sub (String c s)) eqn:E.
    + split; [intros _ | reflexivity].
      apply prefix_spec in E as [post E]. exists "", post. exact E.
    + rewrite IH. split.
      * intros [pre [post H]]. exists (String c pre), post. simpl. now rewrite H.
      * intros [pre [post H]]. destruct pre as [|d pre]; simpl in H.
        -- assert (String.prefix sub (String c s) = true)
             by (apply prefix_spec; eauto).
           congruence.
        -- injection H as _ H. eauto.
Qed.

Lemma take_length (n : nat) (s : string) :
  String.length (PyStr.take n s) = Nat.min n (String.length s).
Proof.
  revert s; induction n as [|n IH]; intros [|c s]; simpl; auto.
Qed.

(** The order of strings *)

Lemma ascii_compare_trans (a b c : ascii) (o : comparison) :
  Ascii.compare a b = o -> Ascii.compare b c = o -> Ascii.compare a c = o.
Proof.
  unfold Ascii.compare. destruct o; intros H1 H2.
  - apply N.compare_eq_iff in H1, H2. apply N.compare_eq_iff. congruence.
  - rewrite N.compare_lt_iff in *. lia.
  - rewrite N.compare_gt_iff in *. lia.
Qed.

Lemma string_compare_lt_trans (a b c : string) :
  String.compare a b = Lt -> String.compare b c = Lt ->
  String.compare a c = Lt.
Proof.
  revert b c; induction a as [|x a IH]; intros [|y b] [|z c]; simpl;
    try discriminate; auto.
  destruct (Ascii.compare x y) eqn:Exy; try discriminate;
    destruct (Ascii.compare y z) eqn:Eyz; try discriminate; intros H1 H2.
  - apply Ascii.compare_eq_iff in Exy, Eyz. subst.
    assert (E : Ascii.compare z z = Eq) by (apply N.compare_refl).
    rewrite E. eapply IH; eauto.
  - apply Ascii.compare_eq_iff in Exy. subst. now rewrite Eyz.
  - apply Ascii.compare_eq_iff in Eyz. subst. now rewrite Exy.
  - now rewrite (ascii_compare_trans _ _ _ _ Exy Eyz).
Qed.

Lemma string_compare_refl (a : string) : String.compare a a = Eq.
Proof.
  induction a as [|x a IH]; simpl; auto.
  assert (E : Ascii.compare x x = Eq) by (apply N.compare_refl).
  now rewrite E.
Qed.

Lemma string_leb_refl (a : string) : String.leb a a = true.
Proof. unfold String.leb. now rewrite string_compare_refl. Qed.

Lemma string_leb_trans (a b c : string) :
  String.leb a b = true -> String.leb b c = true -> String.leb a c = true.
Proof.
  unfold String.leb.
  destruct (String.compare a b) eqn:Eab; try discriminate;
    destruct (String.compare b c) eqn:Ebc; try discriminate; intros _ _.
  - apply String.compare_eq_iff in Eab, Ebc. subst.
    now rewrite string_compare_refl.
  - apply String.compare_eq_iff in Eab. subst. now rewrite Ebc.
  - apply String.compare_eq_iff in Ebc. subst. now rewrite Eab.
  - now rewrite (string_compare_lt_trans _ _ _ Eab Ebc).
Qed.

(** Cutting both strings at the same length keeps their order. *)
Lemma take_monotone (n : nat) (a b : string) :
  String.leb a b = true ->
  String.leb (PyStr.take n a) (PyStr.take n b) = true.
Proof.
  unfold String.leb.
  revert a b; induction n as [|n IH]; intros [|x a] [|y b]; simpl; auto.
  destruct (Ascii.compare x y); auto.
Qed.

(* ================================================================== *)
(** * The relevance classifier *)

Lemma check_proceedings_spec (procs : list Ecfs.proceeding) :
  Filter.check_proceedings procs = true <->
  exists proc phrase,
    In proc procs /\ In phrase Spec.trigger_phrases /\
    Spec.contains_ci phrase (Filter.or_empty (Ecfs.proc_description proc)).
Proof.
  unfold Spec.contains_ci, Spec.trigger_phrases.
  induction procs as [|proc procs IH]; cbn [Filter.check_proceedings].
  - split; [discriminate | intros (? & ? & [] & _)].
  - destruct (PyStr.contains "interconnected voip numbering" _) eqn:E1;
      [|destruct (PyStr.contains "voip numbering authorization application" _)
          eqn:E2;
        [|destruct (PyStr.contains
                      "authorization to obtain numbering resources" _) eqn:E3]].
    + split; [intros _ | reflexivity]. apply contains_spec in E1.
      exists proc, "interconnected voip numbering".
      split; [now left|]. split; [simpl; tauto | exact E1].
    + split; [intros _ | reflexivity]. apply contains_spec in E2.
      exists proc, "voip numbering authorization application".
      split; [now left|]. split; [simpl; tauto | exact E2].
    + split; [intros _ | reflexivity]. apply contains_spec in E3.
      exists proc, "authorization to obtain numbering resources".
      split; [now left|]. split; [simpl; tauto | exact E3].
    + rewrite IH. split.
      * intros (p & ph & Hp & Hph & Hc). exists p, ph.
        split; [now right|]. split; assumption.
      * intros (p & ph & [<-|Hp] & Hph & Hc); [|eauto].
        exfalso. apply contains_spec in Hc.
        destruct Hph as [<-|[<-|[<-|[]]]]; congruence.
Qed.

Lemma check_documents_spec (docs : list Ecfs.document) :
  Filter.check_documents docs = true <->
  exists doc,
    In doc docs /\
    Spec.contains_ci "voip numbering" (Filter.or_empty (Ecfs.doc_filename doc)).
Proof.
  unfold Spec.contains_ci.
  induction docs as [|doc docs IH]; cbn [Filter.check_documents].
  - split; [discriminate | intros (? & [] & _)].
  - destruct (PyStr.contains "voip numbering" _) eqn:E.
    + split; [intros _ | reflexivity]. apply contains_spec in E.
      exists doc. split; [now left | exact E].
    + rewrite IH. split.
      * intros (d & Hd & Hc). exists d. split; [now right | exact Hc].
      * intros (d & [<-|Hd] & Hc); [|eauto].
        apply contains_spec in Hc. congruence.
Qed.

(** C5. [is_ipes_filing] is a total function on filings, and it answers
    [true] exactly when some proceeding's description contains, whatever
    its case, one of the three trigger phrases, or some document's filename
    contains "voip numbering"; a description or filename that is missing is
    read as the empty string. *)
Theorem C5_is_ipes_filing_iff (filing : Ecfs.filing) :
  Filter.is_ipes_filing filing = true <->
  (exists proc phrase,
      In proc (Ecfs.proceedings filing) /\
      In phrase [ "interconnected voip numbering";
                  "voip numbering authorization application";
                  "authorization to obtain numbering resources" ] /\
      Spec.contains_ci phrase
        (match Ecfs.proc_description proc with Some d => d | None => "" end))
  \/
  (exists doc,
      In doc (Ecfs.documents filing) /\
      Spec.contains_ci "voip numbering"
        (match Ecfs.doc_filename doc with Some n => n | None => "" end)).
Proof.
  unfold Filter.is_ipes_filing.
  destruct (Filter.check_proceedings _) eqn:Ep.
  - split; [intros _ | reflexivity]. left. now apply check_proceedings_spec.
  - destruct (Filter.check_documents _) eqn:Ed.
    + split; [intros _ | reflexivity]. right. now apply check_documents_spec.
    + split; [discriminate|]. intros [H|H].
      * apply check_proceedings_spec in H. congruence.
      * apply check_documents_spec in H. congruence.
Qed.

(** A filing whose descriptions and filenames are all missing is rejected,
    not an error. *)
Lemma is_ipes_filing_missing_fields (filing : Ecfs.filing) :
  (forall proc, In proc (Ecfs.proceedings filing) ->
                Ecfs.proc_description proc = None) ->
  (forall doc, In doc (Ecfs.documents filing) ->
               Ecfs.doc_filename doc = None) ->
  Filter.is_ipes_filing filing = false.
Proof.
  intros Hp Hd. destruct (Filter.is_ipes_filing filing) eqn:E; [|reflexivity].
  exfalso. apply C5_is_ipes_filing_iff in E.
  destruct E as [(proc & ph & Hin & Hph & pre & post & Hc)
                |(doc & Hin & pre & post & Hc)].
  - rewrite (Hp _ Hin) in Hc. simpl in Hc.
    destruct pre; simpl in Hc; [|discriminate].
    destruct Hph as [<-|[<-|[<-|[]]]]; discriminate.
  - rewrite (Hd _ Hin) in Hc. simpl in Hc.
    destruct pre; simpl in Hc; discriminate.
Qed.

(* ================================================================== *)
(** * The two copies of [sanitize_filename] *)

(** C9. The [sanitize_filename] of download_docs.py and the one of
    enrich.py return the same string on every input. *)
Theorem C9_sanitize_filename_agree (filename : string) :
  DownloadDocs.sanitize_filename filename = Enrich.sanitize_filename filename.
Proof.
  unfold DownloadDocs.sanitize_filename, Enrich.sanitize_filename.
  replace Enrich.unsafe_chars with DownloadDocs.unsafe_chars by reflexivity.
  reflexivity.
Qed.

(* ================================================================== *)
(** * Dicts *)

Section DictFacts.

Context {V : Type}.
Implicit Types (d : Py.dict V) (k : string) (v : V).

Lemma dict_get_set_same k v d : Py.dict_get k (Py.dict_set k v d) = Some v.
Proof.
  induction d as [|[k' v'] d IH]; simpl.
  - now rewrite String.eqb_refl.
  - destruct (String.eqb k' k) eqn:E; simpl.
    + now rewrite String.eqb_refl.
    + now rewrite E.
Qed.

Lemma dict_get_set_other k k0 v d :
  k0 <> k -> Py.dict_get k0 (Py.dict_set k v d) = Py.dict_get k0 d.
Proof.
  intros Hne. induction d as [|[k' v'] d IH]; simpl.
  - apply String.eqb_neq in Hne. rewrite String.eqb_sym. now rewrite Hne.
  - destruct (String.eqb k' k) eqn:E; simpl.
    + apply String.eqb_eq in E. subst k'.
      assert (E : String.eqb k k0 = false)
        by (apply String.eqb_neq; congruence).
      now rewrite E.
    + destruct (String.eqb k' k0); auto.
Qed.

Lemma dict_get_In k v d : Py.dict_get k d = Some v -> In (k, v) d.
Proof.
  induction d as [|[k' v'] d IH]; simpl; [discriminate|].
  destruct (String.eqb k' k) eqn:E; intros H.
  - apply String.eqb_eq in E. left. congruence.
  - right. auto.
Qed.

Lemma dict_get_None k d : Py.dict_get k d = None <-> ~ In k (map fst d).
Proof.
  induction d as [|[k' v'] d IH]; simpl; [tauto|].
  destruct (String.eqb k' k) eqn:E.
  - apply String.eqb_eq in E. split; [discriminate | tauto].
  - apply String.eqb_neq in E. tauto.
Qed.

Lemma dict_In_get k v d :
  NoDup (map fst d) -> In (k, v) d -> Py.dict_get k d = Some v.
Proof.
  induction d as [|[k' v'] d IH]; simpl; [tauto|].
  intros Hnd [H|H]; inversion Hnd as [|? ? Hnot Hnd']; subst.
  - inversion H; subst. now rewrite String.eqb_refl.
  - destruct (String.eqb k' k) eqn:E; auto.
    apply String.eqb_eq in E. subst k'.
    exfalso. apply Hnot. change k with (fst (k, v)). now apply in_map.
Qed.

Lemma dict_set_keys k v d :
  map fst (Py.dict_set k v d) =
  if Py.dict_mem k d then map fst d else map fst d ++ [k].
Proof.
  unfold Py.dict_mem. induction d as [|[k' v'] d IH]; simpl; auto.
  destruct (String.eqb k' k) eqn:E; simpl.
  - apply String.eqb_eq in E. now subst.
  - rewrite IH. now destruct (Py.dict_get k d).
Qed.

Lemma dict_set_NoDup k v d :
  NoDup (map fst d) -> NoDup (map fst (Py.dict_set k v d)).
Proof.
  intros Hnd. rewrite dict_set_keys. unfold Py.dict_mem.
  destruct (Py.dict_get k d) eqn:E; auto.
  apply dict_get_None in E.
  apply NoDup_rev in Hnd. rewrite <- (rev_involutive (_ ++ _)).
  apply NoDup_rev. rewrite rev_app_distr. simpl.
  constructor; auto. now rewrite <- in_rev.
Qed.

Lemma dict_set_length k v d :
  List.length (Py.dict_set k v d) =
  if Py.dict_mem k d then List.length d else S (List.length d).
Proof.
  rewrite <- (length_map fst), dict_set_keys.
  destruct (Py.dict_mem k d); rewrite ?length_app, length_map; simpl; lia.
Qed.

End DictFacts.

Lemma find_app {A} (p : A -> bool) (l1 l2 : list A) :
  find p (l1 ++ l2) =
  match find p l1 with Some x => Some x | None => find p l2 end.
Proof.
  induction l1 as [|x l1 IH]; simpl; auto. now destruct (p x).
Qed.

Lemma fold_left_flat_map {A B C} (f : A -> C -> A) (g : B -> list C)
      (l : list B) (a : A) :
  fold_left f (flat_map g l) a =
  fold_left (fun acc b => fold_left f (g b) acc) l a.
Proof.
  revert a; induction l as [|b l IH]; intros a; simpl; auto.
  now rewrite fold_left_app, IH.
Qed.

(* ================================================================== *)
(** * The deduplicator *)

Section Dedup.

Import Extract.

Lemma truthy_nonempty (s : string) : PyStr.truthy s = true <-> s <> "".
Proof. destruct s; simpl; split; congruence. Qed.

(** What the dedup map holds once the filings [fs] have gone through the
    inner loop, starting from the empty map. *)
Lemma dedup_invariant (fs : list Ecfs.filing) :
  let d := fold_left add_filing fs [] in
  NoDup (map fst d) /\
  Py.dict_get "" d = None /\
  forall id, id <> "" -> Py.dict_get id d = find (Spec.has_id id) fs.
Proof.
  induction fs as [|f fs IH] using rev_ind; simpl.
  - repeat split; auto. constructor.
  - rewrite fold_left_app. simpl. destruct IH as (Hnd & He & Hget).
    set (d := fold_left add_filing fs []) in *.
    unfold add_filing.
    destruct (Ecfs.id_submission f) as [i|] eqn:Ei.
    + destruct (PyStr.truthy i) eqn:Ht; simpl.
      * apply truthy_nonempty in Ht.
        unfold Py.dict_mem.
        destruct (Py.dict_get i d) eqn:Eg; simpl.
        -- repeat split; auto. intros id Hid. rewrite find_app, <- Hget by auto.
           destruct (Py.dict_get id d) eqn:Eid; auto. simpl.
           unfold Spec.has_id. rewrite Ei.
           destruct (String.eqb i id) eqn:E; auto.
           apply String.eqb_eq in E. congruence.
        -- split; [now apply dict_set_NoDup|]. split.
           ++ rewrite dict_get_set_other; auto.
           ++ intros id Hid. rewrite find_app, <- Hget by auto. simpl.
              unfold Spec.has_id. rewrite Ei.
              destruct (String.eqb i id) eqn:E.
              ** apply String.eqb_eq in E. subst id.
                 now rewrite dict_get_set_same, Eg.
              ** apply String.eqb_neq in E.
                 rewrite dict_get_set_other by congruence.
                 now destruct (Py.dict_get id d).
      * repeat split; auto. intros id Hid. rewrite find_app, <- Hget by auto.
        destruct (Py.dict_get id d); auto. simpl.
        unfold Spec.has_id. rewrite Ei.
        destruct i; [|discriminate].
        destruct (String.eqb "" id) eqn:E; auto.
        apply String.eqb_eq in E. congruence.
    + repeat split; auto. intros id Hid. rewrite find_app, <- Hget by auto.
      destruct (Py.dict_get id d); auto. simpl.
      unfold Spec.has_id. now rewrite Ei.
Qed.

Lemma find_has_id_ids (id : string) (fs : list Ecfs.filing) :
  id <> "" ->
  (find (Spec.has_id id) fs <> None <-> In id (Spec.ids_of fs)).
Proof.
  intros Hid. unfold Spec.ids_of.
  induction fs as [|f fs IH]; simpl; [tauto|].
  rewrite in_app_iff, <- IH. unfold Spec.has_id.
  destruct (Ecfs.id_submission f) as [i|].
  - destruct (String.eqb i id) eqn:E.
    + apply String.eqb_eq in E. subst i.
      apply truthy_nonempty in Hid. rewrite Hid. simpl.
      split; [auto | discriminate].
    + apply String.eqb_neq in E.
      destruct (PyStr.truthy i); simpl; tauto.
  - simpl. tauto.
Qed.

Lemma ids_of_nonempty (fs : list Ecfs.filing) : ~ In "" (Spec.ids_of fs).
Proof.
  unfold Spec.ids_of. induction fs as [|f fs IH]; simpl; auto.
  rewrite in_app_iff. intros [H|H]; auto.
  destruct (Ecfs.id_submission f) as [i|]; [|destruct H].
  destruct (PyStr.truthy i) eqn:Ht; [|destruct H].
  destruct H as [E|[]]. subst i. discriminate.
Qed.

(** The outer loop, query by query, is the inner loop run over all the
    fetched filings in order. *)
Lemma run_queries_map fetch (qs : list string) d st :
  fst (fold_left (run_query fetch) qs (d, st)) =
  fold_left add_filing (Spec.fetched_in_order fetch qs) d.
Proof.
  unfold Spec.fetched_in_order. rewrite fold_left_flat_map.
  revert d st; induction qs as [|q qs IH]; intros d st; simpl; auto.
Qed.

Lemma add_filing_length (fs : list Ecfs.filing) d :
  List.length d <= List.length (fold_left add_filing fs d) /\
  List.length (fold_left add_filing fs d)
    + List.length (filter Spec.missing_id fs)
  <= List.length d + List.length fs.
Proof.
  revert d; induction fs as [|f fs IH]; intros d; simpl; [lia|].
  specialize (IH (add_filing d f)).
  assert (H : List.length d <= List.length (add_filing d f) /\
              List.length (add_filing d f)
              + (if Spec.missing_id f then 1 else 0) <= S (List.length d)).
  { unfold add_filing, Spec.missing_id.
    destruct (Ecfs.id_submission f) as [i|]; [|lia].
    destruct (PyStr.truthy i); simpl; [|lia].
    destruct (Py.dict_mem i d) eqn:E; simpl; [lia|].
    rewrite dict_set_length, E. lia. }
  destruct (Spec.missing_id f); simpl; lia.
Qed.

Lemma run_queries_stats fetch (qs : list string) d st :
  exists new,
    snd (fold_left (run_query fetch) qs (d, st)) = st ++ new /\
    Forall2 (fun q s =>
               query s = q /\
               fetched s = List.length (fetch q) /\
               new_unique s + List.length (filter Spec.missing_id (fetch q))
               <= fetched s) qs new.
Proof.
  revert d st; induction qs as [|q qs IH]; intros d st; simpl.
  - exists []. rewrite app_nil_r. auto.
  - match goal with
    | |- context [fold_left _ qs (?d', ?st ++ [?s])] =>
        destruct (IH d' (st ++ [s])) as (new & Hsnd & Hall);
        exists (s :: new)
    end.
    split.
    + rewrite Hsnd, <- app_assoc. reflexivity.
    + constructor; auto. simpl.
      pose proof (add_filing_length (fetch q) d). repeat split; lia.
Qed.

End Dedup.

(** C3. Whatever the queries return, the dedup map holds, for every
    submission id that occurs, the first filing with that id in query
    order, then in order within the query; every later filing with the id
    is discarded, whatever its content; and the map has as many entries as
    there are distinct submission ids. *)
Theorem C3_first_occurrence_wins
        (fetch_all_filings : string -> list Ecfs.filing) (qs : list string) :
  let all_filings := fst (Extract.run_queries fetch_all_filings qs) in
  let fetched := Spec.fetched_in_order fetch_all_filings qs in
  (forall id f, In (id, f) all_filings <->
                id <> "" /\ find (Spec.has_id id) fetched = Some f) /\
  NoDup (map fst all_filings) /\
  List.length all_filings =
  List.length (nodup string_dec (Spec.ids_of fetched)).
Proof.
  intros all_filings fetched.
  assert (Hall : all_filings = fold_left Extract.add_filing fetched [])
    by apply run_queries_map.
  destruct (dedup_invariant fetched) as (Hnd & He & Hget). simpl in *.
  rewrite <- Hall in *.
  assert (Hkeys : forall id, In id (map fst all_filings) <->
                             In id (Spec.ids_of fetched)).
  { intros id. destruct (string_dec id "") as [->|Hid].
    - split; intros H.
      + now apply dict_get_None in He.
      + now apply ids_of_nonempty in H.
    - rewrite <- find_has_id_ids, <- Hget by auto.
      pose proof (dict_get_None id all_filings).
      destruct (Py.dict_get id all_filings); split; intros; try tauto;
        try congruence.
      destruct (in_dec string_dec id (map fst all_filings)); tauto. }
  split; [|split; auto].
  - intros id f. split.
    + intros Hin. pose proof (dict_In_get _ _ _ Hnd Hin) as Hg.
      destruct (string_dec id "") as [->|Hid]; [congruence|].
      split; auto. now rewrite <- Hget.
    + intros [Hid Hf]. apply dict_get_In. now rewrite Hget.
  - rewrite <- (length_map fst). apply Permutation_length.
    apply NoDup_Permutation; auto using NoDup_nodup.
    intros id. now rewrite nodup_In, Hkeys.
Qed.

(** [extract_filings] runs this loop on its two queries. *)
Lemma extract_filings_map fetch :
  fst (Extract.extract_filings fetch) =
  fst (Extract.run_queries fetch Extract.queries).
Proof.
  unfold Extract.extract_filings.
  now destruct (Extract.run_queries fetch Extract.queries).
Qed.

(** The statistics of [extract_filings] cannot tell a filing without an id
    from a duplicate: two runs that differ in the number of filings without
    an id report the same metadata. *)
Lemma C4_missing_ids_not_counted :
  ~ exists count : Extract.meta -> nat,
      forall fetch_all_filings,
        count (snd (Extract.extract_filings fetch_all_filings)) =
        List.length
          (filter Spec.missing_id
                  (Spec.fetched_in_order fetch_all_filings Extract.queries)).
Proof.
  intros [count H].
  pose (a := Spec.simple_filing (Some "A1") (Some "Acme") None None).
  pose (dup := Spec.simple_filing (Some "A1") (Some "Acme Inc") None None).
  pose (noid := Spec.simple_filing None (Some "Acme") None None).
  pose (only52 := fun (fs : list Ecfs.filing) (q : string) =>
                    if String.eqb q "52.15(g)" then fs else []).
  pose proof (H (only52 [a; noid])) as H1.
  pose proof (H (only52 [a; dup])) as H2.
  vm_compute in H1, H2. congruence.
Qed.

(** C4, as the code has it. A filing without a submission id (absent or
    empty) is never in the dedup map, and no entry of the map has an empty
    key; the statistics give, for each query, the number of filings fetched
    and the number of new entries, and a filing without an id only shows in
    them as fetched and not new. *)
Theorem C4_missing_id_excluded
        (fetch_all_filings : string -> list Ecfs.filing) (qs : list string) :
  let all_filings := fst (Extract.run_queries fetch_all_filings qs) in
  let query_stats := snd (Extract.run_queries fetch_all_filings qs) in
  (forall k f, In (k, f) all_filings ->
               k <> "" /\ Ecfs.id_submission f = Some k /\
               Spec.missing_id f = false) /\
  Forall2 (fun q s =>
             Extract.query s = q /\
             Extract.fetched s = List.length (fetch_all_filings q) /\
             Extract.new_unique s
             + List.length (filter Spec.missing_id (fetch_all_filings q))
             <= Extract.fetched s) qs query_stats.
Proof.
  intros all_filings query_stats. split.
  - intros k f Hin.
    assert (Hall : all_filings
                   = fold_left Extract.add_filing
                       (Spec.fetched_in_order fetch_all_filings qs) [])
      by apply run_queries_map.
    destruct (dedup_invariant (Spec.fetched_in_order fetch_all_filings qs))
      as (Hnd & He & Hget).
    simpl in Hnd, He, Hget. rewrite <- Hall in Hnd, He, Hget.
    apply (dict_In_get _ _ _ Hnd) in Hin.
    assert (Hk : k <> "") by (intros ->; congruence).
    rewrite (Hget k Hk) in Hin.
    apply find_some in Hin as [_ Hf]. unfold Spec.has_id, Spec.missing_id in *.
    destruct (Ecfs.id_submission f) as [i|]; [|discriminate].
    apply String.eqb_eq in Hf. subst i. repeat split; auto.
    apply truthy_nonempty in Hk. now rewrite Hk.
  - destruct (run_queries_stats fetch_all_filings qs [] []) as (new & Hs & Hall).
    simpl in Hs. subst new. exact Hall.
Qed.

(* ================================================================== *)
(** * Sorting *)

Section SortFacts.

Context {A : Type} (le : A -> A -> bool).

Lemma insert_by_perm (x : A) (l : list A) :
  Permutation (Py.insert_by le x l) (x :: l).
Proof.
  induction l as [|y l IH]; simpl; auto.
  destruct (le x y); auto.
  rewrite IH. apply perm_swap.
Qed.

Lemma sort_by_perm (l : list A) : Permutation (Py.sort_by le l) l.
Proof.
  induction l as [|x l IH]; simpl; auto.
  rewrite insert_by_perm. now constructor.
Qed.

Lemma sort_by_In (x : A) (l : list A) : In x (Py.sort_by le l) <-> In x l.
Proof.
  split; apply Permutation_in;
    [apply sort_by_perm | apply Permutation_sym, sort_by_perm].
Qed.

Lemma sort_by_length (l : list A) :
  List.length (Py.sort_by le l) = List.length l.
Proof. apply Permutation_length, sort_by_perm. Qed.

Hypothesis le_total : forall a b, le a b = true \/ le b a = true.
Hypothesis le_trans :
  forall a b c, le a b = true -> le b c = true -> le a c = true.

(** The head of a sorted list is below every element. *)
Lemma sort_by_head (l : list A) (h : A) (t : list A) :
  Py.sort_by le l = h :: t -> forall x, In x l -> le h x = true.
Proof.
  revert h t; induction l as [|y l IH]; intros h t; simpl; [discriminate|].
  destruct (Py.sort_by le l) as [|h' t'] eqn:E; simpl.
  - assert (l = []) as ->
        by (apply length_zero_iff_nil; rewrite <- sort_by_length, E; auto).
    intros [= <- <-] x [<-|[]]. destruct (le_total y y); auto.
  - specialize (IH h' t' eq_refl).
    destruct (le y h') eqn:Ey.
    + intros [= <- <-] x [<-|Hx].
      * destruct (le_total y y); auto.
      * eapply le_trans; eauto.
    + intros [= <- <-] x [<-|Hx]; auto.
      destruct (le_total y h'); congruence.
Qed.

End SortFacts.

Lemma longer_first_total (a b : string) :
  Structure.longer_first a b = true \/ Structure.longer_first b a = true.
Proof.
  unfold Structure.longer_first.
  destruct (Nat.ltb_spec (String.length b) (String.length a)); auto.
  destruct (Nat.ltb_spec (String.length a) (String.length b)); auto.
  assert (E : String.length a = String.length b) by lia.
  rewrite E, Nat.eqb_refl. apply String.leb_total.
Qed.

Lemma longer_first_trans (a b c : string) :
  Structure.longer_first a b = true -> Structure.longer_first b c = true ->
  Structure.longer_first a c = true.
Proof.
  unfold Structure.longer_first.
  destruct (Nat.ltb_spec (String.length b) (String.length a));
    destruct (Nat.ltb_spec (String.length c) (String.length b));
    destruct (Nat.ltb_spec (String.length c) (String.length a));
    auto; try lia;
    destruct (Nat.eqb_spec (String.length a) (String.length b));
    destruct (Nat.eqb_spec (String.length b) (String.length c));
    destruct (Nat.eqb_spec (String.length a) (String.length c));
    try discriminate; try lia; apply string_leb_trans.
Qed.

(** What [longer_first] says in words *)
Lemma longer_first_spec (a b : string) :
  Structure.longer_first a b = true <->
  String.length b < String.length a \/
  (String.length b = String.length a /\ String.leb a b = true).
Proof.
  unfold Structure.longer_first.
  destruct (Nat.ltb_spec (String.length b) (String.length a)).
  - split; auto.
  - destruct (Nat.eqb_spec (String.length a) (String.length b)).
    + split; [right; split; auto | intros [|[_ ?]]; [lia | auto]].
    + split; [discriminate | intros [|[? _]]; lia].
Qed.

(* ================================================================== *)
(** * Grouping *)

Section Grouping.

Import Structure.

Lemma add_filing_grouped (g : groups) (f : Ecfs.filing) :
  Spec.grouped f = true ->
  add_filing g f = group_under (Spec.key_of f) (Spec.filer_name_of f) f g.
Proof.
  unfold Spec.grouped, Spec.key_of, Spec.filer_name_of, add_filing.
  destruct (Ecfs.filers f) as [|first rest]; simpl; [discriminate|].
  intros H. apply andb_prop in H as [H1 H2].
  rewrite H1. simpl. apply negb_true_iff in H2. now rewrite H2.
Qed.

Lemma add_filing_not_grouped (g : groups) (f : Ecfs.filing) :
  Spec.grouped f = false ->
  company_filings (add_filing g f) = company_filings g /\
  variations (add_filing g f) = variations g.
Proof.
  unfold Spec.grouped, Spec.filer_name_of, add_filing.
  destruct (Ecfs.filers f) as [|first rest]; simpl; auto.
  destruct (PyStr.truthy _); simpl; auto.
  destruct (is_government_entity _); simpl; auto. discriminate.
Qed.

Lemma set_add_In (x v : string) (l : list string) :
  In v (Py.set_add x l) <-> v = x \/ In v l.
Proof.
  unfold Py.set_add, Py.mem. destruct (existsb _ l) eqn:E.
  - apply existsb_exists in E as (y & Hy & E).
    apply String.eqb_eq in E. subst y. split; auto. intros [->|]; auto.
  - rewrite in_app_iff. simpl. intuition.
Qed.

Lemma set_add_NoDup (x : string) (l : list string) :
  NoDup l -> NoDup (Py.set_add x l).
Proof.
  intros Hnd. unfold Py.set_add, Py.mem. destruct (existsb _ l) eqn:E; auto.
  apply NoDup_rev in Hnd. rewrite <- (rev_involutive (_ ++ _)).
  apply NoDup_rev. rewrite rev_app_distr. simpl. constructor; auto.
  rewrite <- in_rev. intros Hin.
  assert (existsb (String.eqb x) l = true); [|congruence].
  apply existsb_exists. exists x. split; auto. apply String.eqb_refl.
Qed.

(** After the loop over the input, the grouping maps hold, under each
    key, the group of the key in input order and its name variants. *)
Lemma group_filings_spec (input : list Ecfs.filing) :
  let g := group_filings input in
  NoDup (map fst (company_filings g)) /\
  (forall key, Py.dict_get key (company_filings g) =
               Spec.some_if_any (Spec.group_of input key)) /\
  (forall key, NoDup (Py.default_get key (variations g) []) /\
               forall v, In v (Py.default_get key (variations g) []) <->
                         In v (Spec.variants_of input key)).
Proof.
  unfold group_filings, Spec.variants_of, Spec.group_of.
  induction input as [|f input IH] using rev_ind.
  - simpl. repeat split; try constructor; auto.
  - rewrite fold_left_app. simpl.
    destruct IH as (Hnd & Hcf & Hvar).
    set (g := fold_left add_filing input no_groups) in *.
    destruct (Spec.grouped f) eqn:Eg.
    + rewrite (add_filing_grouped _ _ Eg). simpl.
      split; [now apply dict_set_NoDup|]. split.
      * intros key. rewrite filter_app. simpl. rewrite Eg. simpl.
        destruct (String.eqb (Spec.key_of f) key) eqn:Ek.
        -- apply String.eqb_eq in Ek. subst key.
           rewrite dict_get_set_same. unfold Py.default_get.
           rewrite Hcf.
           destruct (filter _ input); reflexivity.
        -- apply String.eqb_neq in Ek.
           rewrite dict_get_set_other by congruence.
           now rewrite app_nil_r.
      * intros key. unfold Py.default_get.
        rewrite filter_app, map_app. simpl. rewrite Eg. simpl.
        destruct (String.eqb (Spec.key_of f) key) eqn:Ek.
        -- apply String.eqb_eq in Ek. subst key.
           rewrite dict_get_set_same. simpl.
           destruct (Hvar (Spec.key_of f)) as [Hn Hv].
           split; [now apply set_add_NoDup|].
           intros v. rewrite set_add_In, in_app_iff. simpl.
           unfold Py.default_get in Hv. rewrite Hv. intuition.
        -- apply String.eqb_neq in Ek.
           rewrite dict_get_set_other by congruence.
           simpl. rewrite app_nil_r. apply Hvar.
    + destruct (add_filing_not_grouped g f Eg) as [-> ->].
      split; auto. split.
      * intros key. rewrite filter_app. simpl. rewrite Eg. simpl.
        now rewrite app_nil_r.
      * intros key. rewrite filter_app. simpl. rewrite Eg. simpl.
        rewrite app_nil_r. apply Hvar.
Qed.

Lemma build_companies_In vars items (c : company) :
  In c (build_companies vars items) <->
  exists key group,
    In (key, group) items /\ build_company vars key group = Some c.
Proof.
  induction items as [|[k grp] items IH]; simpl.
  - split; [tauto | intros (? & ? & [] & _)].
  - destruct (build_company vars k grp) as [c'|] eqn:E; simpl; rewrite IH.
    + split.
      * intros [<-|(key & group & Hin & Hb)]; eauto 6.
      * intros (key & group & [[= <- <-]|Hin] & Hb); [left; congruence|].
        right. eauto.
    + split.
      * intros (key & group & Hin & Hb). eauto 6.
      * intros (key & group & [[= <- <-]|Hin] & Hb); [congruence|]. eauto.
Qed.

(** Every record written was built from the group of its key. *)
Lemma emitted_record (input : list Ecfs.filing) (c : company) :
  In c (fst (structure_companies input)) ->
  exists key,
    Spec.group_of input key <> [] /\
    build_company (variations (group_filings input)) key
                  (Spec.group_of input key) = Some c.
Proof.
  unfold structure_companies. simpl. unfold Py.sort_key.
  rewrite sort_by_In, build_companies_In.
  intros (key & group & Hin & Hb).
  destruct (group_filings_spec input) as (Hnd & Hcf & _).
  apply (dict_In_get _ _ _ Hnd) in Hin. rewrite Hcf in Hin.
  exists key. destruct (Spec.group_of input key) eqn:E; simpl in Hin.
  - discriminate.
  - injection Hin as <-. split; [discriminate | exact Hb].
Qed.

End Grouping.

(* ================================================================== *)
(** * The records *)

Section Records.

Import Structure.

(** The fields of a record built from a group *)
Lemma build_company_fields vars key group (c : company) :
  build_company vars key group = Some c ->
  exists primary_app rest,
    Py.sort_key date_of (filter is_application group) = primary_app :: rest /\
    company_name_normalized c = key /\
    company_name c =
      match Py.sort_by longer_first (Py.default_get key vars []) with
      | v :: _ => v
      | [] => key
      end /\
    dba_name c = snd (extract_dba_name (company_name c)) /\
    first_filing_date c = day_of primary_app /\
    latest_filing_date c = option_map day_of (Py.last_opt group) /\
    application_count c = List.length (filter is_application group) /\
    total_filing_count c = List.length group.
Proof.
  unfold build_company.
  destruct (Py.sort_key date_of (filter is_application group))
    as [|primary_app rest]; [discriminate|].
  destruct (extract_dba_name _) as [base dba] eqn:Edba.
  intros [= <-]. exists primary_app, rest. simpl.
  rewrite Edba. repeat split; reflexivity.
Qed.

Lemma last_opt_snoc {T} (l : list T) (x : T) :
  Py.last_opt (l ++ [x]) = Some x.
Proof.
  unfold Py.last_opt. rewrite map_app. simpl. apply last_last.
Qed.

Lemma is_application_spec (f : Ecfs.filing) :
  is_application f = true <-> Ecfs.submissiontype f = Some "APPLICATION".
Proof.
  unfold is_application. destruct (Ecfs.submissiontype f) as [d|].
  - rewrite String.eqb_eq. split; congruence.
  - split; discriminate.
Qed.

(** A record's group holds an application. *)
Lemma emitted_has_application (input : list Ecfs.filing) (c : company) :
  In c (fst (structure_companies input)) ->
  exists f, In f (Spec.group_of input (company_name_normalized c)) /\
            Ecfs.submissiontype f = Some "APPLICATION".
Proof.
  intros Hc. apply emitted_record in Hc as (key & Hne & Hb).
  apply build_company_fields in Hb
    as (app & rest & Hs & Hkey & _). rewrite Hkey.
  assert (Hin : In app (Py.sort_key date_of
                          (filter is_application (Spec.group_of input key))))
    by (rewrite Hs; now left).
  unfold Py.sort_key in Hin. rewrite sort_by_In in Hin.
  apply filter_In in Hin as [Hin Happ].
  exists app. split; auto. now apply is_application_spec.
Qed.

End Records.

(** C7. A record is only written for a group that holds a filing of type
    APPLICATION: the group of every record holds one, a key whose group
    holds none has no record, and an input that is a single SUPPLEMENT
    filing gives no record at all. *)
Theorem C7_no_application_no_record (input : list Ecfs.filing) :
  (forall c, In c (fst (Structure.structure_companies input)) ->
     exists f,
       In f (Spec.group_of input (Structure.company_name_normalized c)) /\
       Ecfs.submissiontype f = Some "APPLICATION") /\
  (forall key,
     (forall f, In f (Spec.group_of input key) ->
                Ecfs.submissiontype f <> Some "APPLICATION") ->
     forall c, In c (fst (Structure.structure_companies input)) ->
               Structure.company_name_normalized c <> key) /\
  (forall f, input = [f] -> Ecfs.submissiontype f = Some "SUPPLEMENT" ->
             fst (Structure.structure_companies input) = []).
Proof.
  split; [|split].
  - intros c Hc. now apply emitted_has_application.
  - intros key Hnone c Hc <-.
    apply emitted_has_application in Hc as (f & Hin & Happ).
    now apply (Hnone f).
  - intros f -> Hsupp.
    destruct (fst (Structure.structure_companies [f])) as [|c l] eqn:E; auto.
    assert (Hc : In c (fst (Structure.structure_companies [f])))
      by (rewrite E; now left).
    apply emitted_has_application in Hc as (f' & Hin & Happ).
    apply filter_In in Hin as [[<-|[]] _]. congruence.
Qed.

(** The witness of C7: the two filings of Acme VoIP, an application and a
    supplement, and a lone supplement. *)
Lemma C7_no_application_no_record_witness :
  let app := Spec.simple_filing (Some "1") (Some "Acme VoIP LLC")
               (Some "APPLICATION") (Some "2021-03-01T00:00:00Z") in
  let supp := Spec.simple_filing (Some "2") (Some "ACME VOIP, L.L.C.")
                (Some "SUPPLEMENT") (Some "2022-01-15T00:00:00Z") in
  (exists c, In c (fst (Structure.structure_companies [app; supp])) /\
             exists f,
               In f (Spec.group_of [app; supp]
                       (Structure.company_name_normalized c)) /\
               Ecfs.submissiontype f = Some "APPLICATION") /\
  fst (Structure.structure_companies [supp]) = [].
Proof.
  intros app supp. split.
  - destruct (fst (Structure.structure_companies [app; supp])) as [|c l] eqn:E;
      [vm_compute in E; discriminate|].
    exists c. split; [now left|].
    apply (proj1 (C7_no_application_no_record [app; supp])).
    rewrite E. now left.
  - apply (proj2 (proj2 (C7_no_application_no_record [supp])) supp);
      reflexivity.
Defined.

Section RecordFacts.

Import Structure.

Lemma filter_split_length {T} (p : T -> bool) (l : list T) :
  List.length l =
  List.length (filter p l) + List.length (filter (fun x => negb (p x)) l).
Proof.
  induction l as [|x l IH]; simpl; auto.
  destruct (p x); simpl; lia.
Qed.

Lemma day_of_length (f : Ecfs.filing) :
  String.length (day_of f) = Nat.min 10 (String.length (date_of f)).
Proof. apply take_length. Qed.

(** The name of a record is the head of its group's distinct name
    variants, sorted longest first, then by code points. *)
Lemma emitted_name (input : list Ecfs.filing) (c : company) :
  In c (fst (structure_companies input)) ->
  exists distinct rest,
    NoDup distinct /\
    (forall v, In v distinct <->
               In v (Spec.variants_of input (company_name_normalized c))) /\
    Py.sort_by longer_first distinct = company_name c :: rest /\
    dba_name c = snd (extract_dba_name (company_name c)).
Proof.
  intros Hc. apply emitted_record in Hc as (key & Hne & Hb).
  apply build_company_fields in Hb
    as (app & rest & _ & Hkey & Hname & Hdba & _). rewrite Hkey.
  destruct (group_filings_spec input) as (_ & _ & Hvar).
  destruct (Hvar key) as [Hnd Hv].
  set (distinct := Py.default_get key (variations (group_filings input)) [])
    in *.
  destruct (Py.sort_by longer_first distinct) as [|v vs] eqn:Es.
  - exfalso. apply Hne.
    assert (Hd : distinct = [])
      by (apply length_zero_iff_nil; rewrite <- (sort_by_length longer_first);
          now rewrite Es).
    destruct (Spec.group_of input key) as [|f l] eqn:Eg; auto.
    assert (Hin : In (Spec.filer_name_of f) distinct)
      by (apply Hv; unfold Spec.variants_of; rewrite Eg; now left).
    rewrite Hd in Hin. destruct Hin.
  - exists distinct, vs. simpl in Hname. rewrite Hname in *.
    split; [exact Hnd|]. split; [exact Hv|]. split; [exact Es | exact Hdba].
Qed.

End RecordFacts.

(** C8. The company_name of a record is the first of its group's distinct
    name variants sorted by descending length, then ascending order of code
    points: it is one of the variants, no variant is longer, and among the
    variants of its length it is the smallest. It is written as elected;
    the d/b/a part that [extract_dba_name] finds in it is stored in
    dba_name. *)
Theorem C8_company_name_elected
        (input : list Ecfs.filing) (c : Structure.company) :
  In c (fst (Structure.structure_companies input)) ->
  let names := Spec.variants_of input (Structure.company_name_normalized c) in
  (exists distinct rest,
      NoDup distinct /\
      (forall v, In v distinct <-> In v names) /\
      Py.sort_by Structure.longer_first distinct
      = Structure.company_name c :: rest) /\
  In (Structure.company_name c) names /\
  (forall v, In v names ->
     String.length v < String.length (Structure.company_name c) \/
     (String.length v = String.length (Structure.company_name c) /\
      String.leb (Structure.company_name c) v = true)) /\
  Structure.dba_name c
  = snd (Structure.extract_dba_name (Structure.company_name c)).
Proof.
  intros Hc names.
  destruct (emitted_name input c Hc) as (distinct & rest & Hnd & Hv & Hs & Hd).
  assert (Hhead : In (Structure.company_name c) distinct)
    by (apply (sort_by_In Structure.longer_first); rewrite Hs; now left).
  split; [exists distinct, rest; auto|].
  split; [now apply Hv|]. split; [|exact Hd].
  intros v Hin. apply longer_first_spec.
  eapply sort_by_head; eauto using longer_first_total, longer_first_trans.
  now apply Hv.
Qed.

(** The witness of C8: of the two spellings of one company, the longer is
    elected and written as it is, its d/b/a part apart. *)
Lemma C8_company_name_elected_witness :
  let input :=
    [ Spec.simple_filing (Some "1") (Some "Acme d/b/a Zap Corp")
                         (Some "APPLICATION") (Some "2021-03-01");
      Spec.simple_filing (Some "2") (Some "ACME D/B/A ZAP, CORP.")
                         (Some "AMENDMENT") (Some "2021-04-01") ] in
  exists c,
    In c (fst (Structure.structure_companies input)) /\
    Structure.company_name c = "ACME D/B/A ZAP, CORP." /\
    Structure.dba_name c = Some "ZAP, CORP." /\
    In (Structure.company_name c)
       (Spec.variants_of input (Structure.company_name_normalized c)) /\
    Structure.dba_name c
    = snd (Structure.extract_dba_name (Structure.company_name c)).
Proof.
  intros input.
  assert (E : exists c,
             fst (Structure.structure_companies input) = [c] /\
             Structure.company_name c = "ACME D/B/A ZAP, CORP." /\
             Structure.dba_name c = Some "ZAP, CORP.").
  { vm_compute. eexists. repeat split; reflexivity. }
  destruct E as (c & E & Hname & Hdba).
  assert (Hc : In c (fst (Structure.structure_companies input)))
    by (rewrite E; now left).
  exists c. split; [exact Hc|]. split; [exact Hname|]. split; [exact Hdba|].
  pose proof (C8_company_name_elected input c Hc) as (_ & Hin & _ & Hd).
  split; [exact Hin | exact Hd].
Defined.

Section Dates.

Import Structure.

(** The first filing date of a record is the smallest day among the
    applications of its group. *)
Lemma first_filing_date_min (input : list Ecfs.filing) (c : company) :
  In c (fst (structure_companies input)) ->
  let applications :=
    filter is_application (Spec.group_of input (company_name_normalized c)) in
  (exists f, In f applications /\ first_filing_date c = day_of f) /\
  (forall f, In f applications ->
             String.leb (first_filing_date c) (day_of f) = true).
Proof.
  intros Hc. apply emitted_record in Hc as (key & Hne & Hb).
  apply build_company_fields in Hb
    as (app & rest & Hs & Hkey & _ & _ & Hfirst & _).
  rewrite Hkey, Hfirst. simpl. split.
  - exists app. split; auto.
    apply (sort_by_In (fun a b => String.leb (date_of a) (date_of b))).
    unfold Py.sort_key in Hs. rewrite Hs. now left.
  - intros f Hin. apply take_monotone.
    apply (sort_by_head (fun a b => String.leb (date_of a) (date_of b)))
      with (l := filter is_application (Spec.group_of input key))
           (t := rest); auto.
    + intros a b. apply String.leb_total.
    + intros a b d. apply string_leb_trans.
Qed.

(** The latest filing date of a record is the day of the filing of its
    group that was read last. *)
Lemma latest_filing_date_last (input : list Ecfs.filing) (c : company) :
  In c (fst (structure_companies input)) ->
  exists before f,
    Spec.group_of input (company_name_normalized c) = before ++ [f] /\
    latest_filing_date c = Some (day_of f).
Proof.
  intros Hc. apply emitted_record in Hc as (key & Hne & Hb).
  apply build_company_fields in Hb
    as (app & rest & _ & Hkey & _ & _ & _ & Hlast & _).
  rewrite Hkey, Hlast.
  destruct (Spec.group_of input key) as [|f l] using rev_ind; [congruence|].
  exists l, f. now rewrite last_opt_snoc.
Qed.

End Dates.

(** C1, on the input where it fails. A supplement of 2022-01-15 is read
    before the application of 2021-03-01 of the same company: the record's
    first_filing_date is the application's day, and its latest_filing_date
    is the day of the filing read last, 2021-03-01, not the largest day of
    the group, 2022-01-15. *)
Theorem C1_latest_filing_date_is_last_read :
  let supp := Spec.simple_filing (Some "2") (Some "ACME VOIP, L.L.C.")
                (Some "SUPPLEMENT") (Some "2022-01-15T00:00:00Z") in
  let app := Spec.simple_filing (Some "1") (Some "Acme VoIP LLC")
               (Some "APPLICATION") (Some "2021-03-01T00:00:00Z") in
  exists c,
    fst (Structure.structure_companies [supp; app]) = [c] /\
    Spec.group_of [supp; app] (Structure.company_name_normalized c)
    = [supp; app] /\
    Structure.first_filing_date c = "2021-03-01" /\
    Structure.latest_filing_date c = Some "2021-03-01" /\
    Spec.max_string (map Structure.day_of [supp; app]) = "2022-01-15".
Proof.
  vm_compute. eexists. repeat split; reflexivity.
Qed.

(** A record of a group whose only application has no date_received: its
    dates are empty strings, not strings of 10 characters. *)
Lemma C10_dates_not_ten_characters :
  let app := Spec.simple_filing (Some "1") (Some "Acme VoIP LLC")
               (Some "APPLICATION") None in
  exists c,
    In c (fst (Structure.structure_companies [app])) /\
    String.length (Structure.first_filing_date c) <> 10 /\
    Structure.latest_filing_date c = Some "".
Proof.
  vm_compute. eexists. split; [left; reflexivity|]. split; [|reflexivity].
  simpl. discriminate.
Qed.

(** C10, as the code has it. Every record written has at least one
    application; its total_filing_count is its application_count plus the
    number of other filings of its group; its first_filing_date and its
    latest_filing_date are strings, never null, of at most 10 characters,
    and of exactly 10 when every filing of the group has a date_received of
    at least 10 characters. *)
Theorem C10_record_invariants
        (input : list Ecfs.filing) (c : Structure.company) :
  In c (fst (Structure.structure_companies input)) ->
  let group := Spec.group_of input (Structure.company_name_normalized c) in
  1 <= Structure.application_count c /\
  Structure.total_filing_count c
  = Structure.application_count c
    + List.length (filter (fun f => negb (Structure.is_application f)) group) /\
  Structure.application_count c <= Structure.total_filing_count c /\
  exists latest,
    Structure.latest_filing_date c = Some latest /\
    String.length (Structure.first_filing_date c) <= 10 /\
    String.length latest <= 10 /\
    ((forall f, In f group ->
        exists d, Ecfs.date_received f = Some d /\ 10 <= String.length d) ->
     String.length (Structure.first_filing_date c) = 10 /\
     String.length latest = 10).
Proof.
  intros Hc group.
  destruct (first_filing_date_min input c Hc) as [(a & Ha & Hfirst) _].
  destruct (latest_filing_date_last input c Hc) as (before & l & Hg & Hlast).
  apply emitted_record in Hc as (key & Hne & Hb).
  apply build_company_fields in Hb
    as (app & rest & Hs & Hkey & _ & _ & _ & _ & Happs & Htotal).
  fold group in Ha, Hg. subst group. rewrite Hkey in *.
  set (group := Spec.group_of input key) in *. clearbody group.
  assert (Hpos : 1 <= List.length (filter Structure.is_application group)).
  { rewrite <- (sort_by_length
                  (fun a b => String.leb (Structure.date_of a)
                                         (Structure.date_of b))).
    unfold Py.sort_key in Hs. rewrite Hs. simpl. lia. }
  pose proof (filter_split_length Structure.is_application group) as Hsplit.
  rewrite Happs, Htotal.
  split; [exact Hpos|]. split; [exact Hsplit|]. split; [lia|].
  exists (Structure.day_of l). split; [exact Hlast|].
  rewrite Hfirst, !day_of_length.
  split; [lia|]. split; [lia|].
  intros Hdates.
  assert (Hl : In l group) by (rewrite Hg, in_app_iff; simpl; auto).
  apply filter_In in Ha as [Ha _].
  destruct (Hdates a Ha) as (da & Eda & Hda).
  destruct (Hdates l Hl) as (dl & Edl & Hdl).
  unfold Structure.date_of. rewrite Eda, Edl. cbn [Py.get_or]. lia.
Qed.

(** The witness of C10: the application and the supplement of Acme VoIP. *)
Lemma C10_record_invariants_witness :
  let input :=
    [ Spec.simple_filing (Some "1") (Some "Acme VoIP LLC")
                         (Some "APPLICATION") (Some "2021-03-01T00:00:00Z");
      Spec.simple_filing (Some "2") (Some "ACME VOIP, L.L.C.")
                         (Some "SUPPLEMENT") (Some "2022-01-15T00:00:00Z") ] in
  exists c latest,
    In c (fst (Structure.structure_companies input)) /\
    Structure.total_filing_count c = 2 /\
    1 <= Structure.application_count c /\
    Structure.latest_filing_date c = Some latest /\
    String.length (Structure.first_filing_date c) = 10 /\
    String.length latest = 10.
Proof.
  intros input.
  assert (E : exists c,
             fst (Structure.structure_companies input) = [c] /\
             Spec.group_of input (Structure.company_name_normalized c) = input
             /\ Structure.total_filing_count c = 2).
  { vm_compute. eexists. repeat split; reflexivity. }
  destruct E as (c & E & Hg & Htotal).
  assert (Hc : In c (fst (Structure.structure_companies input)))
    by (rewrite E; now left).
  destruct (C10_record_invariants input c Hc)
    as (Hpos & _ & _ & latest & Hlatest & _ & _ & Hten).
  exists c, latest. split; [exact Hc|]. split; [exact Htotal|].
  split; [exact Hpos|]. split; [exact Hlatest|].
  apply Hten. rewrite Hg. intros f [<-|[<-|[]]]; eexists; split;
    try reflexivity; simpl; lia.
Defined.

(* ================================================================== *)
(** * The matcher *)

Section Matcher.

Import Re.

Lemma greedy_sound {T} p (k : string -> option T) s seg t :
  greedy p k s = Some (seg, t) ->
  exists s', s = (seg ++ s')%string /\ k s' = Some t.
Proof.
  revert seg; induction s as [|c s IH]; intros seg; simpl.
  - destruct (k "") eqn:E; simpl; [|discriminate].
    intros [= <- <-]. exists "". auto.
  - destruct (p c).
    + destruct (greedy p k s) as [[seg' t']|] eqn:Eg.
      * intros [= <- <-]. destruct (IH seg' eq_refl) as (s' & -> & Hk).
        exists s'. auto.
      * destruct (k (String c s)) eqn:E; simpl; [|discriminate].
        intros [= <- <-]. exists (String c s). auto.
    + destruct (k (String c s)) eqn:E; simpl; [|discriminate].
      intros [= <- <-]. exists (String c s). auto.
Qed.

Lemma lazy_sound {T} p (k : string -> option T) s seg t :
  lazy p k s = Some (seg, t) ->
  exists s', s = (seg ++ s')%string /\ k s' = Some t.
Proof.
  revert seg; induction s as [|c s IH]; intros seg; simpl.
  - destruct (k "") eqn:E; [|discriminate].
    intros [= <- <-]. exists "". auto.
  - destruct (k (String c s)) eqn:E.
    + intros [= <- <-]. exists (String c s). auto.
    + destruct (p c); [|discriminate].
      destruct (lazy p k s) as [[seg' t']|] eqn:El; simpl; [|discriminate].
      intros [= <- <-]. destruct (IH seg' eq_refl) as (s' & -> & Hk).
      exists s'. auto.
Qed.

(** An item consumes a prefix of the string and hands the rest to the
    continuation. *)
Lemma step_sound {T} it (k : string -> option T) s seg t :
  step it k s = Some (seg, t) ->
  exists s', s = (seg ++ s')%string /\ k s' = Some t.
Proof.
  destruct it as [p|p|p|p|p|]; simpl.
  - destruct s as [|c s]; [discriminate|]. destruct (p c); [|discriminate].
    destruct (k s) eqn:E; simpl; [|discriminate].
    intros [= <- <-]. exists s. auto.
  - destruct s as [|c s].
    + destruct (k "") eqn:E; simpl; [|discriminate].
      intros [= <- <-]. exists "". auto.
    + destruct (p c).
      * destruct (k s) eqn:E.
        -- intros [= <- <-]. exists s. auto.
        -- destruct (k (String c s)) eqn:E'; simpl; [|discriminate].
           intros [= <- <-]. exists (String c s). auto.
      * destruct (k (String c s)) eqn:E'; simpl; [|discriminate].
        intros [= <- <-]. exists (String c s). auto.
  - apply greedy_sound.
  - destruct s as [|c s]; [discriminate|]. destruct (p c); [|discriminate].
    destruct (greedy p k s) as [[seg' t']|] eqn:Eg; simpl; [|discriminate].
    intros [= <- <-]. apply greedy_sound in Eg as (s' & -> & Hk).
    exists s'. auto.
  - destruct s as [|c s]; [discriminate|]. destruct (p c); [|discriminate].
    destruct (lazy p k s) as [[seg' t']|] eqn:El; simpl; [|discriminate].
    intros [= <- <-]. apply lazy_sound in El as (s' & -> & Hk).
    exists s'. auto.
  - destruct (at_end s); [|discriminate].
    destruct (k s) eqn:E; simpl; [|discriminate].
    intros [= <- <-]. exists s. auto.
Qed.

(** A match is a prefix of the string: the texts of the items, then what
    is left. *)
Lemma match_items_sound pat s segs rest :
  match_items pat s = Some (segs, rest) ->
  s = (matched segs ++ rest)%string.
Proof.
  revert s segs; induction pat as [|it pat IH]; intros s segs; simpl.
  - now intros [= <- <-].
  - destruct (step it (match_items pat) s) as [[seg [segs' tl]]|] eqn:E;
      [|discriminate].
    intros [= <- <-]. apply step_sound in E as (s' & -> & Hk).
    apply IH in Hk. rewrite Hk. simpl. now rewrite append_assoc.
Qed.

(** A pattern that ends with [$] only matches up to the end of the
    string, or up to its final newline. *)
Lemma match_items_eos its s segs rest :
  match_items (its ++ [Eos]) s = Some (segs, rest) -> at_end rest = true.
Proof.
  revert s segs; induction its as [|it its IH]; intros s segs; simpl.
  - destruct (at_end s) eqn:E; [|discriminate]. now intros [= <- <-].
  - destruct (step it (match_items (its ++ [Eos])) s)
      as [[seg [segs' tl]]|] eqn:E; [|discriminate].
    intros [= <- <-]. apply step_sound in E as (s' & -> & Hk). eauto.
Qed.

Lemma sub_scan_skip pat repl (a b : string) :
  sub_scan pat repl (String.length a) (a ++ b) = sub_scan pat repl 0 b.
Proof. induction a as [|c a IH]; simpl; auto. Qed.

Lemma ends_with_cons p (c d : ascii) (s : string) :
  PyStr.ends_with p (String c (String d s)) = PyStr.ends_with p (String d s).
Proof. reflexivity. Qed.

Lemma ends_with_app p (a b : string) :
  b <> "" -> PyStr.ends_with p (a ++ b) = PyStr.ends_with p b.
Proof.
  intros Hb. induction a as [|c a IH]; simpl; auto.
  destruct (a ++ b)%string eqn:E; auto.
  destruct a; simpl in E; congruence.
Qed.

Lemma rstrip_by_ends p (s : string) :
  PyStr.ends_with p (PyStr.rstrip_by p s) = false.
Proof.
  induction s as [|c s IH]; simpl; auto.
  destruct (PyStr.rstrip_by p s) as [|d t] eqn:E.
  - destruct (p c) eqn:Ec; simpl; auto.
  - exact IH.
Qed.

(** What [re.sub] does with a pattern anchored by [$] on a string that
    does not end with a newline: nothing, or the replacement of a suffix. *)
Lemma sub_anchored its repl (s : string) :
  match_items (its ++ [Eos]) "" = None ->
  PyStr.ends_with_newline s = false ->
  (search (its ++ [Eos]) s = false /\ sub (its ++ [Eos]) repl s = s) \/
  (search (its ++ [Eos]) s = true /\
   exists pre suf,
     s = (pre ++ suf)%string /\ suf <> "" /\
     match_items (its ++ [Eos]) suf <> None /\
     sub (its ++ [Eos]) repl s = (pre ++ repl)%string).
Proof.
  intros Hempty. unfold sub.
  induction s as [|c s IH]; intros Hnl.
  - left. simpl. now rewrite Hempty.
  - cbn [sub_scan search].
    destruct (match_items (its ++ [Eos]) (String c s))
      as [[segs rest]|] eqn:Em.
    + right. split; auto. exists "", (String c s).
      pose proof (match_items_eos _ _ _ _ Em) as Hend.
      pose proof (match_items_sound _ _ _ _ Em) as Hs.
      assert (rest = "") as ->.
      { destruct rest as [|d [|e rest]]; auto; [|discriminate].
        simpl in Hend. apply Ascii.eqb_eq in Hend. subst d.
        unfold PyStr.ends_with_newline in Hnl.
        rewrite Hs, ends_with_app in Hnl by discriminate.
        discriminate. }
      repeat split; try congruence.
      simpl String.length. rewrite Nat.sub_0_r.
      rewrite <- (append_empty_r s) at 2. rewrite sub_scan_skip.
      simpl. rewrite Hempty. now rewrite append_empty_r.
    + assert (Hnl' : PyStr.ends_with_newline s = false).
      { destruct s; auto. }
      destruct (IH Hnl') as [[Hs Hsub]|[Hs (pre & suf & -> & Hsuf & Hm & Hsub)]].
      * left. now rewrite Hsub.
      * right. split; auto. exists (String c pre), suf.
        rewrite Hsub. auto.
Qed.

End Matcher.

(* ================================================================== *)
(** * The suffix table *)

Section SuffixTable.

Import Structure.

(** Every pattern of the table ends with [$], needs at least one
    character, and its replacement ends with a letter. *)
Lemma suffix_rule_shape (rule : Re.pattern * string) :
  In rule suffixes ->
  (exists its, fst rule = its ++ [Re.Eos]) /\
  Re.match_items (fst rule) "" = None /\
  snd rule <> "" /\
  PyStr.ends_with_newline (snd rule) = false.
Proof.
  intros Hin.
  split; [exists (removelast (fst rule))|];
    repeat (destruct Hin as [<-|Hin];
            [first [reflexivity | repeat split; [discriminate]]|]);
    destruct Hin.
Qed.

Lemma ends_with_weaken (p q : ascii -> bool) (s : string) :
  (forall c, q c = true -> p c = true) ->
  PyStr.ends_with p s = false -> PyStr.ends_with q s = false.
Proof.
  intros Hpq. induction s as [|c s IH]; simpl; auto.
  destruct s; auto. intros Hp. destruct (q c) eqn:E; auto.
  apply Hpq in E. congruence.
Qed.

Lemma strip_no_newline (s : string) :
  PyStr.ends_with_newline (PyStr.strip s) = false.
Proof.
  unfold PyStr.ends_with_newline, PyStr.strip.
  apply ends_with_weaken with (p := PyStr.is_space);
    [|apply rstrip_by_ends].
  intros c Hc. apply Ascii.eqb_eq in Hc. now subst c.
Qed.

(** One rule of the table, on a string that does not end with a newline *)
Lemma apply_rule_suffix (rule : Re.pattern * string) (s : string) :
  In rule suffixes ->
  PyStr.ends_with_newline s = false ->
  (Re.search (fst rule) s = false /\ apply_rule s rule = s) \/
  (Re.search (fst rule) s = true /\
   exists pre suf,
     s = (pre ++ suf)%string /\ suf <> "" /\
     Re.match_items (fst rule) suf <> None /\
     apply_rule s rule = (pre ++ snd rule)%string).
Proof.
  intros Hin Hnl.
  destruct (suffix_rule_shape rule Hin) as ([its Hits] & Hempty & _).
  unfold apply_rule. rewrite Hits in *. now apply sub_anchored.
Qed.

Lemma apply_rule_no_newline (rule : Re.pattern * string) (s : string) :
  In rule suffixes ->
  PyStr.ends_with_newline s = false ->
  PyStr.ends_with_newline (apply_rule s rule) = false.
Proof.
  intros Hin Hnl.
  destruct (apply_rule_suffix rule s Hin Hnl)
    as [[_ ->]|[_ (pre & suf & _ & _ & _ & ->)]]; auto.
  destruct (suffix_rule_shape rule Hin) as (_ & _ & Hne & Hend).
  unfold PyStr.ends_with_newline. now rewrite ends_with_app.
Qed.

Lemma fold_rules_no_newline (rules : list (Re.pattern * string)) (s : string) :
  incl rules suffixes ->
  PyStr.ends_with_newline s = false ->
  PyStr.ends_with_newline (fold_left apply_rule rules s) = false.
Proof.
  revert s; induction rules as [|rule rules IH]; intros s Hincl Hnl; auto.
  simpl. apply IH.
  - intros r Hr. apply Hincl. now right.
  - apply apply_rule_no_newline; auto. apply Hincl. now left.
Qed.

Lemma firstn_incl {T} (n : nat) (l : list T) : incl (firstn n l) l.
Proof.
  revert l; induction n as [|n IH]; intros [|x l] y; simpl; intros H;
    try contradiction.
  destruct H as [<-|H]; [now left | right; now apply (IH l)].
Qed.

Lemma firstn_snoc {T} (n : nat) (l : list T) (x : T) :
  nth_error l n = Some x -> firstn (S n) l = firstn n l ++ [x].
Proof.
  revert l; induction n as [|n IH]; intros [|y l]; simpl; try discriminate.
  - now intros [= ->].
  - intros H. f_equal. now apply IH.
Qed.

End SuffixTable.

(* ================================================================== *)
(** * Idempotence of the normalizer *)

(** A second normalization of "Acme, Inc.," changes the result of the
    first: the two trailing marks hide the suffix from the rules the first
    time, and the comma before it is rewritten the second time. *)
Lemma C2_not_idempotent :
  Structure.normalize_company_name "Acme, Inc.," = "acme, inc" /\
  Structure.normalize_company_name
    (Structure.normalize_company_name "Acme, Inc.,") = "acme inc" /\
  Structure.normalize_company_name
    (Structure.normalize_company_name "Acme, Inc.,")
  <> Structure.normalize_company_name "Acme, Inc.,".
Proof.
  vm_compute. repeat split; try reflexivity. discriminate.
Qed.

(** The witness of C4: a query that returns a filing, one without an id and
    one with an empty id. *)
Lemma C4_missing_id_excluded_witness :
  let a := Spec.simple_filing (Some "A1") (Some "Acme") None None in
  let noid := Spec.simple_filing None (Some "Acme") None None in
  let empty := Spec.simple_filing (Some "") (Some "Acme") None None in
  let fetch := fun _ : string => [a; noid; empty] in
  fst (Extract.run_queries fetch ["q"]) = [("A1", a)] /\
  (forall k f, In (k, f) (fst (Extract.run_queries fetch ["q"])) ->
               k <> "" /\ Ecfs.id_submission f = Some k /\
               Spec.missing_id f = false) /\
  map Extract.fetched (snd (Extract.run_queries fetch ["q"])) = [3] /\
  map Extract.new_unique (snd (Extract.run_queries fetch ["q"])) = [1].
Proof.
  intros a noid empty fetch.
  split; [reflexivity|]. split; [|split; reflexivity].
  exact (proj1 (C4_missing_id_excluded fetch ["q"])).
Defined.

(* ================================================================== *)
(** * The matcher finds a match exactly when the pattern has one *)

Section MatcherLang.

Import Re.

Lemma greedy_lang pat p s seg segs rest :
  (forall s segs rest, match_items pat s = Some (segs, rest) ->
                       lang pat s rest) ->
  greedy p (match_items pat) s = Some (seg, (segs, rest)) ->
  lang (Star p :: pat) s rest.
Proof.
  intros Hk. revert seg; induction s as [|c s IH]; intros seg; simpl.
  - destruct (match_items pat "") as [[segs' rest']|] eqn:E; simpl;
      [|discriminate].
    intros [= <- <- <-]. apply lang_star_stop. eauto.
  - destruct (p c) eqn:Ep.
    + destruct (greedy p (match_items pat) s) as [[seg' [segs' rest']]|] eqn:Eg.
      * intros [= <- <- <-]. apply lang_star_more; eauto.
      * destruct (match_items pat (String c s)) as [[segs' rest']|] eqn:E;
          simpl; [|discriminate].
        intros [= <- <- <-]. apply lang_star_stop. eauto.
    + destruct (match_items pat (String c s)) as [[segs' rest']|] eqn:E;
        simpl; [|discriminate].
      intros [= <- <- <-]. apply lang_star_stop. eauto.
Qed.

Lemma lazy_lang pat p s seg segs rest :
  (forall s segs rest, match_items pat s = Some (segs, rest) ->
                       lang pat s rest) ->
  lazy p (match_items pat) s = Some (seg, (segs, rest)) ->
  lang (Star p :: pat) s rest.
Proof.
  intros Hk. revert seg; induction s as [|c s IH]; intros seg; simpl.
  - destruct (match_items pat "") as [[segs' rest']|] eqn:E; [|discriminate].
    intros [= <- <- <-]. apply lang_star_stop. eauto.
  - destruct (match_items pat (String c s)) as [[segs' rest']|] eqn:E.
    + intros [= <- <- <-]. apply lang_star_stop. eauto.
    + destruct (p c) eqn:Ep; [|discriminate].
      destruct (lazy p (match_items pat) s) as [[seg' [segs' rest']]|] eqn:El;
        simpl; [|discriminate].
      intros [= <- <- <-]. apply lang_star_more; eauto.
Qed.

(** Soundness: what the matcher returns is a match. *)
Lemma match_items_lang pat s segs rest :
  match_items pat s = Some (segs, rest) -> lang pat s rest.
Proof.
  revert s segs rest; induction pat as [|it pat IH]; intros s segs rest.
  - simpl. intros [= <- <-]. constructor.
  - simpl.
    destruct (step it (match_items pat) s) as [[seg [segs' tl]]|] eqn:E;
      [|discriminate].
    intros [= <- <-]. destruct it as [p|p|p|p|p|]; simpl in E.
    + destruct s as [|c s]; [discriminate|].
      destruct (p c) eqn:Ep; [|discriminate].
      destruct (match_items pat s) as [[sg tl']|] eqn:Ek; simpl in E;
        [|discriminate].
      injection E as <- <- <-. apply lang_one; eauto.
    + destruct s as [|c s].
      * destruct (match_items pat "") as [[sg tl']|] eqn:Ek; simpl in E;
          [|discriminate].
        injection E as <- <- <-. apply lang_opt_skip; eauto.
      * destruct (p c) eqn:Ep.
        -- destruct (match_items pat s) as [[sg tl']|] eqn:Ek.
           ++ injection E as <- <- <-. apply lang_opt_take; eauto.
           ++ destruct (match_items pat (String c s)) as [[sg tl']|] eqn:Ek';
                simpl in E; [|discriminate].
              injection E as <- <- <-. apply lang_opt_skip; eauto.
        -- destruct (match_items pat (String c s)) as [[sg tl']|] eqn:Ek';
             simpl in E; [|discriminate].
           injection E as <- <- <-. apply lang_opt_skip; eauto.
    + eapply greedy_lang; eauto.
    + destruct s as [|c s]; [discriminate|].
      destruct (p c) eqn:Ep; [|discriminate].
      destruct (greedy p (match_items pat) s) as [[sg [sgs tl']]|] eqn:Eg;
        simpl in E; [|discriminate].
      injection E as <- <- <-. apply lang_plus; auto.
      eapply greedy_lang; eauto.
    + destruct s as [|c s]; [discriminate|].
      destruct (p c) eqn:Ep; [|discriminate].
      destruct (lazy p (match_items pat) s) as [[sg [sgs tl']]|] eqn:El;
        simpl in E; [|discriminate].
      injection E as <- <- <-. apply lang_plus_lazy; auto.
      eapply lazy_lang; eauto.
    + destruct (at_end s) eqn:Ee; [|discriminate].
      destruct (match_items pat s) as [[sg tl']|] eqn:Ek; simpl in E;
        [|discriminate].
      injection E as <- <- <-. apply lang_eos; eauto.
Qed.

Lemma greedy_fallback {T} p (k : string -> option T) s :
  succeeds (k s) -> succeeds (greedy p k s).
Proof.
  intros [t Hk]. destruct s as [|c s]; simpl.
  - rewrite Hk. simpl. simpl; eexists; reflexivity.
  - destruct (p c); [destruct (greedy p k s) as [[seg t']|]|];
      try rewrite Hk; simpl; simpl; eexists; reflexivity.
Qed.

Lemma greedy_more {T} p (k : string -> option T) c s :
  p c = true -> succeeds (greedy p k s) -> succeeds (greedy p k (String c s)).
Proof.
  intros Hp [[seg t] Hg]. simpl. rewrite Hp, Hg. simpl; eexists; reflexivity.
Qed.

Lemma lazy_of_greedy {T} p (k : string -> option T) s :
  succeeds (greedy p k s) -> succeeds (lazy p k s).
Proof.
  induction s as [|c s IH]; simpl.
  - destruct (k "") as [t|]; simpl; intros [r Hr]; [simpl; eexists; reflexivity|discriminate].
  - destruct (k (String c s)) as [t|] eqn:Ek; [intros _; simpl; eexists; reflexivity|].
    destruct (p c).
    + destruct (greedy p k s) as [[seg t]|] eqn:Eg.
      * intros _. destruct IH as [[seg' t'] Hl]; [simpl; eexists; reflexivity|].
        rewrite Hl. simpl. simpl; eexists; reflexivity.
      * simpl. intros [r Hr]. discriminate.
    + simpl. intros [r Hr]. discriminate.
Qed.

(** Completeness: where the pattern has a match, the matcher returns one. *)
Lemma lang_match_items pat s rest :
  lang pat s rest -> succeeds (match_items pat s).
Proof.
  assert (Hcons : forall it pat s,
             succeeds (step it (match_items pat) s) ->
             succeeds (match_items (it :: pat) s)).
  { intros it pat' s' [[seg [segs tl]] Hs]. simpl. rewrite Hs.
    simpl; eexists; reflexivity. }
  assert (Hstar : forall p pat s,
             succeeds (match_items (Star p :: pat) s) ->
             succeeds (greedy p (match_items pat) s)).
  { intros p pat' s' [[segs tl] Hs]. simpl in Hs.
    destruct (greedy p (match_items pat') s') as [[seg [sgs tl']]|];
      [simpl; eexists; reflexivity | discriminate]. }
  induction 1 as [s|p pat c s rest Hp _ IH|p pat s rest _ IH
                  |p pat c s rest Hp _ IH|p pat s rest _ IH
                  |p pat c s rest Hp _ IH|p pat c s rest Hp _ IH
                  |p pat c s rest Hp _ IH|pat s rest He _ IH].
  - eexists; reflexivity.
  - apply Hcons. simpl. rewrite Hp. destruct IH as [t ->]. simpl; eexists; reflexivity.
  - apply Hcons. simpl. destruct IH as [t Ht].
    destruct s as [|c s]; [rewrite Ht; simpl; eexists; reflexivity|].
    destruct (p c); [destruct (match_items pat s)|]; try rewrite Ht;
      simpl; eexists; reflexivity.
  - apply Hcons. simpl. rewrite Hp. destruct IH as [t ->]. simpl; eexists; reflexivity.
  - apply Hcons. simpl. now apply greedy_fallback.
  - apply Hcons. simpl. apply greedy_more; auto.
  - apply Hcons. simpl. rewrite Hp.
    destruct (Hstar _ _ _ IH) as [[seg t] ->]. simpl; eexists; reflexivity.
  - apply Hcons. simpl. rewrite Hp.
    destruct (lazy_of_greedy _ _ _ (Hstar _ _ _ IH)) as [[seg t] ->].
    simpl; eexists; reflexivity.
  - apply Hcons. simpl. rewrite He. destruct IH as [t ->]. simpl; eexists; reflexivity.
Qed.

End MatcherLang.

(* ================================================================== *)
(** * Searching and rewriting the tail *)

Section Tail.

Import Re.

Lemma search_here pat (s : string) :
  succeeds (match_items pat s) -> search pat s = true.
Proof. intros [t Ht]. destruct s; simpl; now rewrite Ht. Qed.

Lemma search_app pat (a b : string) :
  search pat b = true -> search pat (a ++ b) = true.
Proof.
  intros Hb. induction a as [|c a IH]; simpl; auto.
  destruct (match_items pat (String c (a ++ b))); auto.
Qed.

Lemma search_split pat (s : string) :
  search pat s = true ->
  exists a b, s = (a ++ b)%string /\ succeeds (match_items pat b).
Proof.
  induction s as [|c s IH]; simpl.
  - destruct (match_items pat "") as [t|] eqn:E; [|discriminate].
    intros _. exists "", "". split; auto. now exists t.
  - destruct (match_items pat (String c s)) as [t|] eqn:E.
    + intros _. exists "", (String c s). split; auto. now exists t.
    + intros H. destruct (IH H) as (a & b & -> & Hb).
      exists (String c a), b. auto.
Qed.

Lemma rewrite_tail_quiet pat repl (s : string) :
  search pat s = false -> Spec.rewrite_tail pat repl s = s.
Proof.
  induction s as [|c s IH]; simpl.
  - now destruct (match_items pat "").
  - destruct (match_items pat (String c s)); [discriminate|].
    intros H. now rewrite IH.
Qed.

(** The tail is rewritten from [t] on when no earlier position matches. *)
Lemma rewrite_tail_at pat repl (pre t : string) :
  (forall a b, pre = (a ++ b)%string -> b <> "" ->
               match_items pat (b ++ t) = None) ->
  succeeds (match_items pat t) ->
  Spec.rewrite_tail pat repl (pre ++ t) = (pre ++ repl)%string.
Proof.
  intros Hpre [r Ht]. induction pre as [|c pre IH].
  - destruct t; simpl; now rewrite Ht.
  - assert (H0 : match_items pat (String c pre ++ t) = None)
      by (apply (Hpre "" (String c pre)); [reflexivity | discriminate]).
    simpl in *. rewrite H0, IH; auto.
    intros a b -> Hb. apply (Hpre (String c a) b); auto.
Qed.

(** [re.sub] with a pattern anchored by [$] rewrites the tail. *)
Lemma sub_rewrite_tail its repl (s : string) :
  match_items (its ++ [Eos]) "" = None ->
  PyStr.ends_with_newline s = false ->
  sub (its ++ [Eos]) repl s = Spec.rewrite_tail (its ++ [Eos]) repl s.
Proof.
  intros Hempty. unfold sub.
  induction s as [|c s IH]; intros Hnl.
  - simpl. now rewrite Hempty.
  - cbn [sub_scan Spec.rewrite_tail].
    destruct (match_items (its ++ [Eos]) (String c s))
      as [[segs rest]|] eqn:Em.
    + pose proof (match_items_eos _ _ _ _ Em) as Hend.
      pose proof (match_items_sound _ _ _ _ Em) as Hs.
      assert (rest = "") as ->.
      { destruct rest as [|d [|e rest]]; auto; [|discriminate].
        simpl in Hend. apply Ascii.eqb_eq in Hend. subst d.
        unfold PyStr.ends_with_newline in Hnl.
        rewrite Hs, ends_with_app in Hnl by discriminate.
        discriminate. }
      simpl String.length. rewrite Nat.sub_0_r.
      rewrite <- (append_empty_r s) at 2. rewrite sub_scan_skip.
      simpl. rewrite Hempty. now rewrite append_empty_r.
    + rewrite IH; auto. destruct s; auto.
Qed.

Lemma is_suffix_spec (v u : string) :
  PyStr.is_suffix v u = true <-> exists c, u = (c ++ v)%string.
Proof.
  induction u as [|x u IH]; cbn [PyStr.is_suffix].
  - destruct (String.eqb "" v) eqn:E.
    + apply String.eqb_eq in E. subst v. split; auto. now exists "".
    + split; [discriminate|]. intros [c H].
      destruct c; simpl in H; [|discriminate].
      subst v. now rewrite String.eqb_refl in E.
  - destruct (String.eqb (String x u) v) eqn:E.
    + apply String.eqb_eq in E. subst v. split; auto. now exists "".
    + rewrite IH. split.
      * intros [c ->]. now exists (String x c).
      * intros [c H]. destruct c as [|y c]; simpl in H.
        -- subst v. now rewrite String.eqb_refl in E.
        -- injection H as _ ->. now exists c.
Qed.

(** Two ways to cut one string: one tail is a suffix of the other. *)
Lemma tails_comparable (a u b v : string) :
  (a ++ u)%string = (b ++ v)%string ->
  PyStr.is_suffix u v = true \/ PyStr.is_suffix v u = true.
Proof.
  revert b; induction a as [|x a IH]; intros b H.
  - right. apply is_suffix_spec. now exists b.
  - destruct b as [|y b].
    + left. apply is_suffix_spec. now exists (String x a).
    + injection H as _ H. eauto.
Qed.

Lemma all_chars_app p (a b : string) :
  PyStr.all_chars p (a ++ b) = (PyStr.all_chars p a && PyStr.all_chars p b)%bool.
Proof.
  induction a as [|c a IH]; simpl; auto. now rewrite IH, andb_assoc.
Qed.

Lemma all_chars_weaken (p q : ascii -> bool) (s : string) :
  (forall c, p c = true -> q c = true) ->
  PyStr.all_chars p s = true -> PyStr.all_chars q s = true.
Proof.
  intros Hpq. induction s as [|c s IH]; simpl; auto.
  intros H. apply andb_prop in H as [Hc Hs]. now rewrite (Hpq _ Hc), IH.
Qed.

(** A pattern in two parts matches in two parts. *)
Lemma lang_app_inv pat1 pat2 (t rest : string) :
  lang (pat1 ++ pat2) t rest ->
  exists m t', t = (m ++ t')%string /\ lang pat2 t' rest.
Proof.
  intros H. remember (pat1 ++ pat2) as pat eqn:Heq.
  revert pat1 Heq.
  assert (Hnil : forall t, lang pat2 t rest ->
                           exists m t', t = (m ++ t')%string /\ lang pat2 t' rest)
    by (intros t0 H0; exists "", t0; auto).
  induction H as [s|p pat c s rest Hp H IH|p pat s rest H IH
                  |p pat c s rest Hp H IH|p pat s rest H IH
                  |p pat c s rest Hp H IH|p pat c s rest Hp H IH
                  |p pat c s rest Hp H IH|pat s rest He H IH];
    intros pat1 Heq; destruct pat1 as [|it pat1]; simpl in Heq;
    try discriminate.
  - apply Hnil. subst pat2. constructor.
  - apply Hnil. subst pat2. now apply lang_one.
  - injection Heq as Hit Hpat; subst it pat.
    destruct (IH Hnil pat1 eq_refl) as (m & t' & -> & Ht).
    exists (String c m), t'. auto.
  - apply Hnil. subst pat2. now apply lang_opt_skip.
  - injection Heq as Hit Hpat; subst it pat.
    destruct (IH Hnil pat1 eq_refl) as (m & t' & -> & Ht). eauto.
  - apply Hnil. subst pat2. now apply lang_opt_take.
  - injection Heq as Hit Hpat; subst it pat.
    destruct (IH Hnil pat1 eq_refl) as (m & t' & -> & Ht).
    exists (String c m), t'. auto.
  - apply Hnil. subst pat2. now apply lang_star_stop.
  - injection Heq as Hit Hpat; subst it pat.
    destruct (IH Hnil pat1 eq_refl) as (m & t' & -> & Ht). eauto.
  - apply Hnil. subst pat2. now apply lang_star_more.
  - injection Heq as Hit Hpat; subst it pat.
    destruct (IH Hnil (Star p :: pat1) eq_refl) as (m & t' & -> & Ht).
    exists (String c m), t'. auto.
  - apply Hnil. subst pat2. now apply lang_plus.
  - injection Heq as Hit Hpat; subst it pat.
    destruct (IH Hnil (Star p :: pat1) eq_refl) as (m & t' & -> & Ht).
    exists (String c m), t'. auto.
  - apply Hnil. subst pat2. now apply lang_plus_lazy.
  - injection Heq as Hit Hpat; subst it pat.
    destruct (IH Hnil (Star p :: pat1) eq_refl) as (m & t' & -> & Ht).
    exists (String c m), t'. auto.
  - apply Hnil. subst pat2. now apply lang_eos.
  - injection Heq as Hit Hpat; subst it pat.
    destruct (IH Hnil pat1 eq_refl) as (m & t' & -> & Ht). eauto.
Qed.

(** What a starred class matches is made of the class. *)
Lemma lang_star_inv p pat (t rest : string) :
  lang (Star p :: pat) t rest ->
  exists a t', t = (a ++ t')%string /\ PyStr.all_chars p a = true /\
               lang pat t' rest.
Proof.
  intros H. remember (Star p :: pat) as sp eqn:Heq.
  induction H as [s|q pat' c s rest Hp H IH|q pat' s rest H IH
                  |q pat' c s rest Hp H IH|q pat' s rest H IH
                  |q pat' c s rest Hp H IH|q pat' c s rest Hp H IH
                  |q pat' c s rest Hp H IH|pat' s rest He H IH];
    try discriminate; injection Heq as -> ->.
  - exists "", s. auto.
  - destruct (IH eq_refl) as (a & t' & -> & Ha & Ht).
    exists (String c a), t'. simpl. rewrite Hp, Ha. auto.
Qed.

End Tail.

(* ================================================================== *)
(** * Collapsing whitespace and stripping *)

Section Whitespace.

Import Re.

Lemma greedy_all p (s : string) :
  exists seg,
    greedy p (match_items []) s = Some (seg, ([], PyStr.lstrip_by p s)).
Proof.
  induction s as [|c s [seg IH]]; cbn [greedy PyStr.lstrip_by].
  - now exists "".
  - destruct (p c).
    + rewrite IH. now exists (String c seg).
    + now exists "".
Qed.

Lemma lstrip_length p (s : string) :
  String.length (PyStr.lstrip_by p s) <= String.length s.
Proof.
  induction s as [|c s IH]; simpl; auto. destruct (p c); simpl; lia.
Qed.

Lemma match_plus_space (c : ascii) (s : string) :
  if PyStr.is_space c
  then exists seg, match_items [Plus space] (String c s)
                   = Some ([seg], PyStr.lstrip_by space s)
  else match_items [Plus space] (String c s) = None.
Proof.
  destruct (greedy_all space s) as [seg Hg]. simpl in Hg |- *.
  unfold space in *. destruct (PyStr.is_space c); auto.
  rewrite Hg. simpl. eauto.
Qed.

(** The first [re.sub] of the whitespace step squeezes every run of
    whitespace into one space. *)
Lemma sub_scan_squeeze (s : string) :
  sub_scan [Plus space] " " 0 s = Spec.squeeze false s /\
  sub_scan [Plus space] " "
           (String.length s - String.length (PyStr.lstrip_by space s)) s
  = Spec.squeeze true s.
Proof.
  induction s as [|c s [IH0 IH1]].
  - split; reflexivity.
  - pose proof (lstrip_length space s) as Hlen.
    pose proof (match_plus_space c s) as Hm.
    cbn [sub_scan Spec.squeeze PyStr.lstrip_by].
    unfold space in *. destruct (PyStr.is_space c) eqn:Ec.
    + destruct Hm as [seg ->].
      replace (String.length (String c s)
               - String.length (PyStr.lstrip_by PyStr.is_space s))
        with (S (String.length s
                 - String.length (PyStr.lstrip_by PyStr.is_space s)))
        by (cbn [String.length]; lia).
      cbn [sub_scan]. rewrite IH1. split; reflexivity.
    + rewrite Nat.sub_diag. cbn [sub_scan]. rewrite Hm, IH0.
      split; reflexivity.
Qed.

Lemma collapse_squeeze (s : string) :
  sub [Plus space] " " s = Spec.squeeze false s.
Proof. apply sub_scan_squeeze. Qed.

Lemma squeeze_single_spaced (b : bool) (s : string) :
  Spec.single_spaced b (Spec.squeeze b s) = true.
Proof.
  revert b; induction s as [|c s IH]; intros b; simpl; auto.
  destruct (PyStr.is_space c) eqn:Ec.
  - destruct b; simpl; auto.
  - simpl. now rewrite Ec.
Qed.

Lemma single_spaced_squeeze (b : bool) (s : string) :
  Spec.single_spaced b s = true -> Spec.squeeze b s = s.
Proof.
  revert b; induction s as [|c s IH]; intros b; simpl; auto.
  destruct (PyStr.is_space c) eqn:Ec.
  - intros H. apply andb_prop in H as [H Hs]. apply andb_prop in H as [Hc Hb].
    apply Ascii.eqb_eq in Hc. subst c. destruct b; [discriminate|].
    now rewrite IH.
  - intros H. now rewrite IH.
Qed.

Lemma single_spaced_relax (s : string) :
  Spec.single_spaced true s = true -> Spec.single_spaced false s = true.
Proof.
  destruct s as [|c s]; simpl; auto.
  destruct (PyStr.is_space c); auto. rewrite andb_false_r. discriminate.
Qed.

Lemma single_spaced_lstrip (b : bool) (s : string) :
  Spec.single_spaced b s = true ->
  Spec.single_spaced false (PyStr.lstrip_by PyStr.is_space s) = true.
Proof.
  revert b; induction s as [|c s IH]; intros b; simpl; auto.
  destruct (PyStr.is_space c) eqn:Ec.
  - intros H. apply andb_prop in H as [_ Hs]. eauto.
  - intros H. simpl. now rewrite Ec.
Qed.

Lemma single_spaced_prefix (b : bool) (a r : string) :
  Spec.single_spaced b (a ++ r) = true -> Spec.single_spaced b a = true.
Proof.
  revert b; induction a as [|c a IH]; intros b; simpl; auto.
  destruct (PyStr.is_space c).
  - intros H. apply andb_prop in H as [H Hs]. rewrite H. simpl. eauto.
  - eauto.
Qed.

(** What [rstrip] removes *)
Lemma rstrip_by_split p (s : string) :
  exists r, s = (PyStr.rstrip_by p s ++ r)%string /\ PyStr.all_chars p r = true.
Proof.
  induction s as [|c s (r & Hs & Hr)]; simpl.
  - now exists "".
  - destruct (PyStr.rstrip_by p s) as [|d t] eqn:E.
    + destruct (p c) eqn:Ec.
      * exists (String c s). split; auto. simpl in Hs. subst r.
        simpl. now rewrite Ec.
      * exists r. simpl in Hs. subst r. simpl. auto.
    + exists r. split; [simpl; f_equal; exact Hs | exact Hr].
Qed.

Lemma rstrip_by_fix p (s : string) :
  PyStr.ends_with p s = false -> PyStr.rstrip_by p s = s.
Proof.
  induction s as [|c s IH]; simpl; auto.
  destruct s as [|d s].
  - intros ->. reflexivity.
  - intros H. now rewrite IH.
Qed.

Lemma lstrip_by_fix p (s : string) :
  match s with EmptyString => true | String c _ => negb (p c) end = true ->
  PyStr.lstrip_by p s = s.
Proof.
  destruct s as [|c s]; simpl; auto. now destruct (p c).
Qed.

Lemma lstrip_by_starts p (s : string) :
  match PyStr.lstrip_by p s with
  | EmptyString => true
  | String c _ => negb (p c)
  end = true.
Proof.
  induction s as [|c s IH]; simpl; auto.
  destruct (p c) eqn:Ec; auto. simpl. now rewrite Ec.
Qed.

Lemma rstrip_by_starts p (s : string) :
  match s with EmptyString => true | String c _ => negb (p c) end = true ->
  match PyStr.rstrip_by p s with
  | EmptyString => true
  | String c _ => negb (p c)
  end = true.
Proof.
  destruct s as [|c s]; simpl; auto. intros H.
  destruct (PyStr.rstrip_by p s); destruct (p c) eqn:E; simpl in *;
    rewrite ?E; auto.
Qed.

Lemma strip_strip (s : string) : PyStr.strip (PyStr.strip s) = PyStr.strip s.
Proof.
  unfold PyStr.strip.
  rewrite (lstrip_by_fix _ (PyStr.rstrip_by _ _)).
  - apply rstrip_by_fix, rstrip_by_ends.
  - apply rstrip_by_starts, lstrip_by_starts.
Qed.

Lemma all_chars_lstrip q p (s : string) :
  PyStr.all_chars q s = true -> PyStr.all_chars q (PyStr.lstrip_by p s) = true.
Proof.
  induction s as [|c s IH]; simpl; auto.
  intros H. destruct (p c); auto.
  apply andb_prop in H as [_ H]. auto.
Qed.

Lemma all_chars_rstrip q p (s : string) :
  PyStr.all_chars q s = true -> PyStr.all_chars q (PyStr.rstrip_by p s) = true.
Proof.
  intros H. destruct (rstrip_by_split p s) as (r & Hs & _).
  rewrite Hs, all_chars_app in H. now apply andb_prop in H as [H _].
Qed.

Lemma all_chars_strip q (s : string) :
  PyStr.all_chars q s = true -> PyStr.all_chars q (PyStr.strip s) = true.
Proof. intros H. now apply all_chars_rstrip, all_chars_lstrip. Qed.

Lemma all_chars_squeeze q (b : bool) (s : string) :
  q " "%char = true ->
  PyStr.all_chars q s = true -> PyStr.all_chars q (Spec.squeeze b s) = true.
Proof.
  intros Hq. revert b; induction s as [|c s IH]; intros b; simpl; auto.
  intros H. apply andb_prop in H as [Hc Hs].
  destruct (PyStr.is_space c); [destruct b|]; simpl;
    rewrite ?Hq, ?Hc, ?IH; auto.
Qed.

Lemma single_spaced_strip (s : string) :
  Spec.single_spaced false s = true ->
  Spec.single_spaced false (PyStr.strip s) = true.
Proof.
  intros H. unfold PyStr.strip.
  destruct (rstrip_by_split PyStr.is_space
                            (PyStr.lstrip_by PyStr.is_space s)) as (r & Hs & _).
  apply single_spaced_lstrip in H. rewrite Hs in H.
  now apply single_spaced_prefix in H.
Qed.

End Whitespace.

(* ================================================================== *)
(** * What the suffix patterns match *)

Section SuffixLanguage.

Import Re Structure.

Lemma lang_eos_inv (t rest : string) :
  lang [Eos] t rest -> rest = t /\ at_end t = true.
Proof.
  intros H. inversion H as [| | | | | | | |pat s r He Hn]; subst.
  inversion Hn; subst. auto.
Qed.

Lemma mem_char_app (c : ascii) (a b : string) :
  PyStr.mem_char c (a ++ b) = (PyStr.mem_char c a || PyStr.mem_char c b)%bool.
Proof.
  induction a as [|d a IH]; simpl; auto. now rewrite IH, orb_assoc.
Qed.

(** What the pattern of all letters dotted matches *)
Lemma lang_all_dotted w pat (t rest : string) :
  lang (Spec.all_dotted w ++ pat) t rest ->
  exists u t', In u (Spec.dot_forms w) /\ t = (u ++ t')%string /\
               lang pat t' rest.
Proof.
  revert t; induction w as [|a w IH]; intros t H; simpl in *.
  - exists "", t. auto.
  - inversion H as [|p pt c s r Hp Hn| | | | | | |]; subst.
    apply Ascii.eqb_eq in Hp. subst c.
    inversion Hn as [| |p pt s0 r Hs|p pt c s0 r Hp Hs| | | | |]; subst.
    + destruct (IH _ Hs) as (u & t' & Hu & -> & Ht).
      exists (String a u), t'. split; [|auto].
      apply in_flat_map. exists u. simpl. auto.
    + apply Ascii.eqb_eq in Hp. subst c.
      destruct (IH _ Hs) as (u & t' & Hu & -> & Ht).
      exists (String a (String "." u)), t'. split; [|auto].
      apply in_flat_map. exists u. simpl. auto.
Qed.

(** The shape of the rules of the table *)
Lemma rule_at (k : nat) (rule : pattern * string) :
  nth_error suffixes k = Some rule ->
  exists body w,
    nth_error Spec.suffix_words k = Some w /\
    fst rule = sep ++ body ++ [Eos] /\
    Spec.dotted body w /\
    snd rule = (" " ++ w)%string /\
    search (fst rule) w = true.
Proof.
  intros H.
  exists (removelast (skipn 3 (fst rule))).
  do 8 (destruct k as [|k];
        [injection H as <-; eexists;
         split; [reflexivity|]; split; [reflexivity|];
         split; [simpl; repeat constructor|]; split; reflexivity|]).
  destruct k; discriminate.
Qed.

Lemma at_end_no_newline (a rest : string) :
  at_end rest = true -> PyStr.ends_with_newline (a ++ rest) = false ->
  rest = "".
Proof.
  intros He Hnl. destruct rest as [|d [|e rest]]; auto; [|discriminate].
  simpl in He. apply Ascii.eqb_eq in He. subst d.
  unfold PyStr.ends_with_newline in Hnl.
  rewrite ends_with_app in Hnl by discriminate. discriminate.
Qed.

End SuffixLanguage.

(* ================================================================== *)
(** * One pass of the suffix table *)

Section OnePass.

Import Re Structure.

Lemma firstn_beyond {T} (i : nat) (l : list T) :
  nth_error l i = None -> firstn (S i) l = firstn i l.
Proof.
  intros H. apply nth_error_None in H.
  rewrite !firstn_all2; auto.
Qed.

Lemma run_rules_step (i : nat) (rule : pattern * string) (z : string) :
  nth_error suffixes i = Some rule ->
  Spec.run_rules (S i) z = apply_rule (Spec.run_rules i z) rule.
Proof.
  intros Hi. unfold Spec.run_rules. rewrite (firstn_snoc _ _ _ Hi).
  now rewrite fold_left_app.
Qed.

Lemma run_rules_no_newline (i : nat) (z : string) :
  PyStr.ends_with_newline z = false ->
  PyStr.ends_with_newline (Spec.run_rules i z) = false.
Proof. apply fold_rules_no_newline, firstn_incl. Qed.

Lemma run_rules_all (z : string) : Spec.run_rules 8 z = apply_suffixes z.
Proof. reflexivity. Qed.

(** After the first [i] rules either none has matched, or the string ends
    with the replacement of the last rule that has, and no rule after that
    one matches it. *)
Lemma pass_outcome (i : nat) (z : string) :
  PyStr.ends_with_newline z = false ->
  (Spec.run_rules i z = z /\
   forall k rule, k < i -> nth_error suffixes k = Some rule ->
                  search (fst rule) z = false) \/
  (exists j rule pre,
      j < i /\ nth_error suffixes j = Some rule /\
      Spec.run_rules i z = (pre ++ snd rule)%string /\
      search (fst rule) (Spec.run_rules j z) = true /\
      forall k rule', j < k -> k < i -> nth_error suffixes k = Some rule' ->
                      search (fst rule') (Spec.run_rules i z) = false).
Proof.
  intros Hnl. induction i as [|i IH].
  - left. split; [reflexivity|]. intros k rule Hk. lia.
  - destruct (nth_error suffixes i) as [rule|] eqn:Hi.
    + rewrite (run_rules_step _ _ _ Hi).
      pose proof (run_rules_no_newline i z Hnl) as Hnl'.
      destruct (apply_rule_suffix rule (Spec.run_rules i z)
                                  (nth_error_In _ _ Hi) Hnl')
        as [[Hq Hsame]|[Hs (pre & suf & Hsplit & _ & _ & Hout)]].
      * rewrite Hsame.
        destruct IH as [[Hz Hall]|(j & rj & pre & Hj & Hrj & Hout & Hs & Hlater)].
        -- left. split; auto. intros k r Hk Hr.
           destruct (Nat.eq_dec k i) as [->|Hne].
           ++ rewrite Hr in Hi. injection Hi as ->. now rewrite <- Hz.
           ++ apply (Hall k); auto. lia.
        -- right. exists j, rj, pre. repeat split; auto.
           intros k r Hjk Hk Hr.
           destruct (Nat.eq_dec k i) as [->|Hne].
           ++ rewrite Hr in Hi. now injection Hi as ->.
           ++ apply (Hlater k); auto. lia.
      * right. exists i, rule, pre. repeat split; auto.
        intros k r Hik Hk. lia.
    + unfold Spec.run_rules in *. rewrite (firstn_beyond _ _ Hi).
      destruct IH as [[Hz Hall]|(j & rj & pre & Hj & Hrj & Hout & Hs & Hlater)].
      * left. split; auto. intros k r Hk Hr.
        destruct (Nat.eq_dec k i) as [->|Hne]; [congruence|].
        apply (Hall k); auto. lia.
      * right. exists j, rj, pre. repeat split; auto.
        intros k r Hjk Hk Hr.
        destruct (Nat.eq_dec k i) as [->|Hne]; [congruence|].
        apply (Hlater k); auto. lia.
Qed.

(** The PLLC rule never matches what the seven rules before it leave: an
    LLC would have been rewritten by the first rule. *)
Lemma pllc_rule_never_matches (z : string) (rule : pattern * string) :
  PyStr.ends_with_newline z = false ->
  nth_error suffixes 7 = Some rule ->
  search (fst rule) (Spec.run_rules 7 z) = false.
Proof.
  intros Hnl Hrule.
  destruct (search (fst rule) (Spec.run_rules 7 z)) eqn:Hs; [|reflexivity].
  exfalso.
  pose proof (run_rules_no_newline 7 z Hnl) as Hnl7.
  apply search_split in Hs as (a & b & Hab & [[segs rest] Hm]).
  apply match_items_lang in Hm. injection Hrule as <-.
  change (fst _) with (sep ++ Spec.all_dotted "pllc" ++ [Eos]) in Hm.
  apply lang_app_inv in Hm as (m & t' & -> & Hm).
  apply lang_all_dotted in Hm as (u & t'' & Hu & -> & Hm).
  apply lang_eos_inv in Hm as [_ He].
  rewrite Hab in Hnl7.
  assert (t'' = "") as ->.
  { apply (at_end_no_newline (a ++ m ++ u)); auto.
    now rewrite !append_assoc. }
  rewrite append_empty_r in Hab.
  destruct (pass_outcome 7 z Hnl)
    as [[Hz Hall]|(j & rj & pre & Hj & Hrj & Hout & _)].
  - destruct (nth_error suffixes 0) as [r0|] eqn:H0; [|discriminate].
    assert (Hq : search (fst r0) z = false) by (apply (Hall 0); auto; lia).
    rewrite <- Hz, Hab, <- append_assoc in Hq.
    assert (Hin : forallb (fun u => search (fst r0) u) (Spec.dot_forms "pllc")
                  = true)
      by (injection H0 as <-; vm_compute; reflexivity).
    rewrite forallb_forall in Hin.
    rewrite (search_app _ _ _ (Hin u Hu)) in Hq. discriminate.
  - rewrite Hab, <- append_assoc in Hout.
    apply tails_comparable in Hout.
    assert (Hin : forallb
                    (fun r => forallb
                                (fun u => negb (PyStr.is_suffix u (snd r))
                                          && negb (PyStr.is_suffix (snd r) u))
                                (Spec.dot_forms "pllc"))
                    (firstn 7 suffixes) = true)
      by (vm_compute; reflexivity).
    rewrite forallb_forall in Hin.
    assert (Hrj' : In rj (firstn 7 suffixes)).
    { do 7 (destruct j as [|j]; [injection Hrj as <-; simpl; tauto|]). lia. }
    specialize (Hin rj Hrj'). rewrite forallb_forall in Hin.
    specialize (Hin u Hu). apply andb_prop in Hin as [H1 H2].
    apply negb_true_iff in H1, H2. destruct Hout; congruence.
Qed.

(** After the whole table either no rule has matched, or the name ends
    with a space and the letters of a rule that is neither LLP, which the
    LP rule rewrites, nor PLLC, which never matches. *)
Lemma table_outcome (z : string) :
  PyStr.ends_with_newline z = false ->
  (apply_suffixes z = z /\
   forall rule, In rule suffixes -> search (fst rule) z = false) \/
  (exists j rule w pre,
      In j [0; 1; 2; 4; 5; 6] /\
      nth_error suffixes j = Some rule /\
      nth_error Spec.suffix_words j = Some w /\
      apply_suffixes z = (pre ++ " " ++ w)%string).
Proof.
  intros Hnl. rewrite <- run_rules_all.
  destruct (pass_outcome 8 z Hnl)
    as [[Hz Hall]|(j & rj & pre & Hj & Hrj & Hout & Hs & Hlater)].
  - left. split; auto. intros rule Hin.
    apply In_nth_error in Hin as [k Hk].
    apply (Hall k); auto.
    assert (Hlt : k < List.length suffixes)
      by (apply nth_error_Some; congruence).
    exact Hlt.
  - right. destruct (rule_at j rj Hrj) as (body & w & Hw & _ & _ & Hrepl & _).
    exists j, rj, w, pre. rewrite Hout, Hrepl.
    repeat split; auto.
    do 3 (destruct j as [|j]; [simpl; tauto|]).
    destruct j as [|j].
    { exfalso. injection Hw as <-. injection Hrj as <-.
      destruct (nth_error suffixes 4) as [r4|] eqn:H4; [|discriminate].
      assert (Hq : search (fst r4) (Spec.run_rules 8 z) = false)
        by (apply (Hlater 4); auto; lia).
      rewrite Hout in Hq. simpl snd in Hq.
      change " llp" with (" l" ++ "lp")%string in Hq.
      rewrite <- append_assoc in Hq.
      rewrite search_app in Hq; [discriminate|].
      injection H4 as <-. reflexivity. }
    do 3 (destruct j as [|j]; [simpl; tauto|]).
    destruct j as [|j]; [|lia].
    exfalso. rewrite (pllc_rule_never_matches z rj Hnl Hrj) in Hs.
    discriminate.
Qed.

End OnePass.

(* ================================================================== *)
(** * Lowercase, squeezed and stripped strings *)

Section Canonical.

Import Structure.

Lemma lower_char_idem (c : ascii) :
  PyStr.lower_char (PyStr.lower_char c) = PyStr.lower_char c.
Proof. destruct c as [[] [] [] [] [] [] [] []]; reflexivity. Qed.

Lemma lower_is_lower (s : string) :
  PyStr.all_chars PyStr.is_lower (PyStr.lower s) = true.
Proof.
  induction s as [|c s IH]; simpl; auto.
  unfold PyStr.is_lower at 1. now rewrite lower_char_idem, Ascii.eqb_refl.
Qed.

Lemma lower_fix (s : string) :
  PyStr.all_chars PyStr.is_lower s = true -> PyStr.lower s = s.
Proof.
  induction s as [|c s IH]; simpl; auto.
  intros H. apply andb_prop in H as [Hc Hs].
  apply Ascii.eqb_eq in Hc. now rewrite Hc, IH.
Qed.

(** A rule only adds the characters of its replacement. *)
Lemma apply_rule_all_chars q (rule : Re.pattern * string) (s : string) :
  In rule suffixes ->
  PyStr.ends_with_newline s = false ->
  PyStr.all_chars q (snd rule) = true ->
  PyStr.all_chars q s = true ->
  PyStr.all_chars q (apply_rule s rule) = true.
Proof.
  intros Hin Hnl Hrepl Hs.
  destruct (apply_rule_suffix rule s Hin Hnl)
    as [[_ ->]|[_ (pre & suf & -> & _ & _ & ->)]]; auto.
  rewrite all_chars_app in *. apply andb_prop in Hs as [-> _]. auto.
Qed.

Lemma fold_rules_all_chars q (rules : list (Re.pattern * string))
      (s : string) :
  incl rules suffixes ->
  (forall r, In r rules -> PyStr.all_chars q (snd r) = true) ->
  PyStr.ends_with_newline s = false ->
  PyStr.all_chars q s = true ->
  PyStr.all_chars q (fold_left apply_rule rules s) = true.
Proof.
  revert s; induction rules as [|rule rules IH]; intros s Hincl Hq Hnl Hs; auto.
  simpl. apply IH.
  - intros r Hr. apply Hincl. now right.
  - intros r Hr. apply Hq. now right.
  - apply apply_rule_no_newline; auto. apply Hincl. now left.
  - apply apply_rule_all_chars; auto; [apply Hincl | apply Hq]; now left.
Qed.

Lemma apply_suffixes_all_chars q (s : string) :
  forallb (fun rule => PyStr.all_chars q (snd rule)) suffixes = true ->
  PyStr.ends_with_newline s = false ->
  PyStr.all_chars q s = true ->
  PyStr.all_chars q (apply_suffixes s) = true.
Proof.
  intros Hq. rewrite forallb_forall in Hq.
  apply fold_rules_all_chars; auto. apply incl_refl.
Qed.

Lemma squeeze_word (b : bool) (w : string) :
  PyStr.all_chars (fun c => negb (PyStr.is_space c)) w = true ->
  Spec.squeeze b w = w.
Proof.
  revert b; induction w as [|c w IH]; intros b; simpl; auto.
  intros H. apply andb_prop in H as [Hc Hw].
  apply negb_true_iff in Hc. now rewrite Hc, IH.
Qed.

Lemma squeeze_app_word (b : bool) (a w : string) :
  PyStr.all_chars (fun c => negb (PyStr.is_space c)) w = true ->
  Spec.squeeze b (a ++ w) = (Spec.squeeze b a ++ w)%string.
Proof.
  intros Hw. revert b; induction a as [|c a IH]; intros b; simpl.
  - now apply squeeze_word.
  - destruct (PyStr.is_space c); [destruct b|]; simpl; now rewrite IH.
Qed.

(** A squeezed string that ends with a space of the source ends with a
    space, unless it is all whitespace after whitespace. *)
Lemma squeeze_snoc_space (b : bool) (a : string) :
  PyStr.ends_with (fun c => Ascii.eqb c " ") (Spec.squeeze b (a ++ " ")) = true
  \/ (b = true /\ Spec.squeeze b (a ++ " ") = "").
Proof.
  revert b; induction a as [|c a IH]; intros b.
  - destruct b; simpl; auto.
  - simpl. destruct (PyStr.is_space c).
    + destruct b; [apply IH|].
      destruct (IH true) as [H|[_ H]].
      * left. destruct (Spec.squeeze true (a ++ " ")); [discriminate|].
        exact H.
      * left. now rewrite H.
    + destruct (IH false) as [H|[H _]]; [|discriminate].
      left. destruct (Spec.squeeze false (a ++ " ")); [discriminate|].
      exact H.
Qed.

Lemma ends_with_split p (s : string) :
  PyStr.ends_with p s = true ->
  exists a c, s = (a ++ String c "")%string /\ p c = true.
Proof.
  induction s as [|c s IH]; simpl; [discriminate|].
  destruct s as [|d s].
  - intros H. now exists "", c.
  - intros H. destruct (IH H) as (a & e & -> & He).
    exists (String c a), e. auto.
Qed.

Lemma lstrip_app p (a b : string) :
  PyStr.lstrip_by p (a ++ b) =
  if PyStr.all_chars p a then PyStr.lstrip_by p b
  else (PyStr.lstrip_by p a ++ b)%string.
Proof.
  induction a as [|c a IH]; simpl; auto.
  destruct (p c); simpl; auto.
Qed.

Lemma single_spaced_no_double (b : bool) (a r : string) :
  Spec.single_spaced b (a ++ String " " r) = true ->
  PyStr.ends_with PyStr.is_space a = false.
Proof.
  revert b; induction a as [|c a IH]; intros b; auto.
  destruct a as [|d a].
  - cbn [append Spec.single_spaced PyStr.ends_with].
    destruct (PyStr.is_space c); auto.
    intros H. apply andb_prop in H as [_ H]. simpl in H. discriminate.
  - intros H. rewrite ends_with_cons.
    change (String c (String d a) ++ String " " r)%string
      with (String c (String d a ++ String " " r)) in H.
    cbn [Spec.single_spaced] in H.
    destruct (PyStr.is_space c).
    + apply andb_prop in H as [_ H]. eauto.
    + eauto.
Qed.

End Canonical.

(* ================================================================== *)
(** * A second pass over a normalized name *)

Section SecondPass.

Import Re Structure.

Lemma fold_fixed {A B} (f : A -> B -> A) (l : list B) (y : A) :
  (forall r, In r l -> f y r = y) -> fold_left f l y = y.
Proof.
  induction l as [|r l IH]; intros H; simpl; auto.
  rewrite (H r) by now left. apply IH. intros r' Hr'. apply H. now right.
Qed.

Lemma rule_quiet_unchanged (rule : pattern * string) (y : string) :
  In rule suffixes ->
  PyStr.ends_with_newline y = false ->
  search (fst rule) y = false -> apply_rule y rule = y.
Proof.
  intros Hin Hnl Hq.
  destruct (apply_rule_suffix rule y Hin Hnl) as [[_ H]|[H _]];
    [exact H | congruence].
Qed.

Lemma append_inv_r (a b w : string) :
  (a ++ w)%string = (b ++ w)%string -> a = b.
Proof.
  revert b; induction a as [|c a IH]; intros [|d b] H; auto.
  - apply (f_equal String.length) in H. simpl in H.
    rewrite append_length in H. lia.
  - apply (f_equal String.length) in H. simpl in H.
    rewrite append_length in H. lia.
  - simpl in H. injection H as -> H. f_equal. auto.
Qed.

Lemma all_chars_ends p (a b : string) :
  PyStr.all_chars p b = true -> b <> "" ->
  PyStr.ends_with p (a ++ b) = true.
Proof.
  intros Hb Hne. rewrite ends_with_app by auto. clear a.
  induction b as [|c b IH]; [congruence|].
  simpl in Hb. apply andb_prop in Hb as [Hc Hb].
  destruct b as [|d b]; [exact Hc|].
  rewrite ends_with_cons. apply IH; auto. discriminate.
Qed.

(** What the squeezed and stripped name looks like when the table has
    left [pre ++ " " ++ w]. *)
Lemma collapsed_shape (pre w : string) :
  PyStr.all_chars (fun c => negb (PyStr.is_space c)) w = true ->
  w <> "" ->
  let y := PyStr.strip (Spec.squeeze false (pre ++ " " ++ w)) in
  y = w \/
  exists y0, y = (y0 ++ " " ++ w)%string /\
             PyStr.ends_with PyStr.is_space y0 = false.
Proof.
  intros Hletters Hne y.
  assert (Hss : Spec.single_spaced false y = true)
    by apply single_spaced_strip, squeeze_single_spaced.
  assert (Hwend : PyStr.ends_with PyStr.is_space w = false).
  { clear - Hletters Hne. induction w as [|c w IH]; [congruence|].
    simpl in Hletters. apply andb_prop in Hletters as [Hc Hw].
    destruct w as [|d w]; [simpl; now apply negb_true_iff|].
    rewrite ends_with_cons. apply IH; auto. discriminate. }
  assert (Hwstart : PyStr.lstrip_by PyStr.is_space w = w).
  { destruct w as [|c w]; auto. simpl in *.
    apply andb_prop in Hletters as [Hc _]. apply negb_true_iff in Hc.
    now rewrite Hc. }
  unfold y in *. clear y.
  rewrite <- append_assoc, squeeze_app_word in * by auto.
  destruct (squeeze_snoc_space false pre) as [He|[He _]]; [|discriminate].
  apply ends_with_split in He as (q0 & c & Hq & Hc).
  apply Ascii.eqb_eq in Hc. subst c. rewrite Hq in *.
  unfold PyStr.strip in *. rewrite lstrip_app in *.
  destruct (PyStr.all_chars PyStr.is_space (q0 ++ " ")) eqn:Hall.
  - left. rewrite Hwstart. now apply rstrip_by_fix.
  - right. rewrite lstrip_app in *.
    rewrite all_chars_app in Hall. simpl in Hall. rewrite andb_true_r in Hall.
    rewrite Hall in *.
    rewrite rstrip_by_fix in *
      by (rewrite ends_with_app; auto).
    exists (PyStr.lstrip_by PyStr.is_space q0).
    rewrite append_assoc in *. split; auto.
    eapply single_spaced_no_double. exact Hss.
Qed.

End SecondPass.

(* ================================================================== *)
(** * Stable sorting *)

Section SortedFacts.

Context {A : Type} (le : A -> A -> bool).

(** Elements that the order does not tell apart keep their places. *)
Lemma sort_by_stable (p : A -> bool) (l : list A) :
  (forall a b, p a = true -> p b = true -> le a b = true) ->
  filter p (Py.sort_by le l) = filter p l.
Proof.
  intros Hp.
  assert (Hins : forall x l, filter p (Py.insert_by le x l) = filter p (x :: l)).
  { intros x l0; induction l0 as [|y t IH]; [reflexivity|].
    cbn [Py.insert_by]. destruct (le x y) eqn:E; [reflexivity|].
    cbn [filter] in *. rewrite IH.
    destruct (p x) eqn:Px, (p y) eqn:Py; try reflexivity.
    rewrite (Hp x y Px Py) in E; discriminate. }
  induction l as [|x t IH]; [reflexivity|].
  cbn [Py.sort_by]. rewrite Hins. cbn [filter]. now rewrite IH.
Qed.

Hypothesis le_total : forall a b, le a b = true \/ le b a = true.
Hypothesis le_trans :
  forall a b c, le a b = true -> le b c = true -> le a c = true.

Lemma insert_by_sorted (x : A) (l : list A) :
  StronglySorted (fun a b => le a b = true) l ->
  StronglySorted (fun a b => le a b = true) (Py.insert_by le x l).
Proof.
  induction 1 as [|y t Ht IH Hy]; cbn [Py.insert_by].
  - constructor; constructor.
  - destruct (le x y) eqn:E.
    + constructor; [constructor; assumption|].
      constructor; [assumption|].
      rewrite Forall_forall in *; intros z Hz. eapply le_trans; eauto.
    + constructor; [assumption|].
      rewrite Forall_forall in *; intros z Hz.
      apply (Permutation_in _ (insert_by_perm le x t)) in Hz.
      destruct Hz as [<-|Hz]; auto.
      destruct (le_total x y); congruence.
Qed.

Lemma sort_by_sorted (l : list A) :
  StronglySorted (fun a b => le a b = true) (Py.sort_by le l).
Proof.
  induction l as [|x t IH]; cbn [Py.sort_by]; [constructor|].
  now apply insert_by_sorted.
Qed.

End SortedFacts.

(* ================================================================== *)
(** * src/filter.py: [filter_filings] *)

Section FilterFilings.

Import Filter.

Lemma sift_fold (input : list Ecfs.filing) kept0 dropped0 counts0 :
  fold_left sift input (kept0, dropped0, counts0) =
  (kept0 ++ filter is_ipes_filing input,
   dropped0 + List.length (filter (fun f => negb (is_ipes_filing f)) input),
   fold_left bump (map type_of (filter is_ipes_filing input)) counts0).
Proof.
  revert kept0 dropped0 counts0; induction input as [|f t IH]; intros.
  - cbn. now rewrite app_nil_r, Nat.add_0_r.
  - cbn [fold_left sift filter]. destruct (is_ipes_filing f); cbn [negb].
    + rewrite IH. cbn [map fold_left List.length].
      now rewrite <- app_assoc.
    + rewrite IH. cbn [List.length]. f_equal. f_equal. lia.
Qed.

Lemma bump_counts (types : list string) (counts0 : Py.dict nat) :
  NoDup (map fst counts0) ->
  let counts := fold_left bump types counts0 in
  NoDup (map fst counts) /\
  (forall t, Py.get_or (Py.dict_get t counts) 0
             = Py.get_or (Py.dict_get t counts0) 0
               + count_occ string_dec types t) /\
  (forall t, Py.dict_get t counts = None <->
             Py.dict_get t counts0 = None /\ ~ In t types) /\
  list_sum (map snd counts) = list_sum (map snd counts0) + List.length types.
Proof.
  revert counts0; induction types as [|st types IH]; intros counts0 Hnd.
  - cbn. repeat split; auto; try tauto; try lia.
  - cbn [fold_left].
    assert (Hnd' : NoDup (map fst (bump counts0 st)))
      by (apply dict_set_NoDup; assumption).
    destruct (IH _ Hnd') as (H1 & H2 & H3 & H4). cbn zeta.
    split; [assumption|]. split; [|split].
    + intros t. rewrite H2. unfold bump at 1.
      cbn [count_occ]. destruct (string_dec st t) as [<-|Hne].
      * rewrite dict_get_set_same. cbn [Py.get_or]. lia.
      * rewrite dict_get_set_other by congruence. lia.
    + intros t. rewrite H3. unfold bump.
      destruct (string_dec st t) as [<-|Hne].
      * rewrite dict_get_set_same. split; [intros [? _]; discriminate|].
        intros [_ Hn]; exfalso; apply Hn; now left.
      * rewrite dict_get_set_other by congruence. cbn [In]. tauto.
    + rewrite H4. cbn [List.length]. unfold bump.
      assert (Hsum : forall (d : Py.dict nat) k v,
                 list_sum (map snd (Py.dict_set k v d)) + Py.get_or (Py.dict_get k d) 0
                 = list_sum (map snd d) + v).
      { induction d as [|[k' v'] d IHd]; intros k v;
          cbn [Py.dict_set Py.dict_get].
        - cbn. lia.
        - destruct (String.eqb k' k) eqn:E;
            cbn [map snd list_sum fold_right Py.get_or]; [lia|].
          specialize (IHd k v). unfold list_sum in IHd. lia. }
      specialize (Hsum counts0 st (Py.get_or (Py.dict_get st counts0) 0 + 1)).
      lia.
Qed.

End FilterFilings.

Section FilterTheorems.

Import Filter.

(** [filter_filings] without its loop *)
Lemma filter_filings_unfold (input : list Ecfs.filing) :
  filter_filings input =
  let kept := filter is_ipes_filing input in
  let dropped :=
    List.length (filter (fun f => negb (is_ipes_filing f)) input) in
  (kept,
   {| total_input := List.length kept + dropped;
      kept := List.length kept;
      dropped := dropped;
      by_submission_type :=
        Py.sort_by more_first (fold_left bump (map type_of kept) []) |}).
Proof.
  unfold filter_filings. rewrite sift_fold. reflexivity.
Qed.

Lemma filter_idem {T} (p : T -> bool) (l : list T) :
  filter p (filter p l) = filter p l /\
  filter (fun x => negb (p x)) (filter p l) = [].
Proof.
  induction l as [|x l [IH1 IH2]]; [split; reflexivity|].
  cbn [filter]. destruct (p x) eqn:E; [|split; assumption].
  cbn [filter]. rewrite E. cbn [negb]. split; [now rewrite IH1 | assumption].
Qed.

Lemma count_occ_map_filter {T} (f : T -> string) (l : list T) (t : string) :
  count_occ string_dec (map f l) t
  = List.length (filter (fun x => String.eqb (f x) t) l).
Proof.
  induction l as [|x l IH]; [reflexivity|].
  cbn [map count_occ filter].
  destruct (string_dec (f x) t) as [E|E].
  - rewrite E, String.eqb_refl. cbn [List.length]. now rewrite IH.
  - apply String.eqb_neq in E. now rewrite E.
Qed.

Lemma more_first_total (x y : string * nat) :
  more_first x y = true \/ more_first y x = true.
Proof. unfold more_first. rewrite !Nat.leb_le. lia. Qed.

Lemma more_first_trans (x y z : string * nat) :
  more_first x y = true -> more_first y z = true -> more_first x z = true.
Proof. unfold more_first. rewrite !Nat.leb_le. lia. Qed.

End FilterTheorems.

(** X1. [filter_filings] writes the filings that pass
    [is_ipes_filing], all of them and in the order of the input, and
    counts the others as dropped; the counters of its statistics add up:
    kept plus dropped is total_input, the number of filings read. *)
Theorem filter_filings_partition (input : list Ecfs.filing) :
  let r := Filter.filter_filings input in
  fst r = filter Filter.is_ipes_filing input /\
  Filter.kept (snd r) = List.length (fst r) /\
  Filter.dropped (snd r)
  = List.length (filter (fun f => negb (Filter.is_ipes_filing f)) input) /\
  Filter.total_input (snd r) = List.length input /\
  Filter.kept (snd r) + Filter.dropped (snd r) = Filter.total_input (snd r).
Proof.
  cbn zeta. rewrite filter_filings_unfold. cbn [fst snd Filter.kept
    Filter.dropped Filter.total_input].
  repeat split; try reflexivity.
  symmetry. apply filter_split_length.
Qed.

(** X2. The by_submission_type table of [filter_filings]
    has one entry for each submission type that occurs among the kept
    filings (UNKNOWN standing for a missing type), with the number of kept
    filings of that type; no entry is 0, the entries sum to kept, and they
    are listed by decreasing count. *)
Theorem filter_filings_by_type (input : list Ecfs.filing) :
  let r := Filter.filter_filings input in
  let counts := Filter.by_submission_type (snd r) in
  let count t :=
    List.length
      (filter (fun f => String.eqb (Filter.type_of f) t) (fst r)) in
  NoDup (map fst counts) /\
  (forall t n, In (t, n) counts <-> n = count t /\ 0 < n) /\
  StronglySorted (fun x y => snd y <= snd x) counts /\
  list_sum (map snd counts) = Filter.kept (snd r).
Proof.
  cbn zeta. rewrite filter_filings_unfold.
  cbn [fst snd Filter.kept Filter.by_submission_type].
  set (kept := filter Filter.is_ipes_filing input).
  set (table := fold_left Filter.bump (map Filter.type_of kept) []).
  destruct (bump_counts (map Filter.type_of kept) [] (NoDup_nil _))
    as (Hnd & Hget & Hnone & Hsum).
  fold table in Hnd, Hget, Hnone, Hsum.
  pose proof (sort_by_perm Filter.more_first table) as Hperm.
  assert (Hnd' : NoDup (map fst (Py.sort_by Filter.more_first table))).
  { eapply Permutation_NoDup; [|exact Hnd].
    apply Permutation_map, Permutation_sym, Hperm. }
  split; [exact Hnd'|]. split; [|split].
  - intros t n. rewrite sort_by_In.
    specialize (Hget t). specialize (Hnone t).
    rewrite count_occ_map_filter in Hget. cbn [Py.dict_get Py.get_or] in Hget.
    split.
    + intros Hin. apply dict_In_get in Hin; [|exact Hnd].
      rewrite Hin in Hget. cbn [Py.get_or] in Hget.
      split; [lia|].
      destruct (Nat.eq_dec n 0) as [->|]; [|lia].
      exfalso.
      assert (Hno : ~ In t (map Filter.type_of kept)).
      { intros Hi. apply (count_occ_In string_dec) in Hi.
        rewrite count_occ_map_filter in Hi. lia. }
      assert (Py.dict_get t table = None) by (apply Hnone; split; auto).
      congruence.
    + intros [-> Hpos].
      destruct (Py.dict_get t table) as [m|] eqn:E.
      * cbn [Py.get_or] in Hget. subst m. apply dict_get_In, E.
      * cbn [Py.get_or] in Hget. lia.
  - pose proof (sort_by_sorted Filter.more_first more_first_total
                               more_first_trans table) as Hs.
    clear - Hs. induction Hs as [|x l Hl IH Hx]; constructor; auto.
    eapply Forall_impl; [|exact Hx].
    intros y. unfold Filter.more_first. now rewrite Nat.leb_le.
  - rewrite (Permutation_list_sum
               (Permutation_map snd Hperm)).
    rewrite Hsum. cbn. now rewrite length_map.
Qed.

(** X3. [filter_filings] run on its own output keeps every
    filing, in the same order, drops none, and reports the same
    by_submission_type table. *)
Theorem filter_filings_rerun (input : list Ecfs.filing) :
  let first := Filter.filter_filings input in
  let second := Filter.filter_filings (fst first) in
  fst second = fst first /\
  Filter.dropped (snd second) = 0 /\
  Filter.kept (snd second) = Filter.kept (snd first) /\
  Filter.total_input (snd second) = Filter.kept (snd first) /\
  Filter.by_submission_type (snd second)
  = Filter.by_submission_type (snd first).
Proof.
  cbn zeta. rewrite !filter_filings_unfold.
  cbn [fst snd Filter.kept Filter.dropped Filter.total_input
       Filter.by_submission_type].
  destruct (filter_idem Filter.is_ipes_filing input) as [-> ->].
  cbn [List.length]. repeat split; try reflexivity. lia.
Qed.

(* ================================================================== *)
(** * src/extract.py: [fetch_page] and [fetch_all_filings] *)

(** X4. [fetch_page] sends at most three requests. It retries
    only after a RequestException, sleeping 1 second after the first and 2
    seconds after the second, and returns the first response that decodes;
    the third RequestException in a row, and any other exception at once,
    is raised. It never ends by returning None. *)
Theorem fetch_page_retries (get : nat -> Extract.reply) :
  exists k,
    k < 3 /\
    (forall i, i < k -> get i = Extract.RequestException) /\
    (get k <> Extract.RequestException \/ k = 2) /\
    Extract.fetch_page get =
    (firstn k [1; 2],
     match get k with
     | Extract.Json data => Py.Returns (Some data)
     | _ => Py.Raises
     end).
Proof.
  unfold Extract.fetch_page. cbn [seq Extract.fetch_attempts].
  assert (H0 : forall i, i < 0 -> get i = Extract.RequestException)
    by (intros i Hi; lia).
  destruct (get 0) eqn:E0.
  - exists 0. rewrite E0.
    split; [lia|]. split; [exact H0|]. split; [left; congruence|reflexivity].
  - assert (H1 : forall i, i < 1 -> get i = Extract.RequestException)
      by (intros i Hi; assert (i = 0) as -> by lia; exact E0).
    cbn [Nat.ltb Nat.leb]. destruct (get 1) eqn:E1.
    + exists 1. rewrite E1.
      split; [lia|]. split; [exact H1|].
      split; [left; congruence|reflexivity].
    + cbn [Nat.ltb Nat.leb]. exists 2.
      split; [lia|]. split; [|split; [now right|]].
      * intros i Hi. assert (i = 0 \/ i = 1) as [-> | ->] by lia; assumption.
      * destruct (get 2) eqn:E2; reflexivity.
    + exists 1. rewrite E1.
      split; [lia|]. split; [exact H1|].
      split; [left; congruence|reflexivity].
  - exists 0. rewrite E0.
    split; [lia|]. split; [exact H0|]. split; [left; congruence|reflexivity].
Qed.

Section Pagination.

Import Extract.

Variable fetch_page : nat -> option page.

Lemma batch_at_empty (i : nat) :
  Spec.batch_at fetch_page i = [] <->
  fetch_page (i * LIMIT) = None \/
  exists data, fetch_page (i * LIMIT) = Some data /\
               (batch_of data = None \/ batch_of data = Some []).
Proof.
  unfold Spec.batch_at. destruct (fetch_page (i * LIMIT)) as [data|].
  - destruct (batch_of data) as [[|f l]|] eqn:E; cbn [Py.get_or].
    + split; auto. intros _. right. exists data. auto.
    + split; [discriminate|].
      intros [H|(d & [= <-] & [H|H])]; congruence.
    + split; auto. intros _. right. exists data. auto.
  - split; auto.
Qed.

(** The loop from the page number [i] on *)
Lemma fetch_loop_pages (turns i : nat) (acc : list Ecfs.filing) :
  i <= 200 -> 201 <= i + turns ->
  exists n,
    i <= n <= 201 /\
    (forall j, i <= j < n -> Spec.batch_at fetch_page j <> []) /\
    (n < 201 -> Spec.batch_at fetch_page n = []) /\
    fst (fetch_loop fetch_page turns acc (i * LIMIT))
    = map (fun j => j * LIMIT) (seq i (Nat.min (S n) 201 - i)) /\
    snd (fetch_loop fetch_page turns acc (i * LIMIT))
    = Some (match fetch_page (n * LIMIT) with
            | None => if Nat.ltb n 201 then Py.Raises
                      else Py.Returns
                             (acc ++ flat_map (Spec.batch_at fetch_page)
                                              (seq i (n - i)))
            | Some _ =>
                Py.Returns (acc ++ flat_map (Spec.batch_at fetch_page)
                                            (seq i (n - i)))
            end).
Proof.
  revert i acc; induction turns as [|turns IH]; intros i acc Hi Hturns;
    [lia|].
  cbn [fetch_loop].
  pose proof (batch_at_empty i) as Hempty.
  unfold Spec.batch_at in Hempty.
  destruct (fetch_page (i * LIMIT)) as [data|] eqn:Ef.
  - destruct (batch_of data) as [[|f batch]|] eqn:Eb.
    + (* an empty batch *)
      exists i. cbn [fst snd]. rewrite Ef.
      replace (Nat.min (S i) 201 - i) with 1 by lia.
      replace (i - i) with 0 by lia. cbn [seq map flat_map].
      rewrite app_nil_r. repeat split; try lia.
      * intros _. unfold Spec.batch_at. now rewrite Ef, Eb.
    + (* a batch with filings *)
      assert (Hne : Spec.batch_at fetch_page i <> [])
        by (unfold Spec.batch_at; rewrite Ef, Eb; discriminate).
      assert (Hb : Spec.batch_at fetch_page i = f :: batch)
        by (unfold Spec.batch_at; now rewrite Ef, Eb).
      cbn zeta.
      replace (i * LIMIT + LIMIT) with (S i * LIMIT) by (unfold LIMIT; lia).
      destruct (Nat.ltb 5000 (S i * LIMIT)) eqn:Elim.
      * apply Nat.ltb_lt in Elim. unfold LIMIT in Elim.
        assert (i = 200) as -> by lia.
        exists 201. cbn [fst snd].
        replace (Nat.min 202 201 - 200) with 1 by reflexivity.
        replace (201 - 200) with 1 by reflexivity.
        cbn [seq map flat_map]. rewrite Hb, app_nil_r.
        repeat split; try lia.
        -- intros j Hj. assert (j = 200) as -> by lia. exact Hne.
        -- destruct (fetch_page (201 * LIMIT)); reflexivity.
      * apply Nat.ltb_ge in Elim. unfold LIMIT in Elim.
        assert (Hi' : S i <= 200) by lia.
        destruct (IH (S i) (acc ++ f :: batch) Hi' ltac:(lia))
          as (n & Hn & Hfull & Hstop & Hasked & Hres).
        exists n.
        destruct (fetch_loop fetch_page turns (acc ++ f :: batch)
                             (S i * LIMIT)) as [asked r].
        cbn [fst snd] in *. subst asked r.
        split; [lia|]. split; [|split; [exact Hstop|split]].
        -- intros j Hj. destruct (Nat.eq_dec j i) as [->|]; [exact Hne|].
           apply Hfull; lia.
        -- replace (Nat.min (S n) 201 - i)
             with (S (Nat.min (S n) 201 - S i)) by lia.
           reflexivity.
        -- replace (n - i) with (S (n - S i)) by lia.
           cbn [seq flat_map]. rewrite Hb, <- !app_assoc. reflexivity.
    + (* null in place of the list *)
      exists i. cbn [fst snd]. rewrite Ef.
      replace (Nat.min (S i) 201 - i) with 1 by lia.
      replace (i - i) with 0 by lia. cbn [seq map flat_map].
      rewrite app_nil_r. repeat split; try lia.
      * intros _. unfold Spec.batch_at. now rewrite Ef, Eb.
  - exists i. cbn [fst snd]. rewrite Ef.
    replace (Nat.min (S i) 201 - i) with 1 by lia.
    assert (Nat.ltb i 201 = true) as -> by (apply Nat.ltb_lt; lia).
    repeat split; try lia.
    intros _. unfold Spec.batch_at. now rewrite Ef.
Qed.

End Pagination.

(** X5. The loop of [fetch_all_filings] always ends: it
    asks for the offsets 0, 25, 50, ... in turn, each once, never for an
    offset above 5000, so for at most 201 pages, and following more turns
    changes nothing. *)
Theorem fetch_all_filings_ends
        (fetch_page : nat -> option Extract.page) (turns : nat) :
  201 <= turns ->
  let r := Extract.fetch_all_filings fetch_page turns in
  snd r <> None /\
  r = Extract.fetch_all_filings fetch_page 201 /\
  List.length (fst r) <= 201 /\
  fst r = map (fun j => j * Extract.LIMIT) (seq 0 (List.length (fst r))) /\
  Forall (fun offset => offset <= 5000) (fst r).
Proof.
  intros Hturns. cbn zeta. unfold Extract.fetch_all_filings.
  destruct (fetch_loop_pages fetch_page turns 0 [] ltac:(lia) ltac:(lia))
    as (n & Hn & Hfull & Hstop & Hasked & Hres).
  destruct (fetch_loop_pages fetch_page 201 0 [] ltac:(lia) ltac:(lia))
    as (n' & Hn' & Hfull' & Hstop' & Hasked' & Hres').
  change (0 * Extract.LIMIT) with 0 in *.
  assert (n' = n) as ->.
  { destruct (Nat.lt_trichotomy n' n) as [Hlt|[Heq|Hgt]]; [|exact Heq|].
    - exfalso. apply (Hfull n'); [lia|]. apply Hstop'; lia.
    - exfalso. apply (Hfull' n); [lia|]. apply Hstop; lia. }
  split; [rewrite Hres; discriminate|].
  split.
  { rewrite (surjective_pairing (Extract.fetch_loop fetch_page turns [] 0)).
    rewrite (surjective_pairing (Extract.fetch_loop fetch_page 201 [] 0)).
    now rewrite Hasked, Hres, Hasked', Hres'. }
  rewrite Hasked, length_map, length_seq.
  split; [lia|]. split; [reflexivity|].
  apply Forall_forall. intros offset Hin.
  apply in_map_iff in Hin. destruct Hin as (j & <- & Hj).
  apply in_seq in Hj. unfold Extract.LIMIT. lia.
Qed.

(** The witness: every page holds one filing, and 201 pages are read. *)
Lemma fetch_all_filings_ends_witness :
  let f := Spec.simple_filing (Some "1") (Some "Acme") None None in
  let fetch_page := fun _ : nat =>
    Some {| Extract.page_filings := Extract.Items [f];
            Extract.page_filing := Extract.Absent |} in
  let r := Extract.fetch_all_filings fetch_page 300 in
  201 <= 300 /\
  snd r <> None /\
  r = Extract.fetch_all_filings fetch_page 201 /\
  List.length (fst r) <= 201 /\
  fst r = map (fun j => j * Extract.LIMIT) (seq 0 (List.length (fst r))) /\
  Forall (fun offset => offset <= 5000) (fst r).
Proof.
  intros f fetch_page r. split; [lia|].
  apply (fetch_all_filings_ends fetch_page 300). lia.
Defined.

(** X6. [fetch_all_filings] returns the filings of the
    pages at offsets 0, 25, 50, ... put end to end, up to the first page
    without filings (an empty list, a null, or neither key) or to the page
    at offset 5000, whichever comes first; when fetching a page raises
    before that, the exception goes through and nothing is returned. *)
Theorem fetch_all_filings_pages
        (fetch_page : nat -> option Extract.page) (turns : nat) :
  201 <= turns ->
  exists n,
    n <= 201 /\
    (forall j, j < n -> Spec.batch_at fetch_page j <> []) /\
    (n < 201 -> Spec.batch_at fetch_page n = []) /\
    (n < 201 -> fetch_page (n * Extract.LIMIT) = None ->
     snd (Extract.fetch_all_filings fetch_page turns) = Some Py.Raises) /\
    (n = 201 \/ fetch_page (n * Extract.LIMIT) <> None ->
     snd (Extract.fetch_all_filings fetch_page turns)
     = Some (Py.Returns (Spec.batches fetch_page n))).
Proof.
  intros Hturns. unfold Extract.fetch_all_filings.
  destruct (fetch_loop_pages fetch_page turns 0 [] ltac:(lia) ltac:(lia))
    as (n & Hn & Hfull & Hstop & _ & Hres).
  change (0 * Extract.LIMIT) with 0 in *.
  exists n. split; [lia|]. split; [intros j Hj; apply Hfull; lia|].
  split; [exact Hstop|]. rewrite Hres, Nat.sub_0_r. cbn [app].
  fold (Spec.batches fetch_page n). split.
  - intros Hlt ->. apply Nat.ltb_lt in Hlt. now rewrite Hlt.
  - intros [-> | Hsome].
    + destruct (fetch_page (201 * Extract.LIMIT)); reflexivity.
    + destruct (fetch_page (n * Extract.LIMIT)); [reflexivity|congruence].
Qed.

(** The witness: two pages with a filing, then a page with an empty
    list under [filings]. *)
Lemma fetch_all_filings_pages_witness :
  let f := Spec.simple_filing (Some "1") (Some "Acme") None None in
  let g := Spec.simple_filing (Some "2") (Some "Zap") None None in
  let fetch_page := fun offset : nat =>
    Some {| Extract.page_filings :=
              Extract.Items (if Nat.eqb offset 0 then [f]
                             else if Nat.eqb offset 25 then [g] else []);
            Extract.page_filing := Extract.Items [f] |} in
  201 <= 201 /\
  Extract.fetch_all_filings fetch_page 201
  = ([0; 25; 50], Some (Py.Returns [f; g])) /\
  exists n,
    n <= 201 /\
    (forall j, j < n -> Spec.batch_at fetch_page j <> []) /\
    (n < 201 -> Spec.batch_at fetch_page n = []) /\
    (n < 201 -> fetch_page (n * Extract.LIMIT) = None ->
     snd (Extract.fetch_all_filings fetch_page 201) = Some Py.Raises) /\
    (n = 201 \/ fetch_page (n * Extract.LIMIT) <> None ->
     snd (Extract.fetch_all_filings fetch_page 201)
     = Some (Py.Returns (Spec.batches fetch_page n))).
Proof.
  intros f g fetch_page. split; [lia|]. split; [reflexivity|].
  apply (fetch_all_filings_pages fetch_page 201). lia.
Defined.

(* ================================================================== *)
(** * Dedup loops: the first of each key wins *)

Section FirstWins.

Context {A : Type} (key : A -> string).

Lemma dict_set_new {V} (k : string) (v : V) (d : Py.dict V) :
  Py.dict_mem k d = false -> Py.dict_set k v d = d ++ [(k, v)].
Proof.
  unfold Py.dict_mem.
  induction d as [|[k' v'] d IH]; cbn [Py.dict_get Py.dict_set app];
    [reflexivity|].
  destruct (String.eqb k' k); [discriminate|].
  intros H. now rewrite IH.
Qed.

Lemma dict_mem_snoc {V} (k k' : string) (v : V) (d : Py.dict V) :
  Py.dict_mem k (d ++ [(k', v)]) = (Py.dict_mem k d || String.eqb k' k)%bool.
Proof.
  unfold Py.dict_mem.
  induction d as [|[k0 v0] d IH]; cbn [Py.dict_get app].
  - destruct (String.eqb k' k); reflexivity.
  - destruct (String.eqb k0 k); [reflexivity|exact IH].
Qed.

Lemma first_wins_fold (xs : list A) (d : Py.dict A) :
  fold_left (Spec.add_first key) xs d =
  d ++ map (fun x => (key x, x))
           (filter (fun x => negb (Py.dict_mem (key x) d))
                   (Spec.first_by key xs)).
Proof.
  revert d; induction xs as [|x t IH]; intros d.
  - cbn. now rewrite app_nil_r.
  - cbn [fold_left Spec.first_by]. unfold Spec.add_first at 2.
    destruct (PyStr.truthy (key x)) eqn:Et; cbn [andb]; [|apply IH].
    cbn [filter].
    destruct (Py.dict_mem (key x) d) eqn:Em; cbn [negb].
    + rewrite IH. f_equal. f_equal. clear IH.
      induction (Spec.first_by key t) as [|y l IHl]; [reflexivity|].
      cbn [filter]. destruct (String.eqb (key y) (key x)) eqn:E; cbn [negb].
      * apply String.eqb_eq in E. rewrite E, Em. cbn [negb]. exact IHl.
      * cbn [filter]. rewrite IHl. reflexivity.
    + rewrite IH, dict_set_new by exact Em.
      rewrite <- app_assoc. cbn [app map]. f_equal. f_equal. clear IH.
      f_equal.
      induction (Spec.first_by key t) as [|y l IHl]; [reflexivity|].
      cbn [filter]. rewrite dict_mem_snoc, IHl.
      rewrite (String.eqb_sym (key x) (key y)).
      destruct (String.eqb (key y) (key x)) eqn:E1,
               (Py.dict_mem (key y) d) eqn:E2;
        cbn [negb orb filter]; rewrite ?E2; reflexivity.
Qed.

Lemma first_wins (xs : list A) :
  fold_left (Spec.add_first key) xs [] = map (fun x => (key x, x)) (Spec.first_by key xs).
Proof.
  rewrite first_wins_fold. cbn [app]. f_equal.
  induction (Spec.first_by key xs) as [|y l IHl]; [reflexivity|].
  cbn [filter]. change (Py.dict_mem (key y) []) with false.
  cbn [negb]. now rewrite IHl.
Qed.

(** What [first_by] keeps *)
Lemma first_by_In (xs : list A) (x : A) :
  In x (Spec.first_by key xs) ->
  In x xs /\ PyStr.truthy (key x) = true.
Proof.
  induction xs as [|y t IH]; cbn [Spec.first_by]; [intros []|].
  destruct (PyStr.truthy (key y)) eqn:E.
  - intros [<-|Hin]; [split; [now left|exact E]|].
    apply filter_In in Hin. destruct (IH (proj1 Hin)). split; [now right|auto].
  - intros Hin. destruct (IH Hin). split; [now right|auto].
Qed.

Lemma first_by_NoDup (xs : list A) :
  NoDup (map key (Spec.first_by key xs)).
Proof.
  induction xs as [|y t IH]; cbn [Spec.first_by]; [constructor|].
  destruct (PyStr.truthy (key y)); [|exact IH].
  cbn [map]. constructor.
  - intros Hin. apply in_map_iff in Hin. destruct Hin as (z & Hz & Hin).
    apply filter_In in Hin. destruct Hin as [_ Hne].
    rewrite Hz, String.eqb_refl in Hne. discriminate.
  - induction (Spec.first_by key t) as [|z l IHl]; [constructor|].
    cbn [filter]. inversion IH; subst.
    destruct (negb (String.eqb (key z) (key y))); [|auto].
    cbn [map]. constructor; [|auto].
    intros Hin. apply in_map_iff in Hin. destruct Hin as (u & Hu & Hin).
    apply filter_In in Hin. destruct Hin as [Hin _].
    apply H1. rewrite <- Hu. now apply in_map.
Qed.

End FirstWins.

(* ================================================================== *)
(** * src/extract.py: what [extract_filings] writes and counts *)

Lemma add_filing_first_wins (d : Py.dict Ecfs.filing) (f : Ecfs.filing) :
  Extract.add_filing d f = Spec.add_first Spec.id_of d f.
Proof.
  unfold Extract.add_filing, Spec.add_first, Spec.id_of.
  destruct (Ecfs.id_submission f); reflexivity.
Qed.

Lemma fold_left_ext {S T} (f g : S -> T -> S) (l : list T) (s : S) :
  (forall s x, f s x = g s x) -> fold_left f l s = fold_left g l s.
Proof.
  intros H. revert s; induction l as [|x l IH]; intros s; [reflexivity|].
  cbn. now rewrite H, IH.
Qed.

(** X7. The lines [extract_filings] writes are the filings
    that have a submission id, each the first fetched with its id, in the
    order in which they were fetched: first by query, then by place in the
    query's result. *)
Theorem extract_filings_in_order
        (fetch_all_filings : string -> list Ecfs.filing) :
  fst (Extract.extract_filings fetch_all_filings) =
  map (fun f => (Spec.id_of f, f))
      (Spec.first_by Spec.id_of
         (Spec.fetched_in_order fetch_all_filings Extract.queries)).
Proof.
  rewrite extract_filings_map. unfold Extract.run_queries.
  rewrite run_queries_map.
  rewrite (fold_left_ext _ _ _ _ add_filing_first_wins).
  apply first_wins.
Qed.

Lemma run_queries_sum fetch (qs : list string) d st :
  let r := fold_left (Extract.run_query fetch) qs (d, st) in
  List.length (fst r) + list_sum (map Extract.new_unique st)
  = List.length d + list_sum (map Extract.new_unique (snd r)) /\
  map Extract.query (snd r) = map Extract.query st ++ qs.
Proof.
  revert d st; induction qs as [|q qs IH]; intros d st.
  - cbn. rewrite app_nil_r. split; reflexivity.
  - cbn [fold_left]. unfold Extract.run_query at 2 4 6.
    destruct (IH (fold_left Extract.add_filing (fetch q) d)
                 (st ++ [{| Extract.query := q;
                            Extract.fetched := List.length (fetch q);
                            Extract.new_unique :=
                              List.length
                                (fold_left Extract.add_filing (fetch q) d)
                              - List.length d |}])) as [IH1 IH2].
    cbn zeta in *. split.
    + rewrite map_app, list_sum_app in IH1. cbn in IH1.
      pose proof (proj1 (add_filing_length (fetch q) d)). lia.
    + rewrite IH2, map_app, <- app_assoc. reflexivity.
Qed.

Lemma extract_filings_unfold fetch :
  Extract.extract_filings fetch =
  (fst (Extract.run_queries fetch Extract.queries),
   {| Extract.meta_queries := snd (Extract.run_queries fetch Extract.queries);
      Extract.total_unique_filings :=
        List.length (fst (Extract.run_queries fetch Extract.queries)) |}).
Proof.
  unfold Extract.extract_filings.
  destruct (Extract.run_queries fetch Extract.queries); reflexivity.
Qed.

(** X8. The metadata of [extract_filings] adds up: there
    is one entry for each query, in order; total_unique_filings is the
    number of lines written and the sum of the queries' new_unique; and no
    query has more new filings than it fetched. *)
Theorem extract_filings_totals
        (fetch_all_filings : string -> list Ecfs.filing) :
  let r := Extract.extract_filings fetch_all_filings in
  map Extract.query (Extract.meta_queries (snd r)) = Extract.queries /\
  Extract.total_unique_filings (snd r) = List.length (fst r) /\
  Extract.total_unique_filings (snd r)
  = list_sum (map Extract.new_unique (Extract.meta_queries (snd r))) /\
  Forall (fun s => Extract.new_unique s <= Extract.fetched s)
         (Extract.meta_queries (snd r)).
Proof.
  cbn zeta. rewrite extract_filings_unfold.
  cbn [fst snd Extract.meta_queries Extract.total_unique_filings].
  unfold Extract.run_queries.
  destruct (run_queries_sum fetch_all_filings Extract.queries [] [])
    as [Hsum Hq].
  destruct (run_queries_stats fetch_all_filings Extract.queries [] [])
    as (new & Hnew & Hall).
  cbn zeta in Hsum, Hq.
  cbn [map app list_sum fold_right List.length] in Hsum, Hq, Hnew.
  split; [exact Hq|]. split; [reflexivity|].
  split; [rewrite Nat.add_0_r in Hsum; exact Hsum|].
  assert (Hf : Forall (fun s => Extract.new_unique s <= Extract.fetched s)
                      new).
  { clear - Hall.
    induction Hall as [|q s qs new (_ & _ & Hle) _ IH]; constructor; auto.
    lia. }
  rewrite <- Hnew in Hf. exact Hf.
Qed.

(* ================================================================== *)
(** * src/download_docs.py: the documents downloaded *)

(** X9. [download_all] downloads each URL once: its list
    of documents holds the document entries of the company records that
    have a non-empty URL, each the first with its URL, in the order of the
    records and of their documents. An entry without URL is never
    downloaded, and no URL is downloaded twice. *)
Theorem download_all_documents (companies : list Structure.company) :
  let docs := DownloadDocs.docs companies in
  docs = Spec.first_by Structure.url
           (flat_map Structure.documents companies) /\
  NoDup (map Structure.url docs) /\
  (forall doc, In doc docs ->
     Structure.url doc <> "" /\
     exists company, In company companies /\
                     In doc (Structure.documents company)).
Proof.
  cbn zeta.
  assert (E : DownloadDocs.docs companies
              = Spec.first_by Structure.url
                  (flat_map Structure.documents companies)).
  { unfold DownloadDocs.docs, DownloadDocs.docs_by_url.
    rewrite <- fold_left_flat_map.
    change DownloadDocs.add_doc with (Spec.add_first Structure.url).
    rewrite (first_wins Structure.url).
    rewrite map_map. cbn [snd]. apply map_id. }
  rewrite E. split; [reflexivity|]. split; [apply first_by_NoDup|].
  intros doc Hin. apply first_by_In in Hin. destruct Hin as [Hin Ht].
  split; [now apply truthy_nonempty|].
  apply in_flat_map in Hin. exact Hin.
Qed.

(* ================================================================== *)
(** * src/download_docs.py: [transform_url] *)

Section Replace.

Lemma replace_scan_skip (old new a b : string) :
  PyStr.replace_scan old new (String.length a) (a ++ b)
  = PyStr.replace_scan old new 0 b.
Proof. induction a as [|c a IH]; [reflexivity|exact IH]. Qed.

Lemma prefix_app_long (old y z : string) :
  String.length old <= String.length y ->
  String.prefix old (y ++ z) = String.prefix old y.
Proof.
  revert y; induction old as [|c o IH]; intros y Hlen.
  - destruct y, z; reflexivity.
  - destruct y as [|d y]; cbn [String.length] in Hlen; [lia|].
    cbn [String.append String.prefix].
    destruct (ascii_dec c d); [|reflexivity]. apply IH. lia.
Qed.

(** [old] without its last character *)
Lemma but_last (old : string) :
  String.length (String.substring 0 (String.length old - 1) old)
  = String.length old - 1 /\
  exists t,
    old = (String.substring 0 (String.length old - 1) old ++ t)%string.
Proof.
  induction old as [|o olds IH].
  - split; [reflexivity|]. now exists "".
  - change (String.length (String o olds) - 1) with (String.length olds - 0).
    rewrite Nat.sub_0_r.
    destruct olds as [|o' olds'].
    + split; [reflexivity|]. now exists (String o "").
    + change (String.length (String o' olds') - 1)
        with (String.length olds' - 0) in IH.
      rewrite Nat.sub_0_r in IH.
      cbn [String.length String.substring] in *.
      destruct IH as [Hlen [t Ht]]. split.
      * now rewrite Hlen.
      * exists t. cbn [String.append]. now rewrite <- Ht.
Qed.

(** Without an occurrence nothing changes. *)
Lemma replace_absent (old new s : string) :
  PyStr.contains old s = false -> PyStr.replace old new s = s.
Proof.
  unfold PyStr.replace.
  induction s as [|c s IH]; [reflexivity|].
  cbn [PyStr.contains PyStr.replace_scan].
  destruct (String.prefix old (String c s)); [discriminate|].
  intros H. now rewrite IH.
Qed.

(** The first occurrence is replaced and the scan goes on after it. *)
Lemma replace_first (old new a b : string) :
  old <> "" ->
  PyStr.contains old (a ++ String.substring 0 (String.length old - 1) old)
  = false ->
  PyStr.replace old new (a ++ old ++ b)
  = (a ++ new ++ PyStr.replace old new b)%string.
Proof.
  intros Hold. unfold PyStr.replace.
  destruct (but_last old) as [Hlen [t Ht]].
  set (head := String.substring 0 (String.length old - 1) old) in *.
  induction a as [|c a IH]; intros Hno.
  - cbn [String.append]. destruct old as [|o olds] eqn:Eo; [congruence|].
    cbn [String.append PyStr.replace_scan].
    assert (Hp : String.prefix (String o olds) (String o (olds ++ b)) = true).
    { apply prefix_spec. now exists b. }
    rewrite Hp.
    change (String.length (String o olds) - 1) with (String.length olds - 0).
    rewrite Nat.sub_0_r.
    now rewrite replace_scan_skip.
  - cbn [String.append PyStr.contains] in Hno.
    destruct (String.prefix old (String c (a ++ head))) eqn:Ep;
      [discriminate|].
    cbn [String.append PyStr.replace_scan].
    assert (Hp : String.prefix old (String c (a ++ old ++ b)) = false).
    { rewrite <- Ep.
      replace (String c (a ++ old ++ b))
        with ((String c (a ++ head)) ++ (t ++ b))%string.
      - apply prefix_app_long.
        cbn [String.length]. rewrite append_length. lia.
      - cbn [String.append]. f_equal. rewrite append_assoc. f_equal.
        rewrite <- append_assoc. now rewrite <- Ht. }
    rewrite Hp. now rewrite IH.
Qed.

End Replace.

Section ReplaceGrows.

Variables old new : string.
Hypothesis old_not_empty : old <> "".
Hypothesis new_longer : String.length old < String.length new.

Lemma contains_short (s : string) :
  String.length s < String.length old -> PyStr.contains old s = false.
Proof.
  induction s as [|c s IH]; intros Hlen.
  - destruct old; [congruence|reflexivity].
  - cbn [PyStr.contains].
    assert (Hp : String.prefix old (String c s) = false).
    { destruct (String.prefix old (String c s)) eqn:E; [|reflexivity].
      apply prefix_spec in E. destruct E as [post E].
      apply (f_equal String.length) in E. rewrite append_length in E. lia. }
    rewrite Hp. apply IH. cbn [String.length] in Hlen. lia.
Qed.

(** The first occurrence of [old] in a string that has one *)
Lemma contains_first (s : string) :
  PyStr.contains old s = true ->
  exists a b,
    s = (a ++ old ++ b)%string /\
    PyStr.contains old
      (a ++ String.substring 0 (String.length old - 1) old) = false.
Proof.
  destruct (but_last old) as [Hlen [t Ht]].
  set (head := String.substring 0 (String.length old - 1) old) in *.
  assert (Hhead : PyStr.contains old head = false).
  { apply contains_short. destruct old; [congruence|].
    cbn [String.length] in *. lia. }
  induction s as [|c s IH].
  - cbn. destruct old; [congruence|discriminate].
  - cbn [PyStr.contains].
    destruct (String.prefix old (String c s)) eqn:Ep.
    + intros _. apply prefix_spec in Ep. destruct Ep as [b Eb].
      exists "", b. split; [exact Eb|exact Hhead].
    + intros Hc. destruct (IH Hc) as (a & b & -> & Hno).
      exists (String c a), b. split; [reflexivity|].
      cbn [String.append PyStr.contains]. rewrite Hno.
      replace (String c (a ++ old ++ b))
        with ((String c (a ++ head)) ++ (t ++ b))%string in Ep.
      * rewrite prefix_app_long in Ep.
        -- now rewrite Ep.
        -- cbn [String.length]. rewrite append_length. lia.
      * cbn [String.append]. f_equal. rewrite append_assoc. f_equal.
        rewrite <- append_assoc. now rewrite <- Ht.
Qed.

(** Replacing by a longer string never shortens, and lengthens whenever
    there is an occurrence. *)
Lemma replace_grows (n : nat) (s : string) :
  String.length s <= n ->
  String.length s <= String.length (PyStr.replace old new s) /\
  (PyStr.contains old s = true ->
   String.length s < String.length (PyStr.replace old new s)).
Proof.
  revert s; induction n as [|n IH]; intros s Hn.
  - destruct s; [|cbn in Hn; lia].
    split; [cbn; lia|]. cbn. destruct old; [congruence|discriminate].
  - destruct (PyStr.contains old s) eqn:Ec.
    + destruct (contains_first s Ec) as (a & b & -> & Hno).
      rewrite replace_first by assumption.
      rewrite !append_length in *.
      assert (Hb : String.length b <= n).
      { destruct old; [congruence|]. cbn [String.length] in *. lia. }
      destruct (IH b Hb) as [Hle _]. split; [lia|]. intros _. lia.
    + rewrite replace_absent by exact Ec. split; [lia|discriminate].
Qed.

End ReplaceGrows.

(** X10. [transform_url] returns a URL without the viewer
    segment [/ecfs/document/] unchanged, and only such a URL; in any other
    URL the first viewer segment becomes [/ecfs/documents/] and what
    follows it is transformed in the same way. The result is never
    shorter than the URL. *)
Theorem transform_url_first_segment :
  (forall u : string,
      PyStr.contains "/ecfs/document/" u = false <->
      DownloadDocs.transform_url u = u) /\
  (forall a b : string,
      PyStr.contains "/ecfs/document/" (a ++ "/ecfs/document") = false ->
      DownloadDocs.transform_url (a ++ "/ecfs/document/" ++ b)
      = (a ++ "/ecfs/documents/" ++ DownloadDocs.transform_url b)%string) /\
  (forall u : string,
      String.length u <= String.length (DownloadDocs.transform_url u)).
Proof.
  unfold DownloadDocs.transform_url.
  assert (Hold : "/ecfs/document/" <> "") by discriminate.
  assert (Hlen : String.length "/ecfs/document/"
                 < String.length "/ecfs/documents/") by (cbn; lia).
  split; [|split].
  - intros u. split; [apply replace_absent|].
    intros E.
    destruct (PyStr.contains "/ecfs/document/" u) eqn:Ec; [|reflexivity].
    exfalso.
    destruct (replace_grows _ _ Hold Hlen (String.length u) u (le_n _))
      as [_ Hlt].
    specialize (Hlt Ec). rewrite E in Hlt. lia.
  - intros a b Hno. apply replace_first; [exact Hold|exact Hno].
  - intros u.
    apply (replace_grows _ _ Hold Hlen (String.length u) u (le_n _)).
Qed.

(* ================================================================== *)
(** * src/download_docs.py: [sanitize_filename] *)

Section CharClasses.

Import Re.

(** [re.sub] with a one-character class *)
Lemma sub_one_replace (p : ascii -> bool) (r : ascii) (s : string) :
  sub [One p] (String r "") s = Spec.replace_chars p r s.
Proof.
  unfold sub. induction s as [|c s IH]; [reflexivity|].
  cbn [sub_scan match_items step Spec.replace_chars].
  destruct (p c); cbn [with_seg].
  - replace (String.length (String c s) - String.length s) with 1
      by (cbn [String.length]; lia).
    cbn [String.append]. now rewrite IH.
  - now rewrite IH.
Qed.

Lemma match_plus_class (p : ascii -> bool) (c : ascii) (s : string) :
  if p c
  then exists seg, match_items [Plus p] (String c s)
                   = Some ([seg], PyStr.lstrip_by p s)
  else match_items [Plus p] (String c s) = None.
Proof.
  destruct (greedy_all p s) as [seg Hg]. simpl in Hg |- *.
  destruct (p c); auto.
  rewrite Hg. simpl. eauto.
Qed.

(** [re.sub] with a repeated class *)
Lemma sub_scan_squeeze_by (p : ascii -> bool) (r : ascii) (s : string) :
  sub_scan [Plus p] (String r "") 0 s = Spec.squeeze_by p r false s /\
  sub_scan [Plus p] (String r "")
           (String.length s - String.length (PyStr.lstrip_by p s)) s
  = Spec.squeeze_by p r true s.
Proof.
  induction s as [|c s [IH0 IH1]].
  - split; reflexivity.
  - pose proof (lstrip_length p s) as Hlen.
    pose proof (match_plus_class p c s) as Hm.
    cbn [sub_scan Spec.squeeze_by PyStr.lstrip_by].
    destruct (p c) eqn:Ec.
    + destruct Hm as [seg ->].
      replace (String.length (String c s)
               - String.length (PyStr.lstrip_by p s))
        with (S (String.length s - String.length (PyStr.lstrip_by p s)))
        by (cbn [String.length]; lia).
      cbn [sub_scan]. rewrite IH1. split; reflexivity.
    + rewrite Nat.sub_diag. cbn [sub_scan]. rewrite Hm, IH0.
      split; reflexivity.
Qed.

Lemma sub_plus_squeeze (p : ascii -> bool) (r : ascii) (s : string) :
  sub [Plus p] (String r "") s = Spec.squeeze_by p r false s.
Proof. apply sub_scan_squeeze_by. Qed.

Lemma replace_chars_length (p : ascii -> bool) (r : ascii) (s : string) :
  String.length (Spec.replace_chars p r s) = String.length s.
Proof. induction s as [|c s IH]; cbn; auto. Qed.

Lemma squeeze_by_length (p : ascii -> bool) (r : ascii) (b : bool) (s : string) :
  String.length (Spec.squeeze_by p r b s) <= String.length s.
Proof.
  revert b; induction s as [|c s IH]; intros b; cbn [Spec.squeeze_by];
    [auto|].
  pose proof (IH true). pose proof (IH false).
  destruct (p c); [destruct b|]; cbn [String.length]; lia.
Qed.

Lemma replace_chars_app (p : ascii -> bool) (r : ascii) (a b : string) :
  Spec.replace_chars p r (a ++ b)
  = (Spec.replace_chars p r a ++ Spec.replace_chars p r b)%string.
Proof. induction a as [|c a IH]; cbn; [reflexivity|now rewrite IH]. Qed.

(** A character outside the class ends the run. *)
Lemma squeeze_by_app (p : ascii -> bool) (r : ascii) (b : bool) (a : string) (d : ascii) (t : string) :
  p d = false ->
  Spec.squeeze_by p r b (a ++ String d t)
  = (Spec.squeeze_by p r b a ++ String d (Spec.squeeze_by p r false t))%string.
Proof.
  intros Hd. revert b; induction a as [|c a IH]; intros b.
  - cbn [String.append Spec.squeeze_by]. now rewrite Hd.
  - cbn [String.append Spec.squeeze_by].
    destruct (p c); [destruct b|]; cbn [String.append]; now rewrite IH.
Qed.

Lemma replace_chars_mem (p : ascii -> bool) (r : ascii) (d : ascii) (s : string) :
  p d = false -> d <> r ->
  PyStr.mem_char d (Spec.replace_chars p r s) = PyStr.mem_char d s.
Proof.
  intros Hd Hr. induction s as [|c s IH]; [reflexivity|].
  cbn [Spec.replace_chars PyStr.mem_char]. rewrite IH. f_equal.
  destruct (p c) eqn:Ec; [|reflexivity].
  destruct (Ascii.eqb_spec d r); [congruence|].
  destruct (Ascii.eqb_spec d c); [congruence|reflexivity].
Qed.

Lemma squeeze_by_mem (p : ascii -> bool) (r : ascii) (d : ascii) (b : bool) (s : string) :
  p d = false -> d <> r ->
  PyStr.mem_char d (Spec.squeeze_by p r b s) = PyStr.mem_char d s.
Proof.
  intros Hd Hr. revert b; induction s as [|c s IH]; intros b; [reflexivity|].
  cbn [Spec.squeeze_by PyStr.mem_char].
  assert (Hc : p c = true -> Ascii.eqb d c = false).
  { intros Hp. destruct (Ascii.eqb_spec d c); [congruence|reflexivity]. }
  destruct (p c) eqn:Ec; [destruct b|]; cbn [PyStr.mem_char];
    rewrite ?IH, ?Hc by reflexivity; cbn [orb]; try reflexivity.
  destruct (Ascii.eqb_spec d r); [congruence|reflexivity].
Qed.

End CharClasses.

Section RSplit.

Lemma rsplit1_spec (c : ascii) (s : string) :
  PyStr.mem_char c s = true ->
  s = (fst (PyStr.rsplit1 c s) ++ String c (snd (PyStr.rsplit1 c s)))%string /\
  PyStr.mem_char c (snd (PyStr.rsplit1 c s)) = false.
Proof.
  induction s as [|d s IH]; [discriminate|].
  cbn [PyStr.mem_char PyStr.rsplit1].
  destruct (PyStr.mem_char c s) eqn:Em.
  - intros _. destruct (IH eq_refl) as [E Hno].
    destruct (PyStr.rsplit1 c s) as [a b]. cbn [fst snd] in *.
    split; [cbn [String.append]; now rewrite <- E|exact Hno].
  - rewrite orb_false_r. intros Hd.
    rewrite Ascii.eqb_sym in Hd. rewrite Hd. cbn [fst snd String.append].
    apply Ascii.eqb_eq in Hd. subst d. split; [reflexivity|exact Em].
Qed.

Lemma rsplit1_unique (c : ascii) (a b : string) :
  PyStr.mem_char c b = false ->
  PyStr.rsplit1 c (a ++ String c b) = (a, b).
Proof.
  intros Hb. induction a as [|d a IH].
  - cbn [String.append PyStr.rsplit1]. now rewrite Hb, Ascii.eqb_refl.
  - cbn [String.append PyStr.rsplit1]. rewrite IH.
    rewrite mem_char_app. cbn [PyStr.mem_char]. rewrite Ascii.eqb_refl.
    rewrite orb_true_r. reflexivity.
Qed.

Lemma take_length_le (n : nat) (s : string) :
  String.length (PyStr.take n s) <= n.
Proof.
  revert s; induction n as [|n IH]; intros [|c s]; cbn; auto; try lia.
  specialize (IH s). lia.
Qed.

Lemma take_all (n : nat) (s : string) :
  String.length s <= n -> PyStr.take n s = s.
Proof.
  revert s; induction n as [|n IH]; intros [|c s]; cbn; auto; try lia.
  intros H. rewrite IH; [reflexivity|lia].
Qed.

Lemma take_prefix (n : nat) (s : string) :
  exists r, s = (PyStr.take n s ++ r)%string.
Proof.
  revert s; induction n as [|n IH]; intros s.
  - exists s. destruct s; reflexivity.
  - destruct s as [|c s]; [now exists ""|].
    destruct (IH s) as [r Hr]. exists r. cbn. now rewrite <- Hr.
Qed.

End RSplit.

Section Sanitize.

Import DownloadDocs.

Lemma sanitize_filename_steps (filename : string) :
  sanitize_filename filename = Spec.limit_length (Spec.cleaned filename).
Proof.
  unfold sanitize_filename.
  rewrite sub_one_replace, sub_plus_squeeze. reflexivity.
Qed.

Lemma uos_spec (c : ascii) :
  Spec.underscore_or_space c = (Ascii.eqb c "_" || PyStr.is_space c)%bool.
Proof. reflexivity. Qed.

Lemma replaced_safe (s : string) :
  PyStr.all_chars (fun c => negb (Spec.unsafe c)) (Spec.replace_chars Spec.unsafe "_" s)
  = true.
Proof.
  induction s as [|c s IH]; [reflexivity|].
  cbn [Spec.replace_chars PyStr.all_chars]. rewrite IH.
  destruct (Spec.unsafe c) eqn:E; [reflexivity|]. now rewrite E.
Qed.

Lemma squeezed_clean (b : bool) (s : string) :
  PyStr.all_chars (fun c => negb (Spec.unsafe c)) s = true ->
  Spec.clean_name b (Spec.squeeze_by Spec.underscore_or_space "_" b s) = true.
Proof.
  revert b; induction s as [|c s IH]; intros b; [reflexivity|].
  cbn [PyStr.all_chars Spec.squeeze_by]. intros H.
  apply andb_true_iff in H. destruct H as [Hc Hs].
  destruct (Spec.underscore_or_space c) eqn:Ec.
  - destruct b; [now apply IH|].
    cbn [Spec.clean_name]. change (Spec.underscore_or_space "_") with true.
    cbn. now apply IH.
  - cbn [Spec.clean_name]. rewrite Ec.
    rewrite Hc. now apply IH.
Qed.

Lemma cleaned_clean (filename : string) :
  Spec.clean_name false (Spec.cleaned filename) = true.
Proof. apply squeezed_clean, replaced_safe. Qed.

(** The two [re.sub] leave a clean name as it is. *)
Lemma clean_fixed (b : bool) (s : string) :
  Spec.clean_name b s = true ->
  Spec.replace_chars Spec.unsafe "_" s = s /\ Spec.squeeze_by Spec.underscore_or_space "_" b s = s.
Proof.
  revert b; induction s as [|c s IH]; intros b; [split; reflexivity|].
  cbn [Spec.clean_name Spec.replace_chars Spec.squeeze_by].
  destruct (Spec.underscore_or_space c) eqn:Ec.
  - intros H. apply andb_true_iff in H. destruct H as [H Hs].
    apply andb_true_iff in H. destruct H as [Hc Hb].
    apply Ascii.eqb_eq in Hc. subst c.
    destruct b; [discriminate|].
    destruct (IH true Hs) as [-> ->]. split; reflexivity.
  - intros H. apply andb_true_iff in H. destruct H as [Hc Hs].
    apply negb_true_iff in Hc. rewrite Hc.
    destruct (IH false Hs) as [-> ->]. split; reflexivity.
Qed.

Lemma clean_relax (s : string) :
  Spec.clean_name true s = true -> Spec.clean_name false s = true.
Proof.
  destruct s as [|c s]; [reflexivity|]. cbn [Spec.clean_name].
  destruct (Spec.underscore_or_space c); [|auto].
  rewrite andb_false_r. discriminate.
Qed.

Lemma clean_prefix (b : bool) (a r : string) :
  Spec.clean_name b (a ++ r) = true -> Spec.clean_name b a = true.
Proof.
  revert b; induction a as [|c a IH]; intros b; [reflexivity|].
  cbn [String.append Spec.clean_name].
  destruct (Spec.underscore_or_space c).
  - intros H. apply andb_true_iff in H. destruct H as [-> H].
    now rewrite (IH _ H).
  - intros H. apply andb_true_iff in H. destruct H as [-> H].
    now rewrite (IH _ H).
Qed.

Lemma clean_suffix (b : bool) (a r : string) :
  Spec.clean_name b (a ++ r) = true -> Spec.clean_name false r = true.
Proof.
  revert b; induction a as [|c a IH]; intros b.
  - cbn [String.append]. destruct b; [apply clean_relax|auto].
  - cbn [String.append Spec.clean_name].
    destruct (Spec.underscore_or_space c);
      intros H; apply andb_true_iff in H; destruct H as [_ H];
      now apply IH in H.
Qed.

Lemma clean_join (b : bool) (a t : string) :
  Spec.clean_name b a = true -> Spec.clean_name false t = true ->
  Spec.clean_name b (a ++ String "." t) = true.
Proof.
  revert b; induction a as [|c a IH]; intros b Ha Ht.
  - cbn [String.append Spec.clean_name].
    change (Spec.underscore_or_space ".") with false. cbn. exact Ht.
  - cbn [String.append Spec.clean_name] in *.
    destruct (Spec.underscore_or_space c);
      apply andb_true_iff in Ha; destruct Ha as [-> Ha];
      now rewrite (IH _ Ha Ht).
Qed.

(** A clean name in plain words *)
Lemma clean_plain (b : bool) (s : string) :
  Spec.clean_name b s = true ->
  PyStr.all_chars Spec.safe_char s = true /\ PyStr.contains "__" s = false.
Proof.
  revert b; induction s as [|c s IH]; intros b; [split; reflexivity|].
  cbn [Spec.clean_name].
  destruct (Spec.underscore_or_space c) eqn:Ec.
  - intros H. apply andb_true_iff in H. destruct H as [H Hs].
    apply andb_true_iff in H. destruct H as [Hc _].
    apply Ascii.eqb_eq in Hc. subst c.
    destruct (IH true Hs) as [Hall Hno]. split.
    + cbn [PyStr.all_chars]. rewrite Hall. reflexivity.
    + cbn [PyStr.contains]. 
      assert (Hp : String.prefix "__" (String "_" s) = false).
      { destruct s as [|d s']; [reflexivity|].
        cbn [Spec.clean_name] in Hs.
        cbn [String.prefix]. destruct (ascii_dec "_" "_"); [|congruence].
        destruct (ascii_dec "_" d) as [<-|]; [|reflexivity].
        change (Spec.underscore_or_space "_") with true in Hs.
        cbn in Hs. discriminate. }
      rewrite Hp. exact Hno.
  - intros H. apply andb_true_iff in H. destruct H as [Hc Hs].
    destruct (IH false Hs) as [Hall Hno]. split.
    + cbn [PyStr.all_chars]. rewrite Hall, andb_true_r.
      unfold Spec.safe_char. rewrite Hc.
      rewrite uos_spec in Ec. apply orb_false_iff in Ec.
      destruct Ec as [_ ->]. reflexivity.
    + cbn [PyStr.contains].
      assert (Hp : String.prefix "__" (String c s) = false).
      { cbn [String.prefix]. destruct (ascii_dec "_" c) as [<-|];
          [|reflexivity].
        discriminate. }
      rewrite Hp. exact Hno.
Qed.

Lemma plain_clean (b : bool) (s : string) :
  PyStr.all_chars Spec.safe_char s = true ->
  PyStr.contains "__" s = false ->
  (b = true -> String.prefix "_" s = false) ->
  Spec.clean_name b s = true.
Proof.
  revert b; induction s as [|c s IH]; intros b Hall Hno Hb; [reflexivity|].
  cbn [PyStr.all_chars] in Hall. apply andb_true_iff in Hall.
  destruct Hall as [Hc Hall].
  cbn [PyStr.contains] in Hno.
  destruct (String.prefix "__" (String c s)) eqn:Ep; [discriminate|].
  unfold Spec.safe_char in Hc. apply andb_true_iff in Hc.
  destruct Hc as [Hu Hsp]. apply negb_true_iff in Hsp.
  cbn [Spec.clean_name]. rewrite uos_spec, Hsp, orb_false_r.
  destruct (Ascii.eqb_spec c "_") as [->|Hne].
  - cbn [andb]. destruct b.
    + specialize (Hb eq_refl). cbn [String.prefix] in Hb.
      destruct (ascii_dec "_" "_"); [|congruence].
      destruct s; discriminate.
    + cbn [negb andb]. apply IH; auto.
  - rewrite Hu. cbn [andb]. apply IH; auto. discriminate.
Qed.

(** ** The length limit *)

Lemma limit_short (s : string) :
  String.length s <= 100 -> Spec.limit_length s = s.
Proof.
  intros H. unfold Spec.limit_length.
  assert (Nat.ltb 100 (String.length s) = false) as ->
      by (apply Nat.ltb_ge; exact H).
  reflexivity.
Qed.

(** What the limit makes of a long name *)
Lemma limit_long (s : string) :
  100 < String.length s ->
  (PyStr.mem_char "." s = false /\ Spec.limit_length s = PyStr.take 95 s) \/
  (exists name, s = (name ++ ".")%string /\
                Spec.limit_length s = PyStr.take 95 name) \/
  (exists name ext,
      s = (name ++ String "." ext)%string /\ ext <> "" /\
      PyStr.mem_char "." ext = false /\
      Spec.limit_length s = (PyStr.take 95 name ++ String "." ext)%string).
Proof.
  intros H. unfold Spec.limit_length.
  assert (Nat.ltb 100 (String.length s) = true) as ->
      by (apply Nat.ltb_lt; exact H).
  destruct (PyStr.mem_char "." s) eqn:Em.
  - right. destruct (rsplit1_spec "." s Em) as [E Hno].
    destruct (PyStr.rsplit1 "." s) as [name ext]. cbn [fst snd] in *.
    destruct ext as [|e ext].
    + left. exists name. split; [exact E|]. cbn [PyStr.truthy].
      now rewrite append_empty_r.
    + right. exists name, (String e ext).
      split; [exact E|]. split; [discriminate|]. split; [exact Hno|].
      reflexivity.
  - left. split; [reflexivity|]. cbn [PyStr.truthy].
    now rewrite append_empty_r.
Qed.

Lemma limit_limit (s : string) :
  Spec.limit_length (Spec.limit_length s) = Spec.limit_length s.
Proof.
  destruct (Nat.le_gt_cases (String.length s) 100) as [Hle|Hgt].
  - rewrite (limit_short s Hle). exact (limit_short s Hle).
  - destruct (limit_long s Hgt)
      as [[_ ->]|[(name & _ & ->)|(name & ext & _ & Hne & Hno & ->)]].
    + apply limit_short. pose proof (take_length_le 95 s). lia.
    + apply limit_short. pose proof (take_length_le 95 name). lia.
    + set (out := (PyStr.take 95 name ++ String "." ext)%string).
      destruct (Nat.le_gt_cases (String.length out) 100) as [Hle|Hgt'].
      * now apply limit_short.
      * destruct (limit_long out Hgt')
          as [[Hm _]|[(n' & E' & _)|(n' & e' & E' & _ & Hno' & ->)]].
        -- unfold out in Hm. rewrite mem_char_app in Hm.
           cbn [PyStr.mem_char] in Hm. rewrite Ascii.eqb_refl in Hm.
           rewrite orb_true_r in Hm. discriminate.
        -- exfalso. unfold out in E'.
           assert (Hr := rsplit1_unique "." (PyStr.take 95 name) ext Hno).
           rewrite E' in Hr.
           rewrite (rsplit1_unique "." n' "" eq_refl) in Hr.
           pose proof (f_equal snd Hr) as He. cbn [snd] in He. congruence.
        -- unfold out in E'.
           assert (Hr := rsplit1_unique "." (PyStr.take 95 name) ext Hno).
           rewrite E' in Hr. rewrite (rsplit1_unique "." n' e' Hno') in Hr.
           pose proof (f_equal fst Hr) as Hn. pose proof (f_equal snd Hr) as He.
           cbn [fst snd] in Hn, He. subst n' e'.
           rewrite (take_all 95 (PyStr.take 95 name))
             by apply take_length_le.
           reflexivity.
Qed.

Lemma limit_clean (s : string) :
  Spec.clean_name false s = true ->
  Spec.clean_name false (Spec.limit_length s) = true.
Proof.
  intros Hc.
  destruct (Nat.le_gt_cases (String.length s) 100) as [Hle|Hgt].
  - now rewrite (limit_short s Hle).
  - destruct (limit_long s Hgt)
      as [[_ ->]|[(name & E & ->)|(name & ext & E & _ & _ & ->)]].
    + destruct (take_prefix 95 s) as [r Hr]. rewrite Hr in Hc.
      now apply clean_prefix in Hc.
    + rewrite E in Hc. apply clean_prefix in Hc.
      destruct (take_prefix 95 name) as [r Hr]. rewrite Hr in Hc.
      now apply clean_prefix in Hc.
    + rewrite E in Hc. apply clean_join.
      * apply clean_prefix in Hc.
        destruct (take_prefix 95 name) as [r Hr]. rewrite Hr in Hc.
        now apply clean_prefix in Hc.
      * change (name ++ String "." ext)%string
          with (name ++ (String "." "" ++ ext))%string in Hc.
        rewrite <- append_assoc in Hc. now apply clean_suffix in Hc.
Qed.

Lemma limit_bound (s : string) :
  String.length (Spec.limit_length s)
  <= Nat.max 100 (96 + String.length (Spec.extension s)).
Proof.
  destruct (Nat.le_gt_cases (String.length s) 100) as [Hle|Hgt].
  - rewrite limit_short by exact Hle. lia.
  - destruct (limit_long s Hgt)
      as [[_ ->]|[(name & _ & ->)|(name & ext & E & _ & Hno & ->)]].
    + pose proof (take_length_le 95 s). lia.
    + pose proof (take_length_le 95 name). lia.
    + unfold Spec.extension. subst s.
      rewrite mem_char_app. cbn [PyStr.mem_char]. rewrite Ascii.eqb_refl.
      rewrite orb_true_r. rewrite rsplit1_unique by exact Hno. cbn [snd].
      rewrite append_length. cbn [String.length].
      pose proof (take_length_le 95 name). lia.
Qed.

(** The two [re.sub] do not lengthen the extension. *)
Lemma cleaned_extension (filename : string) :
  String.length (Spec.extension (Spec.cleaned filename))
  <= String.length (Spec.extension filename).
Proof.
  unfold Spec.extension.
  assert (Hm : PyStr.mem_char "." (Spec.cleaned filename)
               = PyStr.mem_char "." filename).
  { unfold Spec.cleaned. rewrite squeeze_by_mem, replace_chars_mem;
      try reflexivity; discriminate. }
  rewrite Hm. destruct (PyStr.mem_char "." filename) eqn:Em; [|auto].
  destruct (rsplit1_spec "." filename Em) as [E Hno].
  destruct (PyStr.rsplit1 "." filename) as [name ext]. cbn [fst snd] in *.
  assert (Hc : Spec.cleaned filename
               = (Spec.squeeze_by Spec.underscore_or_space "_" false
                    (Spec.replace_chars Spec.unsafe "_" name)
                  ++ String "." (Spec.squeeze_by Spec.underscore_or_space "_" false
                                   (Spec.replace_chars Spec.unsafe "_" ext)))%string).
  { unfold Spec.cleaned. rewrite E at 1. rewrite replace_chars_app.
    cbn [Spec.replace_chars].
    change (Spec.unsafe ".") with false. cbn iota.
    now rewrite squeeze_by_app by reflexivity. }
  rewrite Hc, rsplit1_unique.
  - cbn [snd].
    etransitivity; [apply squeeze_by_length|].
    now rewrite replace_chars_length.
  - rewrite squeeze_by_mem, replace_chars_mem;
      try reflexivity; try discriminate. exact Hno.
Qed.

End Sanitize.

(** X11. The name [sanitize_filename] returns holds none
    of the characters it replaces (less-than, greater-than, colon, double
    quote, slash, backslash, bar, question mark, star), no whitespace, and
    no two underscores in a row. *)
Theorem sanitize_filename_clean (filename : string) :
  PyStr.all_chars Spec.safe_char (DownloadDocs.sanitize_filename filename)
  = true /\
  PyStr.contains "__" (DownloadDocs.sanitize_filename filename) = false.
Proof.
  rewrite sanitize_filename_steps.
  apply (clean_plain false), limit_clean, cleaned_clean.
Qed.

(** X12. [sanitize_filename] is idempotent: a name
    that went through it comes out of it unchanged. *)
Theorem sanitize_filename_idempotent (filename : string) :
  DownloadDocs.sanitize_filename (DownloadDocs.sanitize_filename filename)
  = DownloadDocs.sanitize_filename filename.
Proof.
  rewrite !sanitize_filename_steps.
  pose proof (limit_clean _ (cleaned_clean filename)) as Hc.
  destruct (clean_fixed false _ Hc) as [E1 E2].
  assert (E : Spec.cleaned (Spec.limit_length (Spec.cleaned filename))
              = Spec.limit_length (Spec.cleaned filename))
    by (unfold Spec.cleaned at 1; now rewrite E1, E2).
  rewrite E. apply limit_limit.
Qed.

(** X13. The name [sanitize_filename] returns has at most
    100 characters, or at most 95 characters, a period and the extension
    of the given name (what follows its last period): the limit of 100
    holds whenever the extension has at most 4 characters, and it does not
    hold for every name. *)
Theorem sanitize_filename_length :
  (forall filename : string,
      String.length (DownloadDocs.sanitize_filename filename)
      <= Nat.max 100 (96 + String.length (Spec.extension filename))) /\
  (exists filename : string,
      100 < String.length (DownloadDocs.sanitize_filename filename)).
Proof.
  split.
  - intros filename. rewrite sanitize_filename_steps.
    etransitivity; [apply limit_bound|].
    pose proof (cleaned_extension filename). cbn zeta in *. lia.
  - exists ("a." ++ String.concat "" (repeat "bbbbbbbbbb" 12))%string.
    vm_compute. lia.
Qed.

(** X14. [sanitize_filename] returns unchanged a name of
    at most 100 characters that holds none of the characters it replaces,
    no whitespace, and no two underscores in a row. *)
Theorem sanitize_filename_fixed (filename : string) :
  PyStr.all_chars Spec.safe_char filename = true ->
  PyStr.contains "__" filename = false ->
  String.length filename <= 100 ->
  DownloadDocs.sanitize_filename filename = filename.
Proof.
  intros Hall Hno Hlen. rewrite sanitize_filename_steps.
  assert (Hc : Spec.clean_name false filename = true)
    by (apply plain_clean; auto; discriminate).
  destruct (clean_fixed false _ Hc) as [E1 E2].
  unfold Spec.cleaned. rewrite E1, E2. now apply limit_short.
Qed.

Lemma sanitize_filename_fixed_witness :
  PyStr.all_chars Spec.safe_char "Acme_VoIP_Application.pdf" = true /\
  PyStr.contains "__" "Acme_VoIP_Application.pdf" = false /\
  String.length "Acme_VoIP_Application.pdf" <= 100 /\
  DownloadDocs.sanitize_filename "Acme_VoIP_Application.pdf"
  = "Acme_VoIP_Application.pdf".
Proof.
  split; [reflexivity|]. split; [reflexivity|]. split; [cbn; lia|].
  apply sanitize_filename_fixed; [reflexivity|reflexivity|cbn; lia].
Defined.

(* ================================================================== *)
(** * src/download_docs.py: [download_document] *)

Section DownloadAttempts.

Import DownloadDocs.

Variables viewer_url download output_filename : string.
Variable get : nat -> reply.

(** A reply that ends the attempts *)
Lemma policy_final (a n : nat) (r : result) :
  Spec.final_reply (get a) = true ->
  requests r = 0 -> slept r = [] ->
  result_filename r = output_filename ->
  (status r = "success" /\
   exists content content_type,
     get a = Response 200 content content_type /\
     written r = Some content /\ size r = Some (String.length content)) \/
  (status r = "failed" /\ written r = None) ->
  Spec.attempts_policy get output_filename a (S n) (one_more_request r).
Proof.
  intros Hfinal Hreq Hslept Hname Hstatus.
  unfold Spec.attempts_policy, one_more_request.
  cbn [requests slept result_filename status written size].
  rewrite Hreq, Hslept.
  replace (a + 1 - 1) with a by lia.
  split; [lia|]. split; [intros i Hi Hlt; lia|].
  split; [intros _; split; [lia|exact Hfinal]|].
  split; [cbn; lia|]. split; [intros s []|]. split; [exact Hname|].
  destruct Hstatus as [[Hs (content & ct & Hg & Hw & Hsz)]|[Hs Hw]].
  - split; [now left|]. split.
    + split; [intros _; congruence|auto].
    + intros _. exists content, ct. auto.
  - split; [now right|]. split.
    + rewrite Hs, Hw. split; [discriminate|congruence].
    + congruence.
Qed.

(** A reply after which the next attempt is made, with or without a
    sleep before it *)
Lemma policy_retry (a n : nat) (r : result) (wait : list nat) :
  a + S n = 3 ->
  Spec.final_reply (get a) = false ->
  Spec.attempts_policy get output_filename (S a) n r ->
  wait = [] \/ (a < 2 /\ wait = [nth a RETRY_BACKOFF 0]) ->
  Spec.attempts_policy
    get output_filename a (S n)
    {| result_url := result_url r; download_url := download_url r;
       result_filename := result_filename r; status := status r;
       message := message r; size := size r;
       result_content_type := result_content_type r;
       requests := S (requests r); slept := wait ++ slept r;
       written := written r |}.
Proof.
  intros Ha Hfinal (H1 & H2 & H3 & H4 & H5 & H6 & H7 & H8 & H9) Hwait.
  unfold Spec.attempts_policy.
  cbn [requests slept result_filename status written size].
  replace (a + S (requests r) - 1) with (S a + requests r - 1) by lia.
  assert (Hskip : skipn a [1; 3]
                  = firstn (2 - a) (skipn a [1; 3])
                    /\ (a < 2 -> skipn a [1; 3]
                                 = nth a RETRY_BACKOFF 0 :: skipn (S a) [1; 3])
                    /\ (forall s, In s (skipn (S a) [1; 3])
                                  -> In s (skipn a [1; 3]))
                    /\ list_sum (skipn (S a) [1; 3])
                       <= list_sum (skipn a [1; 3])).
  { destruct a as [|[|a]]; cbn; repeat split; auto; try lia;
      try (intros s []); try (destruct a; cbn; auto). }
  destruct Hskip as (_ & Hhead & Hin & Hsum).
  split; [lia|]. split.
  { intros i Hi Hlt. destruct (Nat.eq_dec i a) as [->|Hne]; [exact Hfinal|].
    apply H2; lia. }
  split.
  { intros Hlt. destruct (H3 ltac:(lia)) as [Hpos Hf]. split; [lia|exact Hf]. }
  split.
  { destruct Hwait as [->|[Hlt ->]]; cbn [app].
    - lia.
    - rewrite (Hhead Hlt). cbn [list_sum fold_right] in *.
      unfold list_sum in *. lia. }
  split.
  { intros s Hs. destruct Hwait as [->|[Hlt ->]]; cbn [app] in Hs.
    - auto.
    - rewrite (Hhead Hlt). destruct Hs as [<-|Hs]; [now left|right; auto]. }
  repeat split; try tauto; try apply H8; auto.
Qed.

Lemma download_attempts_policy (n a : nat) (msg : option string) :
  a + n = 3 ->
  Spec.attempts_policy
    get output_filename a n
    (download_attempts viewer_url download output_filename get (seq a n) msg).
Proof.
  revert a msg; induction n as [|n IH]; intros a msg Ha.
  - unfold Spec.attempts_policy. cbn.
    repeat split; try lia; auto; try discriminate; try tauto.
  - cbn [seq download_attempts]. cbn zeta.
    assert (Hrec : forall msg',
               Spec.attempts_policy
                 get output_filename (S a) n
                 (download_attempts viewer_url download output_filename
                                    get (seq (S a) n) msg'))
      by (intros msg'; apply IH; lia).
    clear IH.
    assert (Hnext : forall msg',
               Spec.final_reply (get a) = false ->
               Spec.attempts_policy
                 get output_filename a (S n)
                 (one_more_request
                    (if Nat.ltb a (MAX_RETRIES - 1)
                     then after_sleep
                            (nth a RETRY_BACKOFF 0)
                            (download_attempts viewer_url download
                               output_filename get (seq (S a) n) (Some msg'))
                     else download_attempts viewer_url download
                            output_filename get (seq (S a) n) (Some msg')))).
    { intros msg' Hf. specialize (Hrec (Some msg')).
      destruct (Nat.ltb a (MAX_RETRIES - 1)) eqn:Elt.
      - apply Nat.ltb_lt in Elt. unfold MAX_RETRIES in Elt.
        apply (policy_retry a n _ [nth a RETRY_BACKOFF 0] Ha Hf Hrec).
        right. split; [lia|reflexivity].
      - apply (policy_retry a n _ [] Ha Hf Hrec). now left. }
    destruct (get a) as [code content ct| |name|text] eqn:Eg.
    + destruct (Nat.eqb code 200) eqn:E200.
      * apply Nat.eqb_eq in E200. subst code.
        destruct (is_error_page content (Py.get_or ct "")) eqn:Eerr.
        -- apply (policy_retry a n _ [] Ha).
           ++ rewrite Eg. cbn [Spec.final_reply]. rewrite Eerr. reflexivity.
           ++ apply Hrec.
           ++ now left.
        -- apply policy_final; try reflexivity.
           ++ rewrite Eg. cbn [Spec.final_reply]. rewrite Eerr. reflexivity.
           ++ left. split; [reflexivity|]. exists content, ct. auto.
      * destruct (Nat.eqb code 404) eqn:E404.
        -- apply policy_final; try reflexivity.
           ++ rewrite Eg. cbn [Spec.final_reply]. rewrite E200, E404.
              reflexivity.
           ++ right. split; reflexivity.
        -- apply Hnext. cbn [Spec.final_reply]. now rewrite E200, E404.
    + apply Hnext. reflexivity.
    + apply Hnext. reflexivity.
    + apply Hnext. reflexivity.
Qed.

End DownloadAttempts.

(** X15. [download_document] sends no request for a
    document whose file is already there. For any other it sends one to
    three requests and stops at the first reply that ends the attempts: a
    200 that is not taken for an HTML error page, whose content it
    writes, or a 404. Its status is success exactly when it wrote the
    file, and the content written is that of the last reply. Between
    requests it sleeps 4 seconds at most in all, and never the third
    backoff of 10 seconds. *)
Theorem download_document_policy
        (doc : Structure.doc_entry) (already_there : string -> bool)
        (get : nat -> DownloadDocs.reply) :
  let r := DownloadDocs.download_document doc already_there get in
  let name :=
    (Py.get_or (Structure.filing_id doc) "None" ++ "_"
     ++ DownloadDocs.sanitize_filename (Structure.filename doc))%string in
  DownloadDocs.result_filename r = name /\
  (already_there name = true ->
   DownloadDocs.status r = "skipped" /\ DownloadDocs.requests r = 0) /\
  (already_there name = false ->
   1 <= DownloadDocs.requests r <= 3 /\
   (DownloadDocs.status r = "success" \/ DownloadDocs.status r = "failed") /\
   (forall i, S i < DownloadDocs.requests r ->
              Spec.final_reply (get i) = false) /\
   (DownloadDocs.requests r < 3 ->
    Spec.final_reply (get (DownloadDocs.requests r - 1)) = true)) /\
  list_sum (DownloadDocs.slept r) <= 4 /\
  ~ In 10 (DownloadDocs.slept r) /\
  (DownloadDocs.status r = "success" <-> DownloadDocs.written r <> None) /\
  (DownloadDocs.written r <> None ->
   exists content content_type,
     get (DownloadDocs.requests r - 1)
     = DownloadDocs.Response 200 content content_type /\
     DownloadDocs.written r = Some content /\
     DownloadDocs.size r = Some (String.length content)).
Proof.
  cbn zeta. unfold DownloadDocs.download_document.
  set (name := (Py.get_or (Structure.filing_id doc) "None" ++ "_"
                ++ DownloadDocs.sanitize_filename (Structure.filename doc))%string).
  destruct (already_there name) eqn:Ethere.
  - cbn [DownloadDocs.result_filename DownloadDocs.status
         DownloadDocs.requests DownloadDocs.slept DownloadDocs.written].
    split; [reflexivity|]. split; [auto|]. split; [discriminate|].
    split; [cbn; lia|]. split; [intros []|].
    split; [split; [discriminate|congruence]|congruence].
  - destruct (download_attempts_policy
                (Structure.url doc)
                (DownloadDocs.transform_url (Structure.url doc))
                name get 3 0 None eq_refl)
      as (H1 & H2 & H3 & H4 & H5 & H6 & H7 & H8 & H9).
    change (seq 0 DownloadDocs.MAX_RETRIES) with (seq 0 3).
    set (r := DownloadDocs.download_attempts _ _ _ _ _ _) in *.
    cbn [Nat.add skipn] in *.
    split; [exact H6|]. split; [discriminate|]. split.
    { intros _. split; [|split; [exact H7|split]].
      - destruct (Nat.eq_dec (DownloadDocs.requests r) 3); [lia|].
        destruct (H3 ltac:(lia)); lia.
      - intros i Hi. apply H2; lia.
      - intros Hlt. now destruct (H3 Hlt) as [_ Hf]. }
    split; [change (list_sum [1; 3]) with 4 in H4; exact H4|]. split.
    { intros Hin. apply H5 in Hin.
      destruct Hin as [Hin|[Hin|[]]]; discriminate. }
    split; [exact H8|].
    intros Hw. destruct (H9 Hw) as (content & ct & Hg & Hc & Hs).
    exists content, ct. auto.
Qed.

(* ================================================================== *)
(** * src/structure.py: the keys [normalize_company_name] makes *)

Section KeyShape.

Import Structure.

Lemma is_space_lower (c : ascii) :
  PyStr.is_space (PyStr.lower_char c) = PyStr.is_space c.
Proof. destruct c as [[] [] [] [] [] [] [] []]; reflexivity. Qed.

Lemma lower_lstrip (s : string) :
  PyStr.lower (PyStr.lstrip_by PyStr.is_space s)
  = PyStr.lstrip_by PyStr.is_space (PyStr.lower s).
Proof.
  induction s as [|c s IH]; [reflexivity|].
  cbn [PyStr.lower PyStr.lstrip_by]. rewrite is_space_lower.
  destruct (PyStr.is_space c); [exact IH|reflexivity].
Qed.

Lemma lower_rstrip (s : string) :
  PyStr.lower (PyStr.rstrip_by PyStr.is_space s)
  = PyStr.rstrip_by PyStr.is_space (PyStr.lower s).
Proof.
  induction s as [|c s IH]; [reflexivity|].
  cbn [PyStr.lower PyStr.rstrip_by]. rewrite <- IH, is_space_lower.
  destruct (PyStr.rstrip_by PyStr.is_space s); cbn [PyStr.lower];
    [destruct (PyStr.is_space c)|]; reflexivity.
Qed.

Lemma lower_strip (s : string) :
  PyStr.lower (PyStr.strip s) = PyStr.strip (PyStr.lower s).
Proof. unfold PyStr.strip. now rewrite lower_rstrip, lower_lstrip. Qed.

Lemma lower_lower (s : string) : PyStr.lower (PyStr.lower s) = PyStr.lower s.
Proof. apply lower_fix, lower_is_lower. Qed.

(** The first character of what [rstrip] leaves is that of the string. *)
Lemma rstrip_by_first p q (s : string) :
  match s with EmptyString => true | String c _ => negb (q c) end = true ->
  match PyStr.rstrip_by p s with
  | EmptyString => true
  | String c _ => negb (q c)
  end = true.
Proof.
  destruct (rstrip_by_split p s) as [r [E _]].
  destruct (PyStr.rstrip_by p s) as [|c t]; [reflexivity|].
  rewrite E. cbn [String.append]. auto.
Qed.

(** The name after its rules, in the rest of [normalize_company_name] *)
Lemma normalize_steps (name : string) :
  name <> "" ->
  normalize_company_name name
  = PyStr.rstrip_dot_comma
      (PyStr.strip
         (Spec.squeeze false
            (apply_suffixes (PyStr.strip (PyStr.lower name))))).
Proof.
  intros Hne. unfold normalize_company_name.
  destruct name; [congruence|]. cbn [PyStr.truthy negb].
  now rewrite collapse_squeeze.
Qed.

End KeyShape.

(** X16. The key [normalize_company_name] returns is in
    lower case, its only whitespace is single spaces between other
    characters or one space at its end, it does not begin with whitespace
    and does not end with a period or a comma. It can end with a space:
    the last step strips periods and commas only. *)
Theorem normalize_company_name_shape :
  (forall name : string,
      let key := Structure.normalize_company_name name in
      PyStr.lower key = key /\
      Spec.single_spaced false key = true /\
      PyStr.lstrip_by PyStr.is_space key = key /\
      PyStr.ends_with (fun c => (Ascii.eqb c "." || Ascii.eqb c ",")%bool) key
      = false) /\
  (exists name : string,
      PyStr.ends_with PyStr.is_space (Structure.normalize_company_name name)
      = true).
Proof.
  split; [|exists "Acme ."; reflexivity].
  intros name. cbn zeta.
  destruct (string_dec name "") as [->|Hne]; [repeat split; reflexivity|].
  rewrite (normalize_steps name Hne).
  set (z := PyStr.strip (PyStr.lower name)).
  set (w := PyStr.strip (Spec.squeeze false (Structure.apply_suffixes z))).
  assert (Hnl_z : PyStr.ends_with_newline z = false)
    by apply strip_no_newline.
  assert (Hlow : PyStr.all_chars PyStr.is_lower w = true).
  { apply all_chars_strip, all_chars_squeeze; [reflexivity|].
    apply apply_suffixes_all_chars; [reflexivity|exact Hnl_z|].
    apply all_chars_strip, lower_is_lower. }
  assert (Hss : Spec.single_spaced false w = true)
    by apply single_spaced_strip, squeeze_single_spaced.
  assert (Hfirst : match w with
                   | EmptyString => true
                   | String c _ => negb (PyStr.is_space c)
                   end = true).
  { unfold w, PyStr.strip. apply rstrip_by_starts, lstrip_by_starts. }
  unfold PyStr.rstrip_dot_comma.
  set (p := fun c => (Ascii.eqb c "." || Ascii.eqb c ",")%bool).
  destruct (rstrip_by_split p w) as [r [E _]].
  split; [apply lower_fix, all_chars_rstrip, Hlow|].
  split; [rewrite E in Hss; now apply single_spaced_prefix in Hss|].
  split; [apply lstrip_by_fix, rstrip_by_first, Hfirst|].
  apply rstrip_by_ends.
Qed.

(** X17. [normalize_company_name] does not tell
    apart two names that differ only in the case of their letters, nor a
    name from the same name with whitespace around it. *)
Theorem normalize_company_name_insensitive :
  (forall x y : string,
      PyStr.lower x = PyStr.lower y ->
      Structure.normalize_company_name x
      = Structure.normalize_company_name y) /\
  (forall x : string,
      Structure.normalize_company_name (PyStr.strip x)
      = Structure.normalize_company_name x).
Proof.
  split.
  - intros x y E. unfold Structure.normalize_company_name.
    assert (Ht : PyStr.truthy x = PyStr.truthy y).
    { destruct x, y; try reflexivity; discriminate. }
    now rewrite Ht, E.
  - intros x.
    destruct (string_dec x "") as [->|Hx]; [reflexivity|].
    rewrite (normalize_steps x Hx).
    destruct (string_dec (PyStr.strip x) "") as [E|Hs].
    + rewrite E. rewrite <- lower_strip, E. reflexivity.
    + rewrite (normalize_steps _ Hs).
      now rewrite lower_strip, strip_strip.
Qed.

(* ================================================================== *)
(** * src/structure.py: the spellings of a suffix *)

Section Spellings.

Import Re Structure.

Lemma rule_spelled (k : nat) (rule : pattern * string) :
  nth_error suffixes k = Some rule ->
  exists body w,
    nth_error Spec.suffix_words k = Some w /\
    fst rule = sep ++ body ++ [Eos] /\
    Spec.spelled body w /\
    snd rule = (" " ++ w)%string.
Proof.
  intros H.
  exists (removelast (skipn 3 (fst rule))).
  do 8 (destruct k as [|k];
        [injection H as <-; eexists;
         split; [reflexivity|]; split; [reflexivity|];
         split; [|reflexivity];
         cbn;
         repeat (first [apply Spec.spelled_letter_dot
                       |apply Spec.spelled_letter
                       |apply Spec.spelled_nil])|]).
  destruct k; discriminate.
Qed.

Lemma lang_spelled body w pat (m rest : string) :
  Spec.spelled body w ->
  lang (body ++ pat) m rest ->
  exists u m', In u (Spec.dot_forms w) /\ m = (u ++ m')%string /\
               lang pat m' rest.
Proof.
  intros Hs. revert m; induction Hs as [|a body w Hs IH|a body w Hs IH];
    intros m H; cbn [app] in H.
  - exists "", m. cbn. auto.
  - inversion H as [|p pt c s r Hp Hn| | | | | | |]; subst.
    apply Ascii.eqb_eq in Hp. subst c.
    destruct (IH _ Hn) as (u & m' & Hu & -> & Hm).
    exists (String a u), m'. split; [|auto].
    cbn [Spec.dot_forms]. apply in_flat_map. exists u. cbn. auto.
  - inversion H as [|p pt c s r Hp Hn| | | | | | |]; subst.
    apply Ascii.eqb_eq in Hp. subst c.
    inversion Hn as [| |p pt s0 r Hs0|p pt c s0 r Hp Hs0| | | | |]; subst.
    + destruct (IH _ Hs0) as (u & m' & Hu & -> & Hm).
      exists (String a u), m'. split; [|auto].
      cbn [Spec.dot_forms]. apply in_flat_map. exists u. cbn. auto.
    + apply Ascii.eqb_eq in Hp. subst c.
      destruct (IH _ Hs0) as (u & m' & Hu & -> & Hm).
      exists (String a (String "." u)), m'. split; [|auto].
      cbn [Spec.dot_forms]. apply in_flat_map. exists u. cbn. auto.
Qed.

Lemma undot_app (a b : string) :
  Spec.undot (a ++ b) = (Spec.undot a ++ Spec.undot b)%string.
Proof.
  induction a as [|c a IH]; [reflexivity|].
  cbn [String.append Spec.undot]. destruct (Ascii.eqb c ".");
    [exact IH|cbn [String.append]; now rewrite IH].
Qed.

Lemma dot_forms_undot (w u : string) :
  PyStr.mem_char "." w = false ->
  In u (Spec.dot_forms w) -> Spec.undot u = w.
Proof.
  revert u; induction w as [|a w IH]; intros u Hw Hu.
  - destruct Hu as [<-|[]]. reflexivity.
  - cbn [PyStr.mem_char] in Hw. apply orb_false_iff in Hw.
    destruct Hw as [Ha Hw]. rewrite Ascii.eqb_sym in Ha.
    cbn [Spec.dot_forms] in Hu. apply in_flat_map in Hu.
    destruct Hu as (u' & Hu' & [<-|[<-|[]]]);
      cbn [Spec.undot]; rewrite Ha; cbn [Ascii.eqb]; rewrite ?Ascii.eqb_refl;
      now rewrite (IH u' Hw Hu').
Qed.

Lemma dot_forms_head (a : ascii) (w u : string) :
  In u (Spec.dot_forms (String a w)) -> exists u', u = String a u'.
Proof.
  cbn [Spec.dot_forms]. intros Hu. apply in_flat_map in Hu.
  destruct Hu as (u' & _ & [<-|[<-|[]]]); eauto.
Qed.

Lemma dot_forms_chars (q : ascii -> bool) (w u : string) :
  q "."%char = true -> PyStr.all_chars q w = true ->
  In u (Spec.dot_forms w) -> PyStr.all_chars q u = true.
Proof.
  intros Hq. revert u; induction w as [|a w IH]; intros u Hw Hu.
  - destruct Hu as [<-|[]]. reflexivity.
  - cbn [PyStr.all_chars] in Hw. apply andb_true_iff in Hw.
    destruct Hw as [Ha Hw].
    cbn [Spec.dot_forms] in Hu. apply in_flat_map in Hu.
    destruct Hu as (u' & Hu' & [<-|[<-|[]]]);
      cbn [PyStr.all_chars]; rewrite Ha, ?Hq, (IH u' Hw Hu'); reflexivity.
Qed.

(** What [\s*,?\s*] matches is whitespace and commas. *)
Lemma lang_sep_inv pat (m rest : string) :
  lang (sep ++ pat) m rest ->
  exists sp m',
    m = (sp ++ m')%string /\
    PyStr.all_chars (fun c => negb (Spec.name_char c)) sp = true /\
    lang pat m' rest.
Proof.
  assert (Hw : forall a, PyStr.all_chars space a = true ->
                         PyStr.all_chars (fun c => negb (Spec.name_char c)) a
                         = true).
  { intros a. apply all_chars_weaken. intros c Hc.
    unfold Spec.name_char, space in *. now rewrite Hc. }
  unfold sep. cbn [app]. intros H.
  apply lang_star_inv in H. destruct H as (a & t1 & -> & Ha & H).
  inversion H as [| |p pt s0 r Hs0|p pt c s0 r Hp Hs0| | | | |]; subst.
  - apply lang_star_inv in Hs0. destruct Hs0 as (a2 & m' & -> & Ha2 & Hm).
    exists (a ++ a2)%string, m'. rewrite append_assoc.
    split; [reflexivity|]. split; [|exact Hm].
    rewrite all_chars_app, (Hw a Ha), (Hw a2 Ha2). reflexivity.
  - apply Ascii.eqb_eq in Hp. subst c.
    apply lang_star_inv in Hs0. destruct Hs0 as (a2 & m' & -> & Ha2 & Hm).
    exists (a ++ String "," a2)%string, m'. rewrite append_assoc.
    split; [reflexivity|]. split; [|exact Hm].
    rewrite all_chars_app, (Hw a Ha). cbn [PyStr.all_chars].
    rewrite (Hw a2 Ha2). reflexivity.
Qed.

(** What a rule matches in full: whitespace and commas, then a spelling
    of its word *)
Lemma rule_lang_forms (k : nat) (rule : pattern * string) (w m : string) :
  nth_error suffixes k = Some rule ->
  nth_error Spec.suffix_words k = Some w ->
  lang (fst rule) m "" ->
  exists sp u,
    m = (sp ++ u)%string /\
    PyStr.all_chars (fun c => negb (Spec.name_char c)) sp = true /\
    In u (Spec.dot_forms w).
Proof.
  intros Hrule Hw H.
  destruct (rule_spelled k rule Hrule) as (body & w' & Hw' & Hpat & Hsp & _).
  assert (w' = w) as -> by congruence.
  rewrite Hpat in H. apply lang_sep_inv in H.
  destruct H as (sp & m' & -> & Hsep & H).
  apply (lang_spelled body w [Eos]) in H; [|exact Hsp].
  destruct H as (u & m2 & Hu & -> & H).
  apply lang_eos_inv in H. destruct H as [<- _].
  exists sp, u. rewrite append_empty_r. auto.
Qed.

(** A match that reaches the end of a string without final newline *)
Lemma match_to_end (k : nat) (rule : pattern * string) (x m : string) :
  nth_error suffixes k = Some rule ->
  PyStr.ends_with_newline (x ++ m) = false ->
  succeeds (match_items (fst rule) m) ->
  lang (fst rule) m "".
Proof.
  intros Hrule Hnl [[segs rest] Hm].
  pose proof (match_items_lang _ _ _ _ Hm) as Hl.
  destruct (suffix_rule_shape rule (nth_error_In _ _ Hrule))
    as ((its & Hits) & _).
  pose proof Hm as Hm'. rewrite Hits in Hm'.
  apply match_items_eos in Hm'.
  apply match_items_sound in Hm. rewrite Hm, <- append_assoc in Hnl.
  now rewrite (at_end_no_newline _ _ Hm' Hnl) in Hl.
Qed.

Lemma suffix_word_plain (k : nat) (w : string) :
  nth_error Spec.suffix_words k = Some w ->
  PyStr.mem_char "." w = false /\
  PyStr.all_chars Spec.name_char w = true /\
  exists a w', w = String a w' /\ a <> "."%char.
Proof.
  intros H.
  do 8 (destruct k as [|k];
        [injection H as <-; split; [reflexivity|]; split; [reflexivity|];
         eexists; eexists; split; [reflexivity|discriminate]|]).
  destruct k; discriminate.
Qed.

(** A rule is quiet on a string that ends with a spelling of another
    word, when neither word ends with the other. *)
Lemma rule_quiet_on (j : nat) (rule_j : pattern * string)
      (w_j w x u s : string) :
  nth_error suffixes j = Some rule_j ->
  nth_error Spec.suffix_words j = Some w_j ->
  PyStr.ends_with_newline s = false ->
  s = (x ++ u)%string ->
  Spec.undot u = w ->
  PyStr.is_suffix w w_j = false ->
  PyStr.is_suffix w_j w = false ->
  search (fst rule_j) s = false.
Proof.
  intros Hrule Hw Hnl Hs Hu H1 H2.
  destruct (search (fst rule_j) s) eqn:E; [exfalso|reflexivity].
  apply search_split in E. destruct E as (a & m & Ham & Hm).
  rewrite Ham in Hnl.
  pose proof (match_to_end j rule_j a m Hrule Hnl Hm) as Hl.
  destruct (rule_lang_forms j rule_j w_j m Hrule Hw Hl)
    as (sp & u_j & -> & _ & Hu_j).
  destruct (suffix_word_plain j w_j Hw) as (Hnd & _ & _).
  apply (dot_forms_undot w_j u_j Hnd) in Hu_j.
  assert (Heq : (Spec.undot x ++ w)%string
                = (Spec.undot (a ++ sp) ++ w_j)%string).
  { rewrite <- Hu, <- Hu_j, <- !undot_app, <- Hs, Ham.
    now rewrite append_assoc. }
  apply tails_comparable in Heq. destruct Heq; congruence.
Qed.

Lemma ends_with_neg p (s : string) :
  PyStr.ends_with p s = true ->
  PyStr.ends_with (fun c => negb (p c)) s = false.
Proof.
  induction s as [|c s IH]; [discriminate|].
  destruct s as [|d s]; [cbn; now intros ->|].
  rewrite !ends_with_cons. exact IH.
Qed.

(** A rule that matches a tail, after a character that is neither
    whitespace nor a comma, rewrites that tail. *)
Lemma rule_rewrites_spelling (k : nat) (rule : pattern * string)
      (w pre t : string) :
  nth_error suffixes k = Some rule ->
  nth_error Spec.suffix_words k = Some w ->
  PyStr.ends_with Spec.name_char pre = true ->
  PyStr.ends_with_newline (pre ++ t) = false ->
  lang (fst rule) t "" ->
  apply_rule (pre ++ t) rule = (pre ++ " " ++ w)%string.
Proof.
  intros Hrule Hw Hpre Hnl Hl.
  destruct (suffix_rule_shape rule (nth_error_In _ _ Hrule))
    as ((its & Hits) & Hempty & _).
  destruct (rule_spelled k rule Hrule) as (body & w' & Hw' & _ & _ & Hrepl).
  assert (w' = w) as -> by congruence.
  destruct (suffix_word_plain k w Hw) as (Hnd & _ & a0 & w0 & Ew & Ha0).
  destruct (rule_lang_forms k rule w t Hrule Hw Hl) as (sp & u & Et & Hsp & Hu).
  unfold apply_rule. rewrite Hrepl.
  rewrite Hits in Hempty |- *. rewrite sub_rewrite_tail by assumption.
  rewrite <- Hits in *.
  apply rewrite_tail_at; [|now apply lang_match_items in Hl].
  intros a b Hab Hb.
  destruct (match_items (fst rule) (b ++ t)) as [r|] eqn:Em; [exfalso|auto].
  assert (Hl2 : lang (fst rule) (b ++ t) "").
  { apply (match_to_end k rule a); [exact Hrule| |now exists r].
    now rewrite <- append_assoc, <- Hab. }
  destruct (rule_lang_forms k rule w _ Hrule Hw Hl2)
    as (sp2 & u2 & E2 & Hsp2 & Hu2).
  rewrite Et, <- append_assoc in E2.
  assert (Huu : u2 = u).
  { pose proof (dot_forms_undot w u Hnd Hu) as Hun.
    pose proof (dot_forms_undot w u2 Hnd Hu2) as Hun2.
    rewrite Ew in Hu, Hu2.
    destruct (dot_forms_head _ _ _ Hu) as [u' Eu].
    destruct (dot_forms_head _ _ _ Hu2) as [u2' Eu2].
    destruct (tails_comparable _ _ _ _ E2) as [Hs|Hs];
      apply is_suffix_spec in Hs; destruct Hs as [c Hc].
    - (* u2 = c ++ u *)
      destruct c as [|d c]; [exact Hc|exfalso].
      rewrite Hc, undot_app, Hun in Hun2.
      assert (Hd : Spec.undot (String d c) = "").
      { apply (append_inv_r _ "" w). exact Hun2. }
      rewrite Eu2 in Hc. cbn [String.append] in Hc.
      injection Hc as <- _.
      cbn [Spec.undot] in Hd.
      destruct (Ascii.eqb_spec a0 "."); [congruence|discriminate].
    - (* u = c ++ u2 *)
      destruct c as [|d c]; [now rewrite Hc|exfalso].
      rewrite Hc, undot_app, Hun2 in Hun.
      assert (Hd : Spec.undot (String d c) = "").
      { apply (append_inv_r _ "" w). exact Hun. }
      rewrite Eu in Hc. cbn [String.append] in Hc.
      injection Hc as <- _.
      cbn [Spec.undot] in Hd.
      destruct (Ascii.eqb_spec a0 "."); [congruence|discriminate]. }
  subst u2. apply append_inv_r in E2.
  assert (Hbq : PyStr.all_chars (fun c => negb (Spec.name_char c)) b = true).
  { rewrite <- E2, all_chars_app in Hsp2.
    now apply andb_true_iff in Hsp2. }
  pose proof (all_chars_ends _ a b Hbq Hb) as He.
  rewrite <- Hab in He. apply ends_with_neg in He.
  assert (Hsame : PyStr.ends_with
                    (fun c => negb (negb (Spec.name_char c))) pre
                  = PyStr.ends_with Spec.name_char pre).
  { clear. induction pre as [|c s IH]; [reflexivity|].
    destruct s as [|d s]; [cbn; apply negb_involutive|].
    rewrite !ends_with_cons. exact IH. }
  congruence.
Qed.

End Spellings.

Section SpellingsShareKey.

Import Re Structure.

Lemma In_firstn_nth {T} (k : nat) (l : list T) (x : T) :
  In x (firstn k l) -> exists j, j < k /\ nth_error l j = Some x.
Proof.
  revert l; induction k as [|k IH]; intros l; [intros []|].
  destruct l as [|y l]; [intros []|]. cbn [firstn].
  intros [<-|Hin].
  - exists 0. split; [lia|reflexivity].
  - destruct (IH l Hin) as (j & Hj & Hn). exists (S j). split; [lia|exact Hn].
Qed.

Lemma skipn_nth {T} (k : nat) (l : list T) (x : T) :
  nth_error l k = Some x -> skipn k l = x :: skipn (S k) l.
Proof.
  revert l; induction k as [|k IH]; intros [|y l]; try discriminate.
  - now intros [= ->].
  - cbn [nth_error]. intros H. exact (IH l H).
Qed.

(** No word before one of these in the table ends with it, or is the
    end of it. *)
Lemma words_apart (k j : nat) (w w_j : string) :
  In k [0; 1; 2; 3; 5; 6] -> j < k ->
  nth_error Spec.suffix_words k = Some w ->
  nth_error Spec.suffix_words j = Some w_j ->
  PyStr.is_suffix w w_j = false /\ PyStr.is_suffix w_j w = false.
Proof.
  intros Hk Hj Hw Hwj. cbn [In] in Hk.
  repeat (destruct Hk as [<-|Hk];
          [injection Hw as <-;
           do 6 (destruct j as [|j];
                 [try lia; injection Hwj as <-; split; reflexivity|]);
           lia|]).
  destruct Hk.
Qed.

(** The table on a name that ends with a spelling of one of these
    words: the rules before the word's are quiet, and its rule puts the
    canonical suffix. *)
Lemma spelling_rewritten (k : nat) (rule : pattern * string)
      (w pre t : string) :
  In k [0; 1; 2; 3; 5; 6] ->
  nth_error suffixes k = Some rule ->
  nth_error Spec.suffix_words k = Some w ->
  PyStr.ends_with Spec.name_char pre = true ->
  PyStr.ends_with_newline (pre ++ t) = false ->
  lang (fst rule) t "" ->
  apply_suffixes (pre ++ t)
  = fold_left apply_rule (skipn (S k) suffixes) (pre ++ " " ++ w)%string.
Proof.
  intros Hk Hrule Hw Hpre Hnl Hl.
  unfold apply_suffixes.
  rewrite <- (firstn_skipn k suffixes) at 1.
  rewrite fold_left_app, (skipn_nth k suffixes rule Hrule).
  cbn [fold_left].
  rewrite (fold_fixed apply_rule (firstn k suffixes) (pre ++ t)%string).
  - now rewrite (rule_rewrites_spelling k rule w pre t).
  - intros r Hr. apply In_firstn_nth in Hr. destruct Hr as (j & Hj & Hrj).
    apply rule_quiet_unchanged;
      [exact (nth_error_In _ _ Hrj)|exact Hnl|].
    destruct (rule_spelled j r Hrj) as (_ & w_j & Hwj & _).
    destruct (words_apart k j w w_j Hk Hj Hw Hwj) as [H1 H2].
    destruct (rule_lang_forms k rule w t Hrule Hw Hl)
      as (sp & u & -> & _ & Hu).
    destruct (suffix_word_plain k w Hw) as (Hnd & _).
    apply (rule_quiet_on j r w_j w (pre ++ sp) u); auto.
    + now rewrite append_assoc.
    + now apply dot_forms_undot.
Qed.

Lemma lower_app (a b : string) :
  PyStr.lower (a ++ b) = (PyStr.lower a ++ PyStr.lower b)%string.
Proof. induction a as [|c a IH]; cbn; [reflexivity|now rewrite IH]. Qed.

Lemma name_char_lower (c : ascii) :
  Spec.name_char (PyStr.lower_char c) = Spec.name_char c.
Proof. destruct c as [[] [] [] [] [] [] [] []]; reflexivity. Qed.

Lemma ends_with_lower (s : string) :
  PyStr.ends_with Spec.name_char (PyStr.lower s)
  = PyStr.ends_with Spec.name_char s.
Proof.
  induction s as [|c s IH]; [reflexivity|].
  destruct s as [|d s]; [cbn; apply name_char_lower|].
  cbn [PyStr.lower] in *. rewrite !ends_with_cons. exact IH.
Qed.

Lemma lstrip_ends (p q : ascii -> bool) (s : string) :
  (forall c, q c = true -> p c = false) ->
  PyStr.ends_with q s = true ->
  PyStr.ends_with q (PyStr.lstrip_by p s) = true /\
  PyStr.all_chars p s = false.
Proof.
  intros Hpq. induction s as [|c s IH]; [discriminate|].
  cbn [PyStr.lstrip_by PyStr.all_chars].
  destruct s as [|d s].
  - cbn [PyStr.ends_with]. intros Hc. rewrite (Hpq c Hc).
    split; [exact Hc|reflexivity].
  - rewrite ends_with_cons. intros H. destruct (IH H) as [H1 H2].
    destruct (p c); [split; [exact H1|exact H2]|].
    split; [now rewrite ends_with_cons|reflexivity].
Qed.

(** A name made of a base and a spelling of a suffix, lowered and
    stripped *)
Lemma strip_spelled (k : nat) (rule : pattern * string) (w b t : string) :
  nth_error suffixes k = Some rule ->
  nth_error Spec.suffix_words k = Some w ->
  PyStr.ends_with Spec.name_char b = true ->
  lang (fst rule) (PyStr.lower t) "" ->
  let pre := PyStr.lstrip_by PyStr.is_space (PyStr.lower b) in
  PyStr.strip (PyStr.lower (b ++ t)) = (pre ++ PyStr.lower t)%string /\
  PyStr.ends_with Spec.name_char pre = true.
Proof.
  intros Hrule Hw Hb Hl. cbn zeta.
  rewrite <- ends_with_lower in Hb.
  destruct (lstrip_ends PyStr.is_space Spec.name_char (PyStr.lower b))
    as [Hpre Hnot]; [|exact Hb|].
  { intros c. unfold Spec.name_char. destruct (PyStr.is_space c);
      [discriminate|reflexivity]. }
  split; [|exact Hpre].
  unfold PyStr.strip. rewrite lower_app, lstrip_app, Hnot.
  apply rstrip_by_fix.
  destruct (rule_lang_forms k rule w _ Hrule Hw Hl) as (sp & u & -> & _ & Hu).
  destruct (suffix_word_plain k w Hw) as (_ & Hall & a0 & w0 & Ew & _).
  assert (Hune : u <> "").
  { rewrite Ew in Hu. destruct (dot_forms_head _ _ _ Hu) as [u' ->].
    discriminate. }
  assert (Huc : PyStr.all_chars (fun c => negb (PyStr.is_space c)) u = true).
  { apply (dot_forms_chars _ w); [reflexivity| |exact Hu].
    eapply all_chars_weaken; [|exact Hall].
    intros c. unfold Spec.name_char. now destruct (PyStr.is_space c). }
  rewrite <- !append_assoc.
  pose proof (all_chars_ends _ ((PyStr.lstrip_by PyStr.is_space (PyStr.lower b)
                                 ++ sp)%string) u Huc Hune) as He.
  apply ends_with_neg in He.
  erewrite <- He. clear.
  generalize ((PyStr.lstrip_by PyStr.is_space (PyStr.lower b) ++ sp) ++ u)%string.
  intros s. induction s as [|c s IH]; [reflexivity|].
  destruct s as [|d s]; [cbn; now rewrite negb_involutive|].
  rewrite !ends_with_cons. exact IH.
Qed.

End SpellingsShareKey.

(** X18. For the suffixes llc, inc, corp, llp, ltd
    and co, [normalize_company_name] gives the same key to every spelling
    of the suffix: a name made of a base, which ends with a character
    that is neither whitespace nor a comma, and of a tail that the
    suffix's pattern matches in full once in lower case (whitespace, an
    optional comma, the letters in any case with their optional periods)
    has the key of the base followed by a space and the plain suffix. *)
Theorem normalize_company_name_spellings
        (k : nat) (rule : Re.pattern * string) (w b t : string)
        (segs : list string) :
  In k [0; 1; 2; 3; 5; 6] ->
  nth_error Structure.suffixes k = Some rule ->
  nth_error Spec.suffix_words k = Some w ->
  PyStr.ends_with Spec.name_char b = true ->
  Re.match_items (fst rule) (PyStr.lower t) = Some (segs, "") ->
  Structure.normalize_company_name (b ++ t)
  = Structure.normalize_company_name (b ++ " " ++ w).
Proof.
  intros Hk Hrule Hw Hb Hm.
  assert (Hl : Re.lang (fst rule) (PyStr.lower t) "")
    by (eapply match_items_lang; exact Hm).
  assert (Hl0 : Re.lang (fst rule) (PyStr.lower (" " ++ w)) "").
  { cbn [In] in Hk.
    repeat (destruct Hk as [<-|Hk];
            [injection Hw as <-; injection Hrule as <-;
             eapply match_items_lang; vm_compute; reflexivity|]).
    destruct Hk. }
  assert (Hlow : PyStr.lower (" " ++ w) = (" " ++ w)%string).
  { cbn [In] in Hk.
    repeat (destruct Hk as [<-|Hk]; [injection Hw as <-; reflexivity|]).
    destruct Hk. }
  assert (Hne : forall t', (b ++ t')%string <> "")
    by (intros t'; destruct b; [discriminate Hb|discriminate]).
  rewrite !normalize_steps by apply Hne.
  destruct (strip_spelled k rule w b t Hrule Hw Hb Hl) as [E Hpre].
  destruct (strip_spelled k rule w b (" " ++ w) Hrule Hw Hb Hl0) as [E0 _].
  cbn zeta in *.
  set (pre := PyStr.lstrip_by PyStr.is_space (PyStr.lower b)) in *.
  rewrite E, E0.
  rewrite (spelling_rewritten k rule w pre (PyStr.lower t)); auto.
  - rewrite (spelling_rewritten k rule w pre (PyStr.lower (" " ++ w))); auto.
    rewrite <- E0. apply strip_no_newline.
  - rewrite <- E. apply strip_no_newline.
Qed.

(** The witness: Acme VoIP with Inc. after a comma and in capitals, and
    with L.L.C. *)
Lemma normalize_company_name_spellings_witness :
  Structure.normalize_company_name ("Acme VoIP" ++ ", INC.")
  = Structure.normalize_company_name ("Acme VoIP" ++ " " ++ "inc") /\
  Structure.normalize_company_name ("Acme VoIP" ++ " L.L.C.")
  = Structure.normalize_company_name ("Acme VoIP" ++ " " ++ "llc") /\
  Structure.normalize_company_name "Acme VoIP, INC." = "acme voip inc".
Proof.
  split; [|split; [|reflexivity]].
  - eapply (normalize_company_name_spellings 1);
      [cbn; tauto|reflexivity|reflexivity|reflexivity|].
    vm_compute. reflexivity.
  - eapply (normalize_company_name_spellings 0);
      [cbn; tauto|reflexivity|reflexivity|reflexivity|].
    vm_compute. reflexivity.
Defined.

(* ================================================================== *)
(** * src/structure.py: [extract_dba_name] *)

Section Segments.

Import Re.

Lemma greedy_fits {T} p (k : string -> option T) s seg t :
  greedy p k s = Some (seg, t) -> PyStr.all_chars p seg = true.
Proof.
  revert seg; induction s as [|c s IH]; intros seg; simpl.
  - destruct (k "") eqn:E; simpl; [|discriminate]. now intros [= <- <-].
  - destruct (p c) eqn:Ec.
    + destruct (greedy p k s) as [[seg' t']|] eqn:Eg.
      * intros [= <- <-]. simpl. now rewrite Ec, (IH seg' eq_refl).
      * destruct (k (String c s)) eqn:E; simpl; [|discriminate].
        now intros [= <- <-].
    + destruct (k (String c s)) eqn:E; simpl; [|discriminate].
      now intros [= <- <-].
Qed.

Lemma lazy_fits {T} p (k : string -> option T) s seg t :
  lazy p k s = Some (seg, t) -> PyStr.all_chars p seg = true.
Proof.
  revert seg; induction s as [|c s IH]; intros seg; simpl.
  - destruct (k "") eqn:E; [|discriminate]. now intros [= <- <-].
  - destruct (k (String c s)) eqn:E.
    + now intros [= <- <-].
    + destruct (p c) eqn:Ec; [|discriminate].
      destruct (lazy p k s) as [[seg' t']|] eqn:El; simpl; [|discriminate].
      intros [= <- <-]. simpl. now rewrite Ec, (IH seg' eq_refl).
Qed.

(** The text an item consumed fits the item. *)
Lemma step_fits {T} it (k : string -> option T) s seg t :
  step it k s = Some (seg, t) -> Spec.fits it seg.
Proof.
  destruct it as [p|p|p|p|p|]; simpl.
  - destruct s as [|c s]; [discriminate|].
    destruct (p c) eqn:Ec; [|discriminate].
    destruct (k s) eqn:E; simpl; [|discriminate].
    intros [= <- <-]. eauto.
  - destruct s as [|c s].
    + destruct (k "") eqn:E; simpl; [|discriminate].
      intros [= <- <-]. now left.
    + destruct (p c) eqn:Ec.
      * destruct (k s) eqn:E.
        -- intros [= <- <-]. right. eauto.
        -- destruct (k (String c s)) eqn:E'; simpl; [|discriminate].
           intros [= <- <-]. now left.
      * destruct (k (String c s)) eqn:E'; simpl; [|discriminate].
        intros [= <- <-]. now left.
  - apply greedy_fits.
  - destruct s as [|c s]; [discriminate|].
    destruct (p c) eqn:Ec; [|discriminate].
    destruct (greedy p k s) as [[seg' t']|] eqn:Eg; simpl; [|discriminate].
    intros [= <- <-]. split; [discriminate|].
    simpl. now rewrite Ec, (greedy_fits _ _ _ _ _ Eg).
  - destruct s as [|c s]; [discriminate|].
    destruct (p c) eqn:Ec; [|discriminate].
    destruct (lazy p k s) as [[seg' t']|] eqn:El; simpl; [|discriminate].
    intros [= <- <-]. split; [discriminate|].
    simpl. now rewrite Ec, (lazy_fits _ _ _ _ _ El).
  - destruct (at_end s); [|discriminate].
    destruct (k s) eqn:E; simpl; [|discriminate].
    now intros [= <- <-].
Qed.

(** A match gives one text for each item, which fits it, and the texts
    end to end are the string matched. *)
Lemma match_items_fits pat s segs rest :
  match_items pat s = Some (segs, rest) ->
  Forall2 Spec.fits pat segs /\ s = (matched segs ++ rest)%string.
Proof.
  intros H. split; [|now apply (match_items_sound pat)].
  revert s segs H; induction pat as [|it pat IH]; intros s segs; simpl.
  - intros [= <- _]. constructor.
  - destruct (step it (match_items pat) s) as [[seg [segs' tl]]|] eqn:E;
      [|discriminate].
    intros [= <- <-]. constructor; [now apply step_fits in E|].
    apply step_sound in E as (s' & -> & Hk). now apply IH in Hk.
Qed.

Lemma matched_app (a b : list string) :
  matched (a ++ b) = (matched a ++ matched b)%string.
Proof.
  unfold matched. induction a as [|x a IH]; [reflexivity|].
  cbn [app fold_right]. now rewrite IH, append_assoc.
Qed.

End Segments.

Section Dba.

Import Re Structure.

(** Both patterns: a lazy group, whitespace, the marker, whitespace, a
    greedy group, the end. *)
Lemma dba_pattern_shape (pat : pattern) :
  In pat dba_patterns ->
  exists marker,
    pat = PlusLazy dot :: Plus space :: marker
          ++ [Plus space; Plus dot; Eos].
Proof.
  intros [<-|[<-|[]]].
  - exists [One (lit_i "d"); Opt (lit "/"); One (lit_i "b"); Opt (lit "/");
            One (lit_i "a")]. reflexivity.
  - exists [One (lit_i "d"); One (lit_i "o"); One (lit_i "i");
            One (lit_i "n"); One (lit_i "g"); Plus space;
            One (lit_i "b"); One (lit_i "u"); One (lit_i "s");
            One (lit_i "i"); One (lit_i "n"); One (lit_i "e");
            One (lit_i "s"); One (lit_i "s"); Plus space;
            One (lit_i "a"); One (lit_i "s")]. reflexivity.
Qed.

Lemma Forall2_app_inv_l' {A B} (R : A -> B -> Prop) (l1 l2 : list A)
      (l : list B) :
  Forall2 R (l1 ++ l2) l ->
  exists a b, l = a ++ b /\ Forall2 R l1 a /\ Forall2 R l2 b.
Proof.
  intros H. apply Forall2_app_inv_l in H.
  destruct H as (a & b & Ha & Hb & ->). eauto.
Qed.

(** The groups of a match of one of the patterns *)
Lemma dba_match_groups (pat : pattern) (name : string) segs rest :
  In pat dba_patterns ->
  match_items pat name = Some (segs, rest) ->
  exists g1 ws1 mid ws2 g2,
    group1 segs = g1 /\ group2 segs = g2 /\
    name = (g1 ++ ws1 ++ mid ++ ws2 ++ g2 ++ rest)%string /\
    g1 <> "" /\ g2 <> "" /\
    ws1 <> "" /\ PyStr.all_chars space ws1 = true /\
    ws2 <> "" /\ PyStr.all_chars space ws2 = true /\
    at_end rest = true.
Proof.
  intros Hin Hm.
  destruct (dba_pattern_shape pat Hin) as [marker ->].
  assert (Hend : at_end rest = true).
  { apply (match_items_eos (PlusLazy dot :: Plus space :: marker
                              ++ [Plus space; Plus dot]) name segs).
    cbn [app]. now rewrite <- app_assoc. }
  apply match_items_fits in Hm. destruct Hm as [Hf ->].
  inversion Hf as [|it1 g1 p1 segs1 Hg1 Hf1]; subst.
  inversion Hf1 as [|it2 ws1 p2 segs2 Hws1 Hf2]; subst.
  apply Forall2_app_inv_l' in Hf2.
  destruct Hf2 as (mids & tail & -> & Hmid & Htail).
  inversion Htail as [|it3 ws2 p3 t3 Hws2 Ht3]; subst.
  inversion Ht3 as [|it4 g2 p4 t4 Hg2 Ht4]; subst.
  inversion Ht4 as [|it5 e p5 t5 He Ht5]; subst.
  inversion Ht5; subst. cbn [Spec.fits] in *. subst e.
  destruct Hg1 as [Hg1 _]. destruct Hg2 as [Hg2 _].
  destruct Hws1 as [Hws1 Hs1]. destruct Hws2 as [Hws2 Hs2].
  exists g1, ws1, (matched mids), ws2, g2.
  split; [reflexivity|]. split.
  { unfold group2. cbn [List.length]. rewrite length_app. cbn [List.length].
    replace (S (S (List.length mids + 3)) - 2) with (S (S (S (List.length mids))))
      by lia.
    cbn [nth]. rewrite app_nth2 by lia.
    replace (S (List.length mids) - List.length mids) with 1 by lia.
    reflexivity. }
  split.
  { change (matched (g1 :: ws1 :: mids ++ [ws2; g2; ""]))
      with (g1 ++ ws1 ++ matched (mids ++ [ws2; g2; ""]))%string.
    rewrite matched_app.
    change (matched [ws2; g2; ""]) with (ws2 ++ g2 ++ "" ++ "")%string.
    rewrite !append_assoc. reflexivity. }
  auto 10.
Qed.

End Dba.

Section DbaParts.

Import Re Structure.

Lemma lstrip_by_split p (s : string) :
  exists r, s = (r ++ PyStr.lstrip_by p s)%string /\
            PyStr.all_chars p r = true.
Proof.
  induction s as [|c s (r & E & Hr)]; [now exists ""|].
  cbn [PyStr.lstrip_by]. destruct (p c) eqn:Ec.
  - exists (String c r). cbn. rewrite Ec, Hr, <- E. auto.
  - now exists "".
Qed.

Lemma ends_with_ext (p q : ascii -> bool) (s : string) :
  (forall c, p c = q c) -> PyStr.ends_with p s = PyStr.ends_with q s.
Proof.
  intros H. induction s as [|c s IH]; [reflexivity|].
  destruct s as [|d s]; [apply H|]. rewrite !ends_with_cons. exact IH.
Qed.

Lemma ends_with_not p (s : string) :
  s <> "" -> PyStr.ends_with p s = false ->
  PyStr.ends_with (fun c => negb (p c)) s = true.
Proof.
  induction s as [|c s IH]; [congruence|]. intros _.
  destruct s as [|d s]; [cbn; now intros ->|].
  rewrite !ends_with_cons. apply IH. discriminate.
Qed.

(** A stripped string begins and ends with a character that is not
    whitespace. *)
Lemma stripped_ends (s : string) :
  PyStr.strip s = s ->
  match s with EmptyString => true | String c _ => negb (PyStr.is_space c) end
  = true /\
  PyStr.ends_with PyStr.is_space s = false.
Proof.
  intros E. split.
  - rewrite <- E. unfold PyStr.strip.
    apply rstrip_by_starts, lstrip_by_starts.
  - rewrite <- E. apply rstrip_by_ends.
Qed.

(** What is left of a string that begins with a character that is not
    whitespace, once stripped *)
Lemma strip_head (s : string) :
  s <> "" ->
  match s with EmptyString => true | String c _ => negb (PyStr.is_space c) end
  = true ->
  PyStr.strip s <> "" /\
  exists r, s = (PyStr.strip s ++ r)%string /\
            PyStr.all_chars PyStr.is_space r = true.
Proof.
  intros Hne Hc. unfold PyStr.strip. rewrite (lstrip_by_fix _ _ Hc).
  split; [|apply rstrip_by_split].
  destruct s as [|c s]; [congruence|]. cbn [PyStr.rstrip_by].
  apply negb_true_iff in Hc. rewrite Hc.
  destruct (PyStr.rstrip_by PyStr.is_space s); discriminate.
Qed.

(** What is left of a string that ends with a character that is not
    whitespace, once stripped *)
Lemma strip_tail (s : string) :
  s <> "" -> PyStr.ends_with PyStr.is_space s = false ->
  PyStr.strip s <> "" /\
  exists r, s = (r ++ PyStr.strip s)%string /\
            PyStr.all_chars PyStr.is_space r = true.
Proof.
  intros Hne He. apply ends_with_not in He; [|exact Hne].
  destruct (lstrip_ends PyStr.is_space (fun c => negb (PyStr.is_space c)) s)
    as [Hl _]; [|exact He|].
  { intros c Hc. now apply negb_true_iff in Hc. }
  assert (Hfix : PyStr.strip s = PyStr.lstrip_by PyStr.is_space s).
  { unfold PyStr.strip. apply rstrip_by_fix.
    apply ends_with_neg in Hl.
    rewrite <- Hl. apply ends_with_ext. intros c.
    now rewrite negb_involutive. }
  rewrite Hfix. split; [|apply lstrip_by_split].
  intros E. rewrite E in Hl. discriminate.
Qed.

Lemma extract_dba_loop_parts (pats : list pattern) (name : string) :
  incl pats dba_patterns ->
  PyStr.strip name = name ->
  match extract_dba_loop pats name with
  | (base, None) => base = name
  | (base, Some dba) =>
      base <> "" /\ dba <> "" /\
      PyStr.strip base = base /\ PyStr.strip dba = dba /\
      exists c mid,
        name = (base ++ String c mid ++ dba)%string /\
        PyStr.is_space c = true /\
        PyStr.ends_with PyStr.is_space (String c mid) = true
  end.
Proof.
  intros Hincl Hstrip.
  induction pats as [|pat pats IH]; [reflexivity|].
  cbn [extract_dba_loop].
  destruct (match_items pat name) as [[segs rest]|] eqn:Em;
    [|apply IH; intros x Hx; apply Hincl; now right].
  destruct (dba_match_groups pat name segs rest (Hincl pat (or_introl eq_refl))
                             Em)
    as (g1 & ws1 & mid & ws2 & g2 & -> & -> & Ename & Hg1 & Hg2
        & Hws1 & Hs1 & Hws2 & Hs2 & Hend).
  destruct (stripped_ends name Hstrip) as [Hfirst Hlast].
  (* the match reaches the end of the name *)
  assert (rest = "") as ->.
  { destruct rest as [|c [|d rest]]; [reflexivity| |discriminate].
    cbn [at_end] in Hend. apply Ascii.eqb_eq in Hend. subst c.
    rewrite Ename in Hlast.
    rewrite <- !append_assoc, ends_with_app in Hlast by discriminate.
    discriminate. }
  rewrite append_empty_r in Ename.
  destruct (strip_head g1 Hg1) as [Hbase (r1 & E1 & Hr1)].
  { rewrite Ename in Hfirst. destruct g1; [congruence|exact Hfirst]. }
  destruct (strip_tail g2 Hg2) as [Hdba (r2 & E2 & Hr2)].
  { rewrite Ename in Hlast.
    rewrite <- !append_assoc, ends_with_app in Hlast by exact Hg2.
    exact Hlast. }
  split; [exact Hbase|]. split; [exact Hdba|].
  split; [apply strip_strip|]. split; [apply strip_strip|].
  set (base := PyStr.strip g1) in *. set (dba := PyStr.strip g2) in *.
  (* what is between the two groups *)
  assert (Hmid : exists c m, (r1 ++ ws1)%string = String c m /\
                             PyStr.is_space c = true).
  { destruct r1 as [|c r1].
    - destruct ws1 as [|c ws1]; [congruence|]. exists c, ws1.
      split; [reflexivity|]. cbn [PyStr.all_chars] in Hs1.
      now apply andb_true_iff in Hs1.
    - exists c, (r1 ++ ws1)%string. split; [reflexivity|].
      cbn [PyStr.all_chars] in Hr1. now apply andb_true_iff in Hr1. }
  destruct Hmid as (c & m & Em1 & Hc).
  exists c, (m ++ mid ++ ws2 ++ r2)%string.
  split; [|split; [exact Hc|]].
  - rewrite Ename, E1, E2. fold base dba.
    change (String c (m ++ mid ++ ws2 ++ r2))
      with (String c m ++ mid ++ ws2 ++ r2)%string.
    rewrite <- Em1. now rewrite !append_assoc.
  - replace (String c (m ++ mid ++ ws2 ++ r2))
      with ((String c m ++ mid) ++ (ws2 ++ r2))%string
      by (cbn [String.append]; now rewrite append_assoc).
    apply all_chars_ends.
    + rewrite all_chars_app. unfold space in Hs2. now rewrite Hs2, Hr2.
    + destruct ws2; [congruence|discriminate].
Qed.

End DbaParts.

(** X19. On a name without whitespace around it, as
    [structure_companies] passes it, [extract_dba_name] either finds no
    d/b/a part and returns the name as it is, or returns a base name and
    a d/b/a name that are not empty, have no whitespace around them, and
    are the beginning and the end of the name, with between them a text
    that begins and ends with whitespace. *)
Theorem extract_dba_name_parts (name : string) :
  PyStr.strip name = name ->
  match Structure.extract_dba_name name with
  | (base, None) => base = name
  | (base, Some dba) =>
      base <> "" /\ dba <> "" /\
      PyStr.strip base = base /\ PyStr.strip dba = dba /\
      exists c mid,
        name = (base ++ String c mid ++ dba)%string /\
        PyStr.is_space c = true /\
        PyStr.ends_with PyStr.is_space (String c mid) = true
  end.
Proof.
  intros H. apply extract_dba_loop_parts; [apply incl_refl|exact H].
Qed.

(** The witness: a name with a d/b/a part, and a name without. *)
Lemma extract_dba_name_parts_witness :
  Structure.extract_dba_name "Acme Telecom LLC d/b/a Zap Voice"
  = ("Acme Telecom LLC", Some "Zap Voice") /\
  match Structure.extract_dba_name "Acme Telecom LLC d/b/a Zap Voice" with
  | (base, None) => base = "Acme Telecom LLC d/b/a Zap Voice"
  | (base, Some dba) =>
      base <> "" /\ dba <> "" /\
      PyStr.strip base = base /\ PyStr.strip dba = dba /\
      exists c mid,
        "Acme Telecom LLC d/b/a Zap Voice"
        = (base ++ String c mid ++ dba)%string /\
        PyStr.is_space c = true /\
        PyStr.ends_with PyStr.is_space (String c mid) = true
  end.
Proof.
  split; [reflexivity|].
  apply (extract_dba_name_parts "Acme Telecom LLC d/b/a Zap Voice").
  reflexivity.
Defined.

(** X20. [is_government_entity] does not look at the case of
    the letters, and a name that has a government entity's name anywhere
    inside it is a government entity's too. *)
Theorem is_government_entity_inside :
  (forall x y : string,
      PyStr.lower x = PyStr.lower y ->
      Structure.is_government_entity x = Structure.is_government_entity y) /\
  (forall a x b : string,
      Structure.is_government_entity x = true ->
      Structure.is_government_entity (a ++ x ++ b) = true).
Proof.
  split.
  - intros x y E. unfold Structure.is_government_entity. cbn zeta.
    now rewrite E.
  - intros a x b. unfold Structure.is_government_entity. cbn zeta.
    rewrite !existsb_exists. intros (kw & Hkw & Hc). exists kw.
    split; [exact Hkw|].
    apply contains_spec in Hc. destruct Hc as (pre & post & E).
    apply contains_spec. rewrite !lower_app, E.
    exists (PyStr.lower a ++ pre)%string, (post ++ PyStr.lower b)%string.
    now rewrite !append_assoc.
Qed.

(* ================================================================== *)
(** * src/structure.py: the statistics and the order of the records *)

Section Counters.

Import Structure.

(** The three ways of a filing through the loop of [structure_companies] *)
Lemma add_filing_cases (g : groups) (f : Ecfs.filing) :
  let name := Spec.filer_name_of f in
  if negb (PyStr.truthy name) then add_filing g f = skip_no_filer g
  else if is_government_entity name then add_filing g f = skip_govt g
  else add_filing g f = group_under (normalize_company_name name) name f g.
Proof.
  unfold add_filing, Spec.filer_name_of.
  destruct (Ecfs.filers f) as [|first rest]; [reflexivity|].
  cbn zeta.
  destruct (negb (PyStr.truthy
                    (PyStr.strip (Py.get_or (Ecfs.party_name first) ""))));
    [reflexivity|].
  destruct (is_government_entity
              (PyStr.strip (Py.get_or (Ecfs.party_name first) "")));
    reflexivity.
Qed.

Lemma group_filings_counters (input : list Ecfs.filing) (g0 : groups) :
  let name := Spec.filer_name_of in
  let g := fold_left add_filing input g0 in
  seen g = seen g0 + List.length input /\
  no_filer g
  = no_filer g0
    + List.length (filter (fun f => negb (PyStr.truthy (name f))) input) /\
  govt g
  = govt g0
    + List.length
        (filter (fun f => (PyStr.truthy (name f)
                           && is_government_entity (name f))%bool) input).
Proof.
  cbn zeta. revert g0; induction input as [|f input IH]; intros g0.
  - cbn. repeat split; lia.
  - cbn [fold_left filter List.length].
    destruct (IH (add_filing g0 f)) as (H1 & H2 & H3).
    rewrite H1, H2, H3. clear IH H1 H2 H3.
    pose proof (add_filing_cases g0 f) as Hc. cbn zeta in Hc.
    destruct (PyStr.truthy (Spec.filer_name_of f)); cbn [negb andb] in *.
    + destruct (is_government_entity (Spec.filer_name_of f)); rewrite Hc;
        cbn [seen no_filer govt skip_govt group_under List.length];
        repeat split; lia.
    + rewrite Hc. cbn [seen no_filer govt skip_no_filer List.length].
      repeat split; lia.
Qed.

Lemma three_ways (input : list Ecfs.filing) :
  let name := Spec.filer_name_of in
  List.length input
  = List.length (filter (fun f => negb (PyStr.truthy (name f))) input)
    + List.length
        (filter (fun f => (PyStr.truthy (name f)
                           && is_government_entity (name f))%bool) input)
    + List.length (filter Spec.grouped input).
Proof.
  cbn zeta. induction input as [|f input IH]; [reflexivity|].
  cbn [filter List.length]. unfold Spec.grouped at 1.
  destruct (PyStr.truthy (Spec.filer_name_of f)); cbn [negb andb];
    [destruct (is_government_entity (Spec.filer_name_of f))|];
    cbn [negb List.length]; lia.
Qed.

End Counters.

(** X21. The counters of [structure_companies] tell the
    three ways of a filing apart: total_filings is the number of filings
    read, excluded_no_filer the number of those without a first filer
    name, excluded_govt the number of those whose first filer is a
    government entity, and the filings that are grouped are exactly the
    rest; unique_companies is the number of records written. *)
Theorem structure_companies_counts (input : list Ecfs.filing) :
  let r := Structure.structure_companies input in
  let name := Spec.filer_name_of in
  Structure.total_filings (snd r) = List.length input /\
  Structure.excluded_no_filer (snd r)
  = List.length (filter (fun f => negb (PyStr.truthy (name f))) input) /\
  Structure.excluded_govt (snd r)
  = List.length
      (filter (fun f => (PyStr.truthy (name f)
                         && Structure.is_government_entity (name f))%bool)
              input) /\
  Structure.total_filings (snd r)
  = Structure.excluded_no_filer (snd r) + Structure.excluded_govt (snd r)
    + List.length (filter Spec.grouped input) /\
  Structure.unique_companies (snd r) = List.length (fst r).
Proof.
  cbn zeta. unfold Structure.structure_companies.
  cbn [fst snd Structure.total_filings Structure.excluded_no_filer
       Structure.excluded_govt Structure.unique_companies].
  unfold Structure.group_filings.
  destruct (group_filings_counters input Structure.no_groups)
    as (H1 & H2 & H3).
  cbn zeta in *. rewrite H1, H2, H3.
  cbn [Structure.seen Structure.no_filer Structure.govt Structure.no_groups
       Nat.add].
  repeat split; try reflexivity. apply three_ways.
Qed.

Section RecordOrder.

Import Structure.

(** The keys of the records built are keys of the groups, in order. *)
Lemma build_companies_NoDup vars (items : Py.dict (list Ecfs.filing)) :
  NoDup (map fst items) ->
  NoDup (map company_name_normalized (build_companies vars items)) /\
  forall k, In k (map company_name_normalized (build_companies vars items)) ->
            In k (map fst items).
Proof.
  induction items as [|[key group] items IH]; intros Hnd.
  - split; [constructor|intros k []].
  - cbn [map fst] in Hnd. inversion Hnd as [|k l Hk Hl]; subst.
    destruct (IH Hl) as [IH1 IH2]. cbn [build_companies].
    destruct (build_company vars key group) as [c|] eqn:Eb.
    + apply build_company_fields in Eb
        as (app & rest & _ & Hkey & _).
      cbn [map]. rewrite Hkey. split.
      * constructor; [intros Hin; apply Hk, IH2, Hin|exact IH1].
      * intros k [<-|Hin]; [now left|right; now apply IH2].
    + split; [exact IH1|]. intros k Hin. right. now apply IH2.
Qed.

End RecordOrder.

(** X22. [structure_companies] writes its records in
    ascending order of company_name_normalized, compared by code points,
    and no two records have the same company_name_normalized. *)
Theorem structure_companies_order (input : list Ecfs.filing) :
  let companies := fst (Structure.structure_companies input) in
  StronglySorted
    (fun a b => String.leb (Structure.company_name_normalized a)
                           (Structure.company_name_normalized b) = true)
    companies /\
  NoDup (map Structure.company_name_normalized companies).
Proof.
  cbn zeta. unfold Structure.structure_companies. cbn [fst].
  unfold Py.sort_key. split.
  - apply sort_by_sorted.
    + intros a b. apply String.leb_total.
    + intros a b c. apply string_leb_trans.
  - destruct (group_filings_spec input) as (Hnd & _).
    eapply Permutation_NoDup.
    + apply Permutation_map, Permutation_sym, sort_by_perm.
    + now apply build_companies_NoDup.
Qed.

(* ================================================================== *)
(** * src/structure.py: the filings the records account for *)

Section Coverage.

Import Structure.

Lemma filter_and_le {T} (p q : T -> bool) (l : list T) :
  List.length (filter (fun x => (p x && q x)%bool) l)
  <= List.length (filter p l).
Proof.
  induction l as [|x l IH]; [auto|].
  cbn [filter]. destruct (p x), (q x); cbn [andb List.length]; lia.
Qed.

Lemma list_sum_zero {T} (l : list T) : list_sum (map (fun _ => 0) l) = 0.
Proof. induction l as [|x l IH]; [reflexivity|exact IH]. Qed.

Lemma list_sum_map_add {T} (a b : T -> nat) (l : list T) :
  list_sum (map (fun x => a x + b x) l)
  = list_sum (map a l) + list_sum (map b l).
Proof.
  induction l as [|x l IH]; [reflexivity|].
  cbn [map]. change (list_sum (?h :: ?t)) with (h + list_sum t).
  cbn [list_sum fold_right]. fold (list_sum (map (fun x => a x + b x) l)).
  fold (list_sum (map a l)). fold (list_sum (map b l)). lia.
Qed.

Lemma list_sum_map_ext {T} (a b : T -> nat) (l : list T) :
  (forall x, In x l -> a x = b x) ->
  list_sum (map a l) = list_sum (map b l).
Proof.
  intros H. f_equal. apply map_ext_in. exact H.
Qed.

Lemma sum_one_key (ks : list string) (k0 : string) (phi : string -> bool)
      (w : nat) :
  NoDup ks -> In k0 ks ->
  list_sum (map (fun k => if (String.eqb k0 k && phi k)%bool then w else 0) ks)
  = if phi k0 then w else 0.
Proof.
  induction 1 as [|k ks Hk Hnd IH]; [intros []|].
  intros Hin. cbn [map].
  change (list_sum (?h :: ?t)) with (h + list_sum t).
  destruct (String.eqb_spec k0 k) as [->|Hne]; cbn [andb].
  - rewrite (list_sum_map_ext _ (fun _ => 0)), list_sum_zero; [lia|].
    intros x Hx. destruct (String.eqb_spec k x) as [->|]; [contradiction|].
    reflexivity.
  - destruct Hin as [->|Hin]; [congruence|]. now rewrite IH.
Qed.

(** Summing over the groups of distinct keys is summing over the grouped
    filings. *)
Lemma partition_sum (ks : list string) (phi : string -> bool)
      (wt : Ecfs.filing -> nat) (fs : list Ecfs.filing) :
  NoDup ks ->
  (forall f, In f fs -> Spec.grouped f = true -> In (Spec.key_of f) ks) ->
  list_sum (map (fun k => if phi k
                          then list_sum (map wt (Spec.group_of fs k))
                          else 0) ks)
  = list_sum (map wt (filter (fun f => (Spec.grouped f
                                        && phi (Spec.key_of f))%bool) fs)).
Proof.
  intros Hnd. induction fs as [|f fs IH]; intros Hks.
  - cbn. rewrite (list_sum_map_ext _ (fun _ => 0)), list_sum_zero;
      [reflexivity|].
    intros k _. now destruct (phi k).
  - rewrite (list_sum_map_ext
               _ (fun k => (if (String.eqb (Spec.key_of f) k && phi k)%bool
                            then if Spec.grouped f then wt f else 0 else 0)
                           + (if phi k
                              then list_sum (map wt (Spec.group_of fs k))
                              else 0))).
    + rewrite list_sum_map_add, IH
        by (intros g Hg; apply Hks; now right).
      cbn [filter]. destruct (Spec.grouped f) eqn:Eg; cbn [andb].
      * rewrite sum_one_key; [|exact Hnd|apply Hks; [now left|exact Eg]].
        destruct (phi (Spec.key_of f)); reflexivity.
      * rewrite (list_sum_map_ext _ (fun _ => 0)), list_sum_zero;
          [reflexivity|].
        intros k _. now destruct (String.eqb (Spec.key_of f) k && phi k)%bool.
    + intros k _. unfold Spec.group_of. cbn [filter].
      destruct (Spec.grouped f), (String.eqb (Spec.key_of f) k), (phi k);
        cbn [andb map]; reflexivity.
Qed.

Lemma build_company_none vars key (group : list Ecfs.filing) :
  build_company vars key group = None <->
  existsb is_application group = false.
Proof.
  unfold build_company.
  destruct (Py.sort_key date_of (filter is_application group))
    as [|primary_app rest] eqn:Es.
  - split; [intros _|reflexivity].
    assert (Hf : filter is_application group = []).
    { apply length_zero_iff_nil.
      unfold Py.sort_key in Es.
      rewrite <- (sort_by_length (fun a b => String.leb (date_of a) (date_of b))).
      now rewrite Es. }
    destruct (existsb is_application group) eqn:E; [|reflexivity].
    apply existsb_exists in E. destruct E as (f & Hin & Hf').
    assert (In f (filter is_application group))
      by (apply filter_In; auto).
    rewrite Hf in H. destruct H.
  - destruct (extract_dba_name _). split; [discriminate|].
    intros E. exfalso.
    assert (Hin : In primary_app (filter is_application group)).
    { unfold Py.sort_key in Es.
      apply (sort_by_In (fun a b => String.leb (date_of a) (date_of b))).
      rewrite Es. now left. }
    apply filter_In in Hin. destruct Hin as [Hin Hf].
    assert (existsb is_application group = true)
      by (apply existsb_exists; eauto).
    congruence.
Qed.

(** The other fields of a record built from a group *)
Lemma build_company_lists vars key group (c : company) :
  build_company vars key group = Some c ->
  name_variations c
  = Py.sorted (Py.sort_by longer_first (Py.default_get key vars [])) /\
  docket_numbers c = Py.sorted (collect_dockets group) /\
  filings c = Py.sort_key summary_date (map summary_of group) /\
  documents c = collect_documents group /\
  contacts c = Py.sorted (collect_names Ecfs.authors group) /\
  attorneys c = Py.sorted (collect_names Ecfs.lawfirms group) /\
  proceeding_types c = Py.sorted (collect_proceeding_types group).
Proof.
  unfold build_company.
  destruct (Py.sort_key date_of (filter is_application group))
    as [|primary_app rest]; [discriminate|].
  destruct (extract_dba_name _) as [base dba].
  intros [= <-]. cbn. repeat split; reflexivity.
Qed.

(** Summing a quantity of the groups over the records built *)
Lemma build_companies_sum vars (items : Py.dict (list Ecfs.filing))
      (F : company -> nat) (G : list Ecfs.filing -> nat) :
  (forall key group c, build_company vars key group = Some c ->
                       F c = G group) ->
  list_sum (map F (build_companies vars items))
  = list_sum (map (fun item => if existsb is_application (snd item)
                               then G (snd item) else 0) items).
Proof.
  intros HF. induction items as [|[key group] items IH]; [reflexivity|].
  cbn [build_companies map snd].
  change (list_sum (?h :: ?t)) with (h + list_sum t).
  destruct (build_company vars key group) as [c|] eqn:Eb.
  - assert (E : existsb is_application group = true).
    { destruct (existsb is_application group) eqn:E; [reflexivity|].
      apply (build_company_none vars key) in E. congruence. }
    rewrite E. cbn [map].
    change (list_sum (?h :: ?t)) with (h + list_sum t).
    now rewrite IH, (HF key group c Eb).
  - apply build_company_none in Eb. now rewrite Eb, IH.
Qed.

(** A quantity summed over the records written is the quantity summed
    over the filings that are in a record. *)
Lemma records_sum (input : list Ecfs.filing) (F : company -> nat)
      (wt : Ecfs.filing -> nat) :
  (forall vars key group c, build_company vars key group = Some c ->
                            F c = list_sum (map wt group)) ->
  list_sum (map F (fst (structure_companies input)))
  = list_sum (map wt (filter (Spec.in_record input) input)).
Proof.
  intros HF. unfold structure_companies. cbn [fst]. unfold Py.sort_key.
  rewrite (Permutation_list_sum
             (Permutation_map F (sort_by_perm _ _))).
  rewrite (build_companies_sum _ _ F (fun group => list_sum (map wt group)))
    by (intros; eapply HF; eassumption).
  destruct (group_filings_spec input) as (Hnd & Hcf & _).
  set (items := company_filings (group_filings input)) in *.
  set (h := fun k => if existsb is_application (Spec.group_of input k)
                     then list_sum (map wt (Spec.group_of input k))
                     else 0).
  rewrite (list_sum_map_ext _ (fun item => h (fst item))).
  - replace (map (fun item : string * list Ecfs.filing => h (fst item)) items)
      with (map h (map fst items)) by apply map_map.
    unfold h.
    rewrite (partition_sum
               (map fst items)
               (fun k => existsb is_application (Spec.group_of input k))
               wt input Hnd).
    + reflexivity.
    + intros f Hin Hg.
      assert (Hgf : In f (Spec.group_of input (Spec.key_of f))).
      { unfold Spec.group_of. apply filter_In. split; [exact Hin|].
        now rewrite Hg, String.eqb_refl. }
      specialize (Hcf (Spec.key_of f)).
      destruct (Spec.group_of input (Spec.key_of f)) as [|x l] eqn:E;
        [destruct Hgf|].
      cbn in Hcf. apply dict_get_In in Hcf.
      apply (in_map fst) in Hcf. exact Hcf.
  - intros [key group] Hin. unfold h. cbn [fst snd].
    apply (dict_In_get _ _ _ Hnd) in Hin. rewrite Hcf in Hin.
    destruct (Spec.group_of input key) as [|x l] eqn:E; [discriminate|].
    cbn in Hin. injection Hin as <-. reflexivity.
Qed.

End Coverage.

(** X23. The records of [structure_companies] account
    for the grouped filings whose group holds an application, each once:
    the total_filing_count of the records sum to the number of these
    filings, and total_documents is the number of their documents. A
    grouped filing whose group holds no application is in no record and
    in none of the counters. *)
Theorem structure_companies_coverage (input : list Ecfs.filing) :
  let r := Structure.structure_companies input in
  let in_records := filter (Spec.in_record input) input in
  list_sum (map Structure.total_filing_count (fst r))
  = List.length in_records /\
  Structure.total_documents (snd r)
  = list_sum (map (fun f => List.length (Ecfs.documents f)) in_records) /\
  List.length in_records <= List.length (filter Spec.grouped input).
Proof.
  cbn zeta. split; [|split].
  - rewrite (records_sum input _ (fun _ => 1)).
    + generalize (filter (Spec.in_record input) input). intros l.
      induction l as [|x l IH]; [reflexivity|].
      cbn [map List.length].
      change (list_sum (?h :: ?t)) with (h + list_sum t). now rewrite IH.
    + intros vars key group c Hb.
      apply build_company_fields in Hb
        as (app & rest & _ & _ & _ & _ & _ & _ & _ & ->).
      clear. induction group as [|x l IH]; [reflexivity|].
      cbn [map List.length].
      change (list_sum (?h :: ?t)) with (h + list_sum t). now rewrite <- IH.
  - change (Structure.total_documents
              (snd (Structure.structure_companies input)))
      with (list_sum (map (fun c => List.length (Structure.documents c))
                          (fst (Structure.structure_companies input)))).
    apply records_sum.
    intros vars key group c Hb.
    apply build_company_lists in Hb as (_ & _ & _ & -> & _).
    unfold Structure.collect_documents, Structure.doc_entries.
    clear. induction group as [|x l IH]; [reflexivity|].
    cbn [flat_map map]. rewrite length_app, length_map, IH.
    reflexivity.
  - apply (filter_and_le
             Spec.grouped
             (fun f => existsb Structure.is_application
                               (Spec.group_of input (Spec.key_of f)))).
Qed.

(* ================================================================== *)
(** * src/structure.py: what a record holds *)

Section RecordContents.

Import Structure.

Lemma sorted_set (l : list string) :
  NoDup l ->
  NoDup (Py.sorted l) /\
  StronglySorted (fun a b => String.leb a b = true) (Py.sorted l) /\
  forall v, In v (Py.sorted l) <-> In v l.
Proof.
  intros Hnd. unfold Py.sorted. split; [|split].
  - eapply Permutation_NoDup; [apply Permutation_sym, sort_by_perm|exact Hnd].
  - apply sort_by_sorted; [apply String.leb_total|].
    intros a b c. apply string_leb_trans.
  - intros v. apply sort_by_In.
Qed.

(** A name under which a filing is grouped *)
Lemma variant_facts (input : list Ecfs.filing) (key v : string) :
  In v (Spec.variants_of input key) ->
  v <> "" /\ PyStr.strip v = v /\ is_government_entity v = false /\
  normalize_company_name v = key.
Proof.
  unfold Spec.variants_of, Spec.group_of. intros Hin.
  apply in_map_iff in Hin. destruct Hin as (f & <- & Hf).
  apply filter_In in Hf. destruct Hf as [_ Hf].
  apply andb_true_iff in Hf. destruct Hf as [Hg Hk].
  apply String.eqb_eq in Hk. unfold Spec.grouped in Hg.
  apply andb_true_iff in Hg. destruct Hg as [Ht Hgov].
  split; [now apply truthy_nonempty|]. split; [|split].
  - unfold Spec.filer_name_of. destruct (Ecfs.filers f); [reflexivity|].
    apply strip_strip.
  - now apply negb_true_iff in Hgov.
  - exact Hk.
Qed.

(** The loops that collect a set of strings *)
Lemma collect_fold {P} (val : P -> string) (ok : string -> bool)
      (xs : list P) (acc : list string) :
  NoDup acc ->
  let r := fold_left (fun acc p => if ok (val p)
                                   then Py.set_add (val p) acc else acc)
                     xs acc in
  NoDup r /\
  forall v, In v r <->
            In v acc \/ (ok v = true /\ exists p, In p xs /\ val p = v).
Proof.
  cbn zeta. revert acc; induction xs as [|x xs IH]; intros acc Hnd.
  - cbn. split; [exact Hnd|]. intros v. split; [auto|].
    intros [H|(_ & p & [] & _)]. exact H.
  - cbn [fold_left].
    destruct (ok (val x)) eqn:Eok.
    + destruct (IH (Py.set_add (val x) acc) (set_add_NoDup _ _ Hnd))
        as [H1 H2].
      split; [exact H1|]. intros v. rewrite H2, set_add_In. split.
      * intros [[->|H]|(Hok & p & Hp & Hv)]; auto.
        -- right. split; [exact Eok|]. exists x. split; [now left|reflexivity].
        -- right. split; [exact Hok|]. exists p. split; [now right|exact Hv].
      * intros [H|(Hok & p & [<-|Hp] & Hv)]; auto.
        right. split; [exact Hok|]. eauto.
    + destruct (IH acc Hnd) as [H1 H2].
      split; [exact H1|]. intros v. rewrite H2. split.
      * intros [H|(Hok & p & Hp & Hv)]; auto.
        right. split; [exact Hok|]. exists p. split; [now right|exact Hv].
      * intros [H|(Hok & p & [<-|Hp] & Hv)]; auto.
        -- congruence.
        -- right. split; [exact Hok|]. eauto.
Qed.

Lemma collect_over {P} (val : P -> string) (ok : string -> bool)
      (items : Ecfs.filing -> list P) (fs : list Ecfs.filing) :
  let r := fold_left
             (fun acc f =>
                fold_left (fun acc p => if ok (val p)
                                        then Py.set_add (val p) acc else acc)
                          (items f) acc) fs [] in
  NoDup r /\
  forall v, In v r <->
            ok v = true /\
            exists f p, In f fs /\ In p (items f) /\ val p = v.
Proof.
  cbn zeta. rewrite <- fold_left_flat_map.
  destruct (collect_fold val ok (flat_map items fs) [] (NoDup_nil _))
    as [H1 H2].
  split; [exact H1|]. intros v. rewrite H2. split.
  - intros [[]|(Hok & p & Hp & Hv)]. split; [exact Hok|].
    apply in_flat_map in Hp. destruct Hp as (f & Hf & Hp). eauto.
  - intros (Hok & f & p & Hf & Hp & Hv). right. split; [exact Hok|].
    exists p. split; [|exact Hv]. apply in_flat_map. eauto.
Qed.

Lemma filter_map_comm {A B} (g : A -> B) (p : B -> bool) (l : list A) :
  filter p (map g l) = map g (filter (fun x => p (g x)) l).
Proof.
  induction l as [|x l IH]; [reflexivity|].
  cbn [map filter]. destruct (p (g x)); cbn [map]; now rewrite IH.
Qed.

End RecordContents.

(** X24. In every record [structure_companies] writes,
    name_variations lists, each once and in ascending order, the stripped
    first-filer names of the filings of the record's group; each of them
    is not empty, is not a government entity's, and normalizes to the
    record's company_name_normalized; company_name is one of them; and
    dba_name, when it is not null, is not empty and has no whitespace
    around it. *)
Theorem record_names (input : list Ecfs.filing) (c : Structure.company) :
  In c (fst (Structure.structure_companies input)) ->
  let key := Structure.company_name_normalized c in
  let names := Structure.name_variations c in
  NoDup names /\
  StronglySorted (fun a b => String.leb a b = true) names /\
  (forall v, In v names <-> In v (Spec.variants_of input key)) /\
  (forall v, In v names ->
             v <> "" /\ PyStr.strip v = v /\
             Structure.is_government_entity v = false /\
             Structure.normalize_company_name v = key) /\
  In (Structure.company_name c) names /\
  (forall dba, Structure.dba_name c = Some dba ->
               dba <> "" /\ PyStr.strip dba = dba).
Proof.
  intros Hc. cbn zeta.
  destruct (emitted_name input c Hc) as (distinct & rest & _ & Hd & Hs & Hdba).
  apply emitted_record in Hc as (key & Hne & Hb).
  pose proof (build_company_lists _ _ _ _ Hb) as (Hnames & _).
  apply build_company_fields in Hb as (app & rest' & _ & Hkey & _).
  rewrite Hkey in *. rewrite Hnames.
  destruct (group_filings_spec input) as (_ & _ & Hvar).
  destruct (Hvar key) as [Hnd Hv].
  set (vars := Py.default_get key
                 (Structure.variations (Structure.group_filings input)) [])
    in *.
  assert (Hnd' : NoDup (Py.sort_by Structure.longer_first vars))
    by (eapply Permutation_NoDup;
        [apply Permutation_sym, sort_by_perm|exact Hnd]).
  destruct (sorted_set _ Hnd') as (H1 & H2 & H3).
  assert (Hin : forall v,
             In v (Py.sorted (Py.sort_by Structure.longer_first vars))
             <-> In v (Spec.variants_of input key))
    by (intros v; now rewrite H3, sort_by_In, Hv).
  assert (Hname : In (Structure.company_name c)
                     (Spec.variants_of input key)).
  { apply Hd. apply (sort_by_In Structure.longer_first). rewrite Hs.
    now left. }
  split; [exact H1|]. split; [exact H2|]. split; [exact Hin|].
  split; [intros v Hv'; apply (variant_facts input key), Hin, Hv'|].
  split; [now apply Hin|].
  intros dba Ed. rewrite Hdba in Ed.
  destruct (variant_facts input key _ Hname) as (_ & Hstrip & _).
  pose proof (extract_dba_loop_parts Structure.dba_patterns
                (Structure.company_name c) (incl_refl _) Hstrip) as Hp.
  unfold Structure.extract_dba_name in Ed.
  destruct (Structure.extract_dba_loop Structure.dba_patterns
                                       (Structure.company_name c))
    as [base [d|]]; cbn [snd] in Ed; [|discriminate].
  injection Ed as ->. destruct Hp as (_ & H4 & _ & H5 & _). auto.
Qed.

(** X25. In every record [structure_companies] writes, the
    lists docket_numbers, contacts, attorneys and proceeding_types hold
    each of their values once, in ascending order. docket_numbers holds
    the names of the proceedings of the group's filings except the empty
    name and the two placeholders INBOX-52.15 and INBOX-1.41; contacts and
    attorneys hold the stripped names of the authors and of the law firms
    that are not empty; proceeding_types holds the proceedings'
    descriptions that are not empty. *)
Theorem record_sets (input : list Ecfs.filing) (c : Structure.company) :
  In c (fst (Structure.structure_companies input)) ->
  let group := Spec.group_of input (Structure.company_name_normalized c) in
  let set_of l :=
    NoDup l /\ StronglySorted (fun a b => String.leb a b = true) l in
  let name_of p := PyStr.strip (Py.get_or (Ecfs.party_name p) "") in
  set_of (Structure.docket_numbers c) /\
  set_of (Structure.contacts c) /\
  set_of (Structure.attorneys c) /\
  set_of (Structure.proceeding_types c) /\
  (forall d, In d (Structure.docket_numbers c) <->
             d <> "" /\ ~ In d Structure.placeholder_dockets /\
             exists f p, In f group /\ In p (Ecfs.proceedings f) /\
                         Ecfs.proc_name p = Some d) /\
  (forall n, In n (Structure.contacts c) <->
             n <> "" /\
             exists f p, In f group /\ In p (Ecfs.authors f) /\
                         name_of p = n) /\
  (forall n, In n (Structure.attorneys c) <->
             n <> "" /\
             exists f p, In f group /\ In p (Ecfs.lawfirms f) /\
                         name_of p = n) /\
  (forall t, In t (Structure.proceeding_types c) <->
             t <> "" /\
             exists f p, In f group /\ In p (Ecfs.proceedings f) /\
                         Ecfs.proc_description p = Some t).
Proof.
  intros Hc. cbn zeta.
  apply emitted_record in Hc as (key & Hne & Hb).
  pose proof (build_company_lists _ _ _ _ Hb)
    as (_ & Hdock & _ & _ & Hcont & Hatt & Hpt).
  apply build_company_fields in Hb as (app & rest' & _ & Hkey & _).
  rewrite Hkey, Hdock, Hcont, Hatt, Hpt.
  set (group := Spec.group_of input key).
  (* the four loops *)
  destruct (collect_over
              (fun p => Py.get_or (Ecfs.proc_name p) "")
              (fun d => (PyStr.truthy d
                         && negb (Py.mem d Structure.placeholder_dockets))%bool)
              Ecfs.proceedings group) as [D1 D2].
  destruct (collect_over
              (fun p => PyStr.strip (Py.get_or (Ecfs.party_name p) ""))
              PyStr.truthy Ecfs.authors group) as [C1 C2].
  destruct (collect_over
              (fun p => PyStr.strip (Py.get_or (Ecfs.party_name p) ""))
              PyStr.truthy Ecfs.lawfirms group) as [A1 A2].
  destruct (collect_over
              (fun p => Py.get_or (Ecfs.proc_description p) "")
              PyStr.truthy Ecfs.proceedings group) as [T1 T2].
  change (fold_left _ group []) with (Structure.collect_dockets group)
    in D1, D2.
  change (fold_left _ group [])
    with (Structure.collect_names Ecfs.authors group) in C1, C2.
  change (fold_left _ group [])
    with (Structure.collect_names Ecfs.lawfirms group) in A1, A2.
  change (fold_left _ group [])
    with (Structure.collect_proceeding_types group) in T1, T2.
  destruct (sorted_set _ D1) as (D3 & D4 & D5).
  destruct (sorted_set _ C1) as (C3 & C4 & C5).
  destruct (sorted_set _ A1) as (A3 & A4 & A5).
  destruct (sorted_set _ T1) as (T3 & T4 & T5).
  split; [split; assumption|]. split; [split; assumption|].
  split; [split; assumption|]. split; [split; assumption|].
  split; [|split; [|split]].
  - intros d. rewrite D5, D2. split.
    + intros (Hok & f & p & Hf & Hp & Hv).
      apply andb_true_iff in Hok. destruct Hok as [Ht Hm].
      apply truthy_nonempty in Ht. apply negb_true_iff in Hm.
      split; [exact Ht|]. split.
      * intros Hin. unfold Py.mem in Hm.
        assert (existsb (String.eqb d) Structure.placeholder_dockets = true).
        { apply existsb_exists. exists d. split; [exact Hin|].
          apply String.eqb_refl. }
        congruence.
      * exists f, p. split; [exact Hf|]. split; [exact Hp|].
        destruct (Ecfs.proc_name p) as [x|]; cbn [Py.get_or] in Hv;
          congruence.
    + intros (Hd & Hno & f & p & Hf & Hp & Hv). split.
      * apply andb_true_iff. split; [now apply truthy_nonempty|].
        apply negb_true_iff. unfold Py.mem.
        destruct (existsb (String.eqb d) Structure.placeholder_dockets) eqn:E;
          [|reflexivity].
        apply existsb_exists in E. destruct E as (x & Hx & Ex).
        apply String.eqb_eq in Ex. subst x. contradiction.
      * exists f, p. split; [exact Hf|]. split; [exact Hp|].
        now rewrite Hv.
  - intros n. rewrite C5, C2, truthy_nonempty. reflexivity.
  - intros n. rewrite A5, A2, truthy_nonempty. reflexivity.
  - intros t. rewrite T5, T2, truthy_nonempty. split.
    + intros (Ht & f & p & Hf & Hp & Hv). split; [exact Ht|].
      exists f, p. split; [exact Hf|]. split; [exact Hp|].
      destruct (Ecfs.proc_description p) as [x|]; cbn [Py.get_or] in Hv;
        congruence.
    + intros (Ht & f & p & Hf & Hp & Hv). split; [exact Ht|].
      exists f, p. split; [exact Hf|]. split; [exact Hp|]. now rewrite Hv.
Qed.

(** X26. In every record [structure_companies] writes,
    the list filings holds one summary for each filing of the record's
    group, in ascending order of date, the filings of one day in the order
    in which they were read; its length is total_filing_count; and the
    list documents holds the documents of the group's filings in the
    order in which the filings were read. *)
Theorem record_filings (input : list Ecfs.filing) (c : Structure.company) :
  In c (fst (Structure.structure_companies input)) ->
  let group := Spec.group_of input (Structure.company_name_normalized c) in
  Permutation (Structure.filings c) (map Structure.summary_of group) /\
  StronglySorted
    (fun a b => String.leb (Structure.summary_date a)
                           (Structure.summary_date b) = true)
    (Structure.filings c) /\
  (forall day,
      filter (fun s => String.eqb (Structure.summary_date s) day)
             (Structure.filings c)
      = map Structure.summary_of
            (filter (fun f => String.eqb (Structure.day_of f) day) group)) /\
  List.length (Structure.filings c) = Structure.total_filing_count c /\
  Structure.documents c = flat_map Structure.doc_entries group.
Proof.
  intros Hc. cbn zeta.
  apply emitted_record in Hc as (key & Hne & Hb).
  pose proof (build_company_lists _ _ _ _ Hb)
    as (_ & _ & Hfil & Hdocs & _).
  apply build_company_fields in Hb
    as (app & rest' & _ & Hkey & _ & _ & _ & _ & _ & Htotal).
  rewrite Hkey, Hfil, Hdocs, Htotal. unfold Py.sort_key.
  split; [apply sort_by_perm|]. split; [|split; [|split]].
  - apply sort_by_sorted.
    + intros a b. apply String.leb_total.
    + intros a b d. apply string_leb_trans.
  - intros day. rewrite sort_by_stable.
    + apply filter_map_comm.
    + intros a b Ha Hb'. apply String.eqb_eq in Ha, Hb'.
      rewrite Ha, Hb'. apply string_leb_refl.
  - now rewrite sort_by_length, length_map.
  - reflexivity.
Qed.

Lemma record_names_witness :
  let input :=
    [ Spec.simple_filing (Some "1") (Some "Acme VoIP LLC")
                         (Some "APPLICATION") (Some "2021-03-01T00:00:00Z");
      Spec.simple_filing (Some "2") (Some "ACME VOIP, L.L.C.")
                         (Some "SUPPLEMENT") (Some "2022-01-15T00:00:00Z") ] in
  exists c,
    In c (fst (Structure.structure_companies input)) /\
    NoDup (Structure.name_variations c) /\
    In (Structure.company_name c) (Structure.name_variations c) /\
    Structure.normalize_company_name (Structure.company_name c)
    = Structure.company_name_normalized c.
Proof.
  intros input.
  assert (E : exists c, fst (Structure.structure_companies input) = [c]).
  { vm_compute. eexists. reflexivity. }
  destruct E as (c & E).
  assert (Hc : In c (fst (Structure.structure_companies input)))
    by (rewrite E; left; reflexivity).
  exists c. split; [exact Hc|].
  destruct (record_names input c Hc) as (H1 & _ & _ & H4 & H5 & _).
  clear Hc E.
  split; [exact H1|]. split; [exact H5|].
  exact (proj2 (proj2 (proj2 (H4 _ H5)))).
Defined.

Lemma record_sets_witness :
  let input :=
    [ {| Ecfs.id_submission := Some "1";
         Ecfs.filers := [ {| Ecfs.party_name := Some "Acme VoIP LLC" |} ];
         Ecfs.submissiontype := Some "APPLICATION";
         Ecfs.filingstatus := None;
         Ecfs.date_received := Some "2021-03-01T00:00:00Z";
         Ecfs.proceedings :=
           [ {| Ecfs.proc_name := Some "INBOX-52.15";
                Ecfs.proc_description := Some "VoIP Numbering" |};
             {| Ecfs.proc_name := Some "13-97";
                Ecfs.proc_description := None |} ];
         Ecfs.documents := [];
         Ecfs.authors := [ {| Ecfs.party_name := Some " Ada " |} ];
         Ecfs.lawfirms := [] |} ] in
  exists c,
    In c (fst (Structure.structure_companies input)) /\
    In "13-97" (Structure.docket_numbers c) /\
    ~ In "INBOX-52.15" (Structure.docket_numbers c) /\
    In "Ada" (Structure.contacts c) /\
    NoDup (Structure.proceeding_types c).
Proof.
  intros input.
  assert (E : exists c,
             fst (Structure.structure_companies input) = [c] /\
             Spec.group_of input (Structure.company_name_normalized c)
             = input).
  { vm_compute. eexists. split; reflexivity. }
  destruct E as (c & E & Hg).
  assert (Hc : In c (fst (Structure.structure_companies input)))
    by (rewrite E; left; reflexivity).
  exists c. split; [exact Hc|].
  destruct (record_sets input c Hc)
    as (_ & _ & _ & (T1 & _) & D & C & _ & _).
  rewrite Hg in D, C. clear Hc E Hg.
  split; [|split; [|split; [|exact T1]]].
  - apply D. split; [discriminate|]. split.
    + intros [H|[H|[]]]; discriminate.
    + eexists. eexists. split; [left; reflexivity|].
      split; [right; left; reflexivity|reflexivity].
  - intros H. apply D in H. destruct H as (_ & H & _). apply H.
    left; reflexivity.
  - apply C. split; [discriminate|].
    eexists. eexists. split; [left; reflexivity|].
    split; [left; reflexivity|reflexivity].
Defined.

Lemma record_filings_witness :
  let input :=
    [ Spec.simple_filing (Some "2") (Some "ACME VOIP, L.L.C.")
                         (Some "SUPPLEMENT") (Some "2022-01-15T00:00:00Z");
      Spec.simple_filing (Some "1") (Some "Acme VoIP LLC")
                         (Some "APPLICATION") (Some "2021-03-01T00:00:00Z") ] in
  exists c,
    In c (fst (Structure.structure_companies input)) /\
    List.length (Structure.filings c) = Structure.total_filing_count c /\
    filter (fun s => String.eqb (Structure.summary_date s) "2021-03-01")
           (Structure.filings c)
    = map Structure.summary_of
          [ Spec.simple_filing (Some "1") (Some "Acme VoIP LLC")
              (Some "APPLICATION") (Some "2021-03-01T00:00:00Z") ].
Proof.
  intros input.
  assert (E : exists c,
             fst (Structure.structure_companies input) = [c] /\
             Spec.group_of input (Structure.company_name_normalized c)
             = input).
  { vm_compute. eexists. split; reflexivity. }
  destruct E as (c & E & Hg).
  assert (Hc : In c (fst (Structure.structure_companies input)))
    by (rewrite E; left; reflexivity).
  exists c. split; [exact Hc|].
  destruct (record_filings input c Hc) as (_ & _ & Hday & Hlen & _).
  clear Hc E.
  split; [exact Hlen|].
  rewrite (Hday "2021-03-01"), Hg. reflexivity.
Defined.

(* ================================================================== *)
(** * Idempotence of the normalizer: the keys it holds for *)

Section FinalWords.

Import Re Structure.

Lemma squeeze_length (b : bool) (s : string) :
  String.length (Spec.squeeze b s) <= String.length s.
Proof.
  revert b; induction s as [|c s IH]; intros b; [apply Nat.le_refl|].
  cbn [Spec.squeeze String.length].
  destruct (PyStr.is_space c); [destruct b|]; cbn [String.length];
    first [ pose proof (IH true); lia | pose proof (IH false); lia ].
Qed.

Lemma rstrip_by_length p (s : string) :
  String.length (PyStr.rstrip_by p s) <= String.length s.
Proof.
  destruct (rstrip_by_split p s) as [r [E _]].
  rewrite E at 2. rewrite append_length. lia.
Qed.

Lemma strip_length (s : string) :
  String.length (PyStr.strip s) <= String.length s.
Proof.
  unfold PyStr.strip.
  pose proof (rstrip_by_length PyStr.is_space
                (PyStr.lstrip_by PyStr.is_space s)).
  pose proof (lstrip_length PyStr.is_space s). lia.
Qed.

(** A normalization is never longer than the name its rules have left. *)
Lemma normalize_length (name : string) :
  name <> "" ->
  String.length (normalize_company_name name)
  <= String.length (apply_suffixes (PyStr.strip (PyStr.lower name))).
Proof.
  intros Hne. rewrite (normalize_steps name Hne).
  unfold PyStr.rstrip_dot_comma.
  etransitivity; [apply rstrip_by_length|].
  etransitivity; [apply strip_length|]. apply squeeze_length.
Qed.

(** A string that ends with characters outside a set *)
Lemma ends_with_outside q (a w : string) :
  w <> "" -> PyStr.all_chars (fun c => negb (q c)) w = true ->
  PyStr.ends_with q (a ++ w) = false.
Proof.
  intros Hne Hall. rewrite ends_with_app by exact Hne.
  induction w as [|c w IH]; [congruence|].
  cbn [PyStr.all_chars] in Hall. apply andb_prop in Hall as [Hc Hw].
  destruct w as [|d w]; [cbn; now apply negb_true_iff|].
  rewrite ends_with_cons. apply IH; [discriminate|exact Hw].
Qed.

Lemma In_skipn_nth {T} (k : nat) (l : list T) (x : T) :
  In x (skipn k l) -> exists j, k <= j /\ nth_error l j = Some x.
Proof.
  revert l; induction k as [|k IH]; intros l H.
  - apply In_nth_error in H. destruct H as [j Hj]. exists j. split; [lia|auto].
  - destruct l as [|y l]; [destruct H|]. cbn [skipn] in H.
    destruct (IH l H) as (j & Hj & Hx). exists (S j). split; [lia|exact Hx].
Qed.

(** The final words and their rules *)
Lemma final_word_rule (w : string) :
  In w Spec.final_words <->
  exists j, In j [0; 1; 2; 4; 5; 6] /\
            nth_error Spec.suffix_words j = Some w.
Proof.
  split.
  - intros H. cbn in H.
    destruct H as [<-|[<-|[<-|[<-|[<-|[<-|[]]]]]]];
      [exists 0|exists 1|exists 2|exists 4|exists 5|exists 6];
      (split; [cbn; tauto|reflexivity]).
  - intros (j & Hj & Hw). cbn in Hj.
    repeat (destruct Hj as [<-|Hj];
            [injection Hw as <-; cbn; tauto|]).
    destruct Hj.
Qed.

(** What the proofs need of a word of the table *)
Lemma suffix_word_chars (k : nat) (w : string) :
  nth_error Spec.suffix_words k = Some w ->
  w <> "" /\
  PyStr.all_chars (fun c => negb (PyStr.is_space c)) w = true /\
  PyStr.all_chars
    (fun c => negb (Ascii.eqb c "." || Ascii.eqb c ",")%bool) w = true /\
  Spec.undot (" " ++ w) = (" " ++ w)%string.
Proof.
  intros H.
  do 8 (destruct k as [|k];
        [injection H as <-; repeat split; discriminate|]).
  destruct k; discriminate.
Qed.

Lemma word_tail_no_newline (k : nat) (w x : string) :
  nth_error Spec.suffix_words k = Some w ->
  PyStr.ends_with_newline (x ++ " " ++ w) = false.
Proof.
  intros Hw. destruct (suffix_word_chars k w Hw) as (Hne & Hsp & _).
  unfold PyStr.ends_with_newline.
  apply ends_with_weaken with (p := PyStr.is_space).
  - intros c Hc. apply Ascii.eqb_eq in Hc. now subst c.
  - replace (x ++ " " ++ w)%string with ((x ++ " ") ++ w)%string
      by apply append_assoc.
    now apply ends_with_outside.
Qed.

(** On a name that ends with a space and a final word, the rules of the
    other words are quiet. *)
Lemma quiet_word (j k : nat) (rule_k : pattern * string) (w x : string) :
  In j [0; 1; 2; 4; 5; 6] ->
  nth_error Spec.suffix_words j = Some w ->
  k <> j ->
  nth_error suffixes k = Some rule_k ->
  search (fst rule_k) (x ++ " " ++ w) = false.
Proof.
  intros Hj Hw Hkj Hk.
  destruct (rule_spelled k rule_k Hk) as (_ & w_k & Hwk & _).
  destruct (suffix_word_chars j w Hw) as (_ & _ & _ & Hplain).
  apply (rule_quiet_on k rule_k w_k (" " ++ w) x (" " ++ w));
    [exact Hk|exact Hwk|exact (word_tail_no_newline j w x Hw)
    |reflexivity|exact Hplain| |].
  - cbn in Hj.
    repeat (destruct Hj as [<-|Hj];
            [injection Hw as <-;
             do 8 (destruct k as [|k];
                   [first [congruence|injection Hwk as <-; reflexivity]|]);
             destruct k; discriminate|]).
    destruct Hj.
  - cbn in Hj.
    repeat (destruct Hj as [<-|Hj];
            [injection Hw as <-;
             do 8 (destruct k as [|k];
                   [first [congruence|injection Hwk as <-; reflexivity]|]);
             destruct k; discriminate|]).
    destruct Hj.
Qed.

(** On such a name the table does what the rule of the word does, and the
    name still ends with the space and the word. *)
Lemma table_on_word (j : nat) (rule : pattern * string) (w y0 : string) :
  In j [0; 1; 2; 4; 5; 6] ->
  nth_error suffixes j = Some rule ->
  nth_error Spec.suffix_words j = Some w ->
  let y := (y0 ++ " " ++ w)%string in
  apply_suffixes y = apply_rule y rule /\
  exists pre, apply_rule y rule = (pre ++ " " ++ w)%string.
Proof.
  intros Hj Hrule Hw y.
  pose proof (word_tail_no_newline j w y0 Hw) as Hnl. fold y in Hnl.
  assert (Hin : In rule suffixes) by exact (nth_error_In _ _ Hrule).
  assert (Hrepl : snd rule = (" " ++ w)%string).
  { destruct (rule_spelled j rule Hrule) as (body & w' & Hw' & _ & _ & E).
    congruence. }
  assert (Hout : exists pre, apply_rule y rule = (pre ++ " " ++ w)%string).
  { destruct (apply_rule_suffix rule y Hin Hnl)
      as [[_ E]|(_ & pre & suf & _ & _ & _ & E)].
    - exists y0. exact E.
    - exists pre. now rewrite E, Hrepl. }
  split; [|exact Hout].
  unfold apply_suffixes.
  rewrite <- (firstn_skipn j suffixes) at 1.
  rewrite fold_left_app, (skipn_nth j suffixes rule Hrule).
  cbn [fold_left].
  rewrite (fold_fixed apply_rule (firstn j suffixes) y).
  - destruct Hout as [pre E]. rewrite E.
    apply fold_fixed. intros r Hr.
    apply In_skipn_nth in Hr. destruct Hr as (k & Hk & Hrk).
    apply rule_quiet_unchanged;
      [exact (nth_error_In _ _ Hrk)|exact (word_tail_no_newline j w pre Hw)|].
    apply (quiet_word j k r w pre Hj Hw); [lia|exact Hrk].
  - intros r Hr. apply In_firstn_nth in Hr. destruct Hr as (k & Hk & Hrk).
    apply rule_quiet_unchanged; [exact (nth_error_In _ _ Hrk)|exact Hnl|].
    apply (quiet_word j k r w y0 Hj Hw); [lia|exact Hrk].
Qed.

(** The rewriting starts at the first position where the pattern matches:
    at the latest where a given tail matches. *)
Lemma rewrite_tail_prefix pat repl (a b : string) :
  succeeds (match_items pat b) ->
  exists a1 a2, a = (a1 ++ a2)%string /\
                Spec.rewrite_tail pat repl (a ++ b) = (a1 ++ repl)%string.
Proof.
  intros [t Hb]. induction a as [|c a IH].
  - exists "", "". split; [reflexivity|].
    cbn [String.append]. destruct b; cbn [Spec.rewrite_tail]; now rewrite Hb.
  - cbn [String.append Spec.rewrite_tail].
    destruct (match_items pat (String c (a ++ b))).
    + exists "", (String c a). split; reflexivity.
    + destruct IH as (a1 & a2 & E1 & E2).
      exists (String c a1), a2. split; [now rewrite E1|].
      cbn [String.append]. now rewrite E2.
Qed.

End FinalWords.

Section SettledKeys.

Import Re Structure.

(** The shape of a key *)
Lemma key_shape (name : string) :
  let key := normalize_company_name name in
  PyStr.all_chars PyStr.is_lower key = true /\
  Spec.single_spaced false key = true /\
  PyStr.lstrip_by PyStr.is_space key = key /\
  PyStr.rstrip_dot_comma key = key.
Proof.
  cbn zeta.
  destruct (string_dec name "") as [->|Hne]; [repeat split; reflexivity|].
  rewrite (normalize_steps name Hne).
  set (z := PyStr.strip (PyStr.lower name)).
  set (c := PyStr.strip (Spec.squeeze false (apply_suffixes z))).
  assert (Hlow : PyStr.all_chars PyStr.is_lower c = true).
  { apply all_chars_strip, all_chars_squeeze; [reflexivity|].
    apply apply_suffixes_all_chars;
      [reflexivity|apply strip_no_newline|].
    apply all_chars_strip, lower_is_lower. }
  assert (Hss : Spec.single_spaced false c = true)
    by apply single_spaced_strip, squeeze_single_spaced.
  assert (Hfirst : match c with
                   | EmptyString => true
                   | String a _ => negb (PyStr.is_space a)
                   end = true).
  { unfold c, PyStr.strip. apply rstrip_by_starts, lstrip_by_starts. }
  unfold PyStr.rstrip_dot_comma.
  set (p := fun a => (Ascii.eqb a "." || Ascii.eqb a ",")%bool).
  destruct (rstrip_by_split p c) as [r [E _]].
  split; [apply all_chars_rstrip, Hlow|].
  split; [rewrite E in Hss; now apply single_spaced_prefix in Hss|].
  split; [apply lstrip_by_fix, rstrip_by_first, Hfirst|].
  apply rstrip_by_fix, rstrip_by_ends.
Qed.

(** A key without whitespace at its end that the table leaves as it is,
    is its own key. *)
Lemma normalize_settled (u : string) :
  PyStr.all_chars PyStr.is_lower u = true ->
  Spec.single_spaced false u = true ->
  PyStr.lstrip_by PyStr.is_space u = u ->
  PyStr.rstrip_dot_comma u = u ->
  PyStr.ends_with PyStr.is_space u = false ->
  apply_suffixes u = u ->
  normalize_company_name u = u.
Proof.
  intros Hlow Hss Hl Hdc Hsp Hfix.
  destruct (string_dec u "") as [->|Hne]; [reflexivity|].
  assert (Hstrip : PyStr.strip u = u).
  { unfold PyStr.strip. rewrite Hl. now apply rstrip_by_fix. }
  rewrite (normalize_steps u Hne), (lower_fix _ Hlow), Hstrip, Hfix.
  now rewrite (single_spaced_squeeze _ _ Hss), Hstrip.
Qed.

Lemma ends_with_name_char (s : string) :
  s <> "" ->
  PyStr.ends_with PyStr.is_space s = false ->
  PyStr.ends_with (fun c => Ascii.eqb c ",") s = false ->
  PyStr.ends_with Spec.name_char s = true.
Proof.
  induction s as [|c s IH]; [congruence|]. intros _.
  destruct s as [|d s].
  - cbn. unfold Spec.name_char. now intros -> ->.
  - rewrite !ends_with_cons. apply IH. discriminate.
Qed.

(** The table leaves a name that ends with a space and a final word, when
    the character before the space is neither whitespace nor a comma. *)
Lemma fixed_word_tail (j : nat) (w y0 : string) :
  In j [0; 1; 2; 4; 5; 6] ->
  nth_error Spec.suffix_words j = Some w ->
  PyStr.ends_with Spec.name_char y0 = true ->
  apply_suffixes (y0 ++ " " ++ w) = (y0 ++ " " ++ w)%string.
Proof.
  intros Hj Hw Hy0.
  assert (Hrule : exists rule, nth_error suffixes j = Some rule).
  { cbn in Hj.
    repeat (destruct Hj as [<-|Hj]; [eexists; reflexivity|]). destruct Hj. }
  destruct Hrule as [rule Hrule].
  destruct (table_on_word j rule w y0 Hj Hrule Hw) as [E _].
  cbn zeta in E. rewrite E.
  apply (rule_rewrites_spelling j rule w y0 (" " ++ w) Hrule Hw Hy0).
  - exact (word_tail_no_newline j w y0 Hw).
  - assert (Hm : exists segs,
               match_items (fst rule) (" " ++ w) = Some (segs, "")).
    { cbn in Hj.
      repeat (destruct Hj as [<-|Hj];
              [injection Hw as <-; injection Hrule as <-;
               vm_compute; eexists; reflexivity|]).
      destruct Hj. }
    destruct Hm as [segs Hm]. exact (match_items_lang _ _ _ _ Hm).
Qed.

(** The table shortens a name that ends with a comma, a space and a final
    word: the rule of the word takes the comma away. *)
Lemma comma_tail_shrinks (j : nat) (w y1 : string) :
  In j [0; 1; 2; 4; 5; 6] ->
  nth_error Spec.suffix_words j = Some w ->
  String.length (apply_suffixes (y1 ++ ", " ++ w))
  < String.length (y1 ++ ", " ++ w).
Proof.
  intros Hj Hw.
  assert (Hrule : exists rule, nth_error suffixes j = Some rule).
  { cbn in Hj.
    repeat (destruct Hj as [<-|Hj]; [eexists; reflexivity|]). destruct Hj. }
  destruct Hrule as [rule Hrule].
  assert (Hy : (y1 ++ ", " ++ w)%string = ((y1 ++ ",") ++ " " ++ w)%string)
    by now rewrite append_assoc.
  destruct (table_on_word j rule w (y1 ++ ",") Hj Hrule Hw) as [E _].
  cbn zeta in E. rewrite <- Hy in E. rewrite E.
  assert (Hin : In rule suffixes) by exact (nth_error_In _ _ Hrule).
  destruct (suffix_rule_shape rule Hin) as ([its Hits] & Hempty & _).
  assert (Hrepl : snd rule = (" " ++ w)%string).
  { destruct (rule_spelled j rule Hrule) as (body & w' & Hw' & _ & _ & R).
    congruence. }
  assert (Hnl : PyStr.ends_with_newline (y1 ++ ", " ++ w) = false).
  { rewrite Hy. exact (word_tail_no_newline j w _ Hw). }
  assert (Hm : succeeds (match_items (fst rule) (", " ++ w))).
  { cbn in Hj.
    repeat (destruct Hj as [<-|Hj];
            [injection Hw as <-; injection Hrule as <-;
             vm_compute; eexists; reflexivity|]).
    destruct Hj. }
  unfold apply_rule. rewrite Hits in *.
  rewrite sub_rewrite_tail by auto.
  destruct (rewrite_tail_prefix (its ++ [Eos]) (snd rule) y1 (", " ++ w) Hm)
    as (a1 & a2 & Ea & Er).
  rewrite Er, Hrepl, Ea, !append_length. cbn [String.length]. lia.
Qed.

(** The keys a second normalization leaves as they are *)
Lemma fixed_iff_settled (k : string) :
  PyStr.all_chars PyStr.is_lower k = true ->
  Spec.single_spaced false k = true ->
  PyStr.lstrip_by PyStr.is_space k = k ->
  PyStr.rstrip_dot_comma k = k ->
  normalize_company_name k = k <-> Spec.settled k = true.
Proof.
  intros Hlow Hss Hl Hdc.
  destruct (string_dec k "") as [->|Hne]; [split; reflexivity|].
  unfold Spec.settled.
  destruct (PyStr.ends_with PyStr.is_space k) eqn:Hsp; cbn [negb andb].
  - (* a key that ends with a space *)
    split; [|discriminate]. intros Hfix. exfalso.
    set (z := PyStr.strip (PyStr.lower k)).
    assert (Hz : String.length z < String.length k).
    { unfold z, PyStr.strip. rewrite (lower_fix _ Hlow), Hl.
      destruct (rstrip_by_split PyStr.is_space k) as [r [E _]].
      destruct r as [|a r].
      - rewrite append_empty_r in E.
        rewrite E, rstrip_by_ends in Hsp. discriminate.
      - rewrite E at 2. rewrite append_length. cbn [String.length]. lia. }
    pose proof (normalize_length k Hne) as Hlen. fold z in Hlen.
    destruct (table_outcome z (strip_no_newline _))
      as [[Hsame _]|(j & rule & w & pre & Hj & Hrule & Hw & Hout)].
    + rewrite Hsame, Hfix in Hlen. lia.
    + destruct (suffix_word_chars j w Hw) as (Hwne & Hwsp & Hwdc & _).
      rewrite (normalize_steps k Hne) in Hfix. fold z in Hfix.
      rewrite Hout in Hfix.
      assert (Hc : exists a,
                 PyStr.strip (Spec.squeeze false (pre ++ " " ++ w))
                 = (a ++ w)%string).
      { destruct (collapsed_shape pre w Hwsp Hwne) as [E|(y0 & E & _)].
        - exists "". exact E.
        - exists (y0 ++ " ")%string. now rewrite E, append_assoc. }
      destruct Hc as [a Hc]. rewrite Hc in Hfix.
      unfold PyStr.rstrip_dot_comma in Hfix.
      rewrite rstrip_by_fix in Hfix by now apply ends_with_outside.
      rewrite <- Hfix, (ends_with_outside _ a w Hwne Hwsp) in Hsp.
      discriminate.
  - (* a key that does not end with a space *)
    assert (Hstrip : PyStr.strip (PyStr.lower k) = k).
    { rewrite (lower_fix _ Hlow). unfold PyStr.strip.
      rewrite Hl. now apply rstrip_by_fix. }
    assert (Hnl : PyStr.ends_with_newline k = false).
    { unfold PyStr.ends_with_newline.
      apply ends_with_weaken with (p := PyStr.is_space); [|exact Hsp].
      intros c Hc. apply Ascii.eqb_eq in Hc. now subst c. }
    split.
    + (* left as it is, so settled *)
      intros Hfix.
      destruct (table_outcome k Hnl)
        as [[_ Hquiet]|(j & rule & w & pre & Hj & Hrule & Hw & Hout)].
      * apply orb_true_iff. left. apply forallb_forall.
        intros r Hr. now rewrite (Hquiet r Hr).
      * apply orb_true_iff. right. apply existsb_exists. exists w.
        split; [apply final_word_rule; eauto|].
        destruct (suffix_word_chars j w Hw) as (Hwne & Hwsp & Hwdc & _).
        pose proof Hfix as Hk.
        rewrite (normalize_steps k Hne), Hstrip, Hout in Hk.
        unfold Spec.ends_in_word. apply orb_true_iff.
        destruct (collapsed_shape pre w Hwsp Hwne) as [E|(y0 & E & _)];
          cbn zeta in E; rewrite E in Hk;
          unfold PyStr.rstrip_dot_comma in Hk.
        -- left. rewrite <- Hk.
           rewrite (rstrip_by_fix _ w)
             by exact (ends_with_outside _ "" w Hwne Hwdc).
           apply String.eqb_refl.
        -- right.
           rewrite rstrip_by_fix in Hk.
           2:{ replace (y0 ++ " " ++ w)%string
                 with ((y0 ++ " ") ++ w)%string by apply append_assoc.
               now apply ends_with_outside. }
           apply andb_true_iff. split.
           ++ apply is_suffix_spec. exists y0. now rewrite Hk.
           ++ apply negb_true_iff.
              destruct (PyStr.is_suffix (", " ++ w) k) eqn:Hcomma;
                [exfalso|reflexivity].
              apply is_suffix_spec in Hcomma. destruct Hcomma as [y1 Hy1].
              pose proof (comma_tail_shrinks j w y1 Hj Hw) as Hshort.
              pose proof (normalize_length k Hne) as Hlen.
              rewrite Hstrip, Hfix in Hlen. rewrite <- Hy1 in Hshort. lia.
    + (* settled, so left as it is *)
      intros Hset.
      apply orb_true_iff in Hset. destruct Hset as [Hq|Hw].
      * apply normalize_settled; auto.
        apply fold_fixed. intros r Hr.
        apply rule_quiet_unchanged; [exact Hr|exact Hnl|].
        rewrite forallb_forall in Hq. specialize (Hq r Hr).
        now apply negb_true_iff in Hq.
      * apply existsb_exists in Hw. destruct Hw as (w & Hin & Hw).
        apply final_word_rule in Hin. destruct Hin as (j & Hj & Hwj).
        unfold Spec.ends_in_word in Hw. apply orb_true_iff in Hw.
        destruct Hw as [Hw|Hw].
        -- apply String.eqb_eq in Hw. subst k. cbn in Hj.
           repeat (destruct Hj as [<-|Hj];
                   [injection Hwj as <-; reflexivity|]).
           destruct Hj.
        -- apply andb_true_iff in Hw. destruct Hw as [Hsuf Hcomma].
           apply negb_true_iff in Hcomma.
           apply is_suffix_spec in Hsuf. destruct Hsuf as [y0 Hy0].
           apply normalize_settled; auto.
           rewrite Hy0. apply (fixed_word_tail j w y0 Hj Hwj).
           apply ends_with_name_char.
           ++ intros ->. rewrite Hy0 in Hl. cbn in Hl.
              apply (f_equal String.length) in Hl.
              pose proof (lstrip_length PyStr.is_space w).
              cbn [String.length] in Hl. lia.
           ++ rewrite Hy0 in Hss.
              exact (single_spaced_no_double _ _ _ Hss).
           ++ destruct (PyStr.ends_with (fun c => Ascii.eqb c ",") y0)
                eqn:Hc; [exfalso|reflexivity].
              apply ends_with_split in Hc. destruct Hc as (a & c & Ha & Hc).
              apply Ascii.eqb_eq in Hc. subst c.
              assert (PyStr.is_suffix (", " ++ w) k = true).
              { apply is_suffix_spec. exists a.
                rewrite Hy0, Ha. now rewrite append_assoc. }
              congruence.
Qed.

End SettledKeys.

(** C2, as the code has it. A second normalization leaves the key of a
    name as it is exactly when the key is settled: it does not end with a
    space, and either no rule of the suffix table matches it, or it is one
    of the words llc, inc, corp, lp, ltd, co, or it ends with a space and
    one of these words and has no comma before that space. The edge cases
    of the specification have such keys. *)
Theorem C2_idempotent_iff_key_settled :
  (forall x : string,
      Structure.normalize_company_name (Structure.normalize_company_name x)
      = Structure.normalize_company_name x
      <-> Spec.settled (Structure.normalize_company_name x) = true) /\
  Forall (fun x =>
            Structure.normalize_company_name
              (Structure.normalize_company_name x)
            = Structure.normalize_company_name x)
         ["Acme, L.L.C."; "ACME INC"; "Acme   Co."].
Proof.
  split.
  - intros x. destruct (key_shape x) as (Hlow & Hss & Hl & Hdc).
    now apply fixed_iff_settled.
  - repeat constructor.
Qed.

(** The witness of C2: names with a settled key, among them names that
    keep a period or lose a comma to a rule, and two names whose key is
    not settled. *)
Lemma C2_idempotent_iff_key_settled_witness :
  Forall (fun x =>
            Spec.settled (Structure.normalize_company_name x) = true /\
            Structure.normalize_company_name
              (Structure.normalize_company_name x)
            = Structure.normalize_company_name x)
         ["Bandwidth.com CLEC, LLC"; "St. Louis Telecom";
          "U.S. Telecom, LLC"; "Acme Telecom."] /\
  Spec.settled (Structure.normalize_company_name "Acme, Inc.,") = false /\
  Spec.settled (Structure.normalize_company_name "Acme .") = false.
Proof.
  split; [|split; reflexivity].
  constructor; [|constructor; [|constructor; [|constructor; [|constructor]]]];
    (split; [reflexivity|]);
    apply (proj1 C2_idempotent_iff_key_settled); reflexivity.
Defined.

(* ================================================================== *)
(** * The suffix table on the names of limited liability partnerships *)

Section LlpNames.

Import Re Structure.

Lemma squeeze_app_name (b : bool) (a r : string) :
  PyStr.ends_with Spec.name_char a = true ->
  Spec.squeeze b (a ++ r) = (Spec.squeeze b a ++ Spec.squeeze false r)%string.
Proof.
  revert b; induction a as [|c a IH]; intros b H; [discriminate|].
  destruct a as [|d a].
  - cbn in H. unfold Spec.name_char in H.
    apply negb_true_iff, orb_false_iff in H. destruct H as [Hc _].
    cbn [String.append Spec.squeeze]. now rewrite Hc.
  - rewrite ends_with_cons in H.
    change (String c (String d a) ++ r)%string
      with (String c (String d a ++ r)).
    cbn [Spec.squeeze].
    destruct (PyStr.is_space c); [destruct b|];
      cbn [String.append]; now rewrite IH.
Qed.

(** The rules after the one for llp, on what it has written *)
Lemma llp_then_lp (pre : string) :
  PyStr.ends_with Spec.name_char pre = true ->
  fold_left apply_rule (skipn 4 suffixes) (pre ++ " llp")%string
  = (pre ++ " l lp")%string.
Proof.
  intros Hpre.
  destruct (nth_error suffixes 4) as [rule|] eqn:Hrule; [|discriminate].
  rewrite (skipn_nth 4 suffixes rule Hrule). cbn [fold_left].
  assert (E : apply_rule (pre ++ " llp") rule = (pre ++ " l lp")%string).
  { replace (pre ++ " llp")%string with ((pre ++ " l") ++ "lp")%string
      by now rewrite append_assoc.
    replace (pre ++ " l lp")%string
      with ((pre ++ " l") ++ " " ++ "lp")%string
      by now rewrite append_assoc.
    apply (rule_rewrites_spelling 4 rule "lp" (pre ++ " l") "lp" Hrule);
      [reflexivity| | |].
    - now rewrite ends_with_app by discriminate.
    - replace ((pre ++ " l") ++ "lp")%string
        with ((pre ++ "") ++ " " ++ "llp")%string
        by now rewrite !append_assoc.
      exact (word_tail_no_newline 3 "llp" _ eq_refl).
    - injection Hrule as <-.
      eapply match_items_lang. vm_compute. reflexivity. }
  rewrite E. apply fold_fixed. intros r Hr.
  apply In_skipn_nth in Hr. destruct Hr as (k & Hk & Hrk).
  replace (pre ++ " l lp")%string with ((pre ++ " l") ++ " " ++ "lp")%string
    by now rewrite append_assoc.
  apply rule_quiet_unchanged;
    [exact (nth_error_In _ _ Hrk)
    |exact (word_tail_no_newline 4 "lp" _ eq_refl)|].
  apply (quiet_word 4 k r "lp" (pre ++ " l"));
    [cbn; tauto|reflexivity|lia|exact Hrk].
Qed.

(** The key of a name that ends with a spelling of llp *)
Lemma llp_key (rule : pattern * string) (b t : string) :
  nth_error suffixes 3 = Some rule ->
  PyStr.ends_with Spec.name_char b = true ->
  lang (fst rule) (PyStr.lower t) "" ->
  exists base, normalize_company_name (b ++ t) = (base ++ " l lp")%string.
Proof.
  intros Hrule Hb Hl.
  destruct (strip_spelled 3 rule "llp" b t Hrule eq_refl Hb Hl) as [Hs Hpre].
  cbn zeta in Hs, Hpre.
  set (pre := PyStr.lstrip_by PyStr.is_space (PyStr.lower b)) in *.
  assert (Hne : (b ++ t)%string <> "") by (destruct b; discriminate).
  rewrite (normalize_steps _ Hne), Hs.
  assert (Hnl : PyStr.ends_with_newline (pre ++ PyStr.lower t) = false)
    by (rewrite <- Hs; apply strip_no_newline).
  rewrite (spelling_rewritten 3 rule "llp" pre (PyStr.lower t));
    [|cbn; tauto|exact Hrule|reflexivity|exact Hpre|exact Hnl|exact Hl].
  change (" " ++ "llp")%string with " llp".
  rewrite (llp_then_lp pre Hpre).
  rewrite (squeeze_app_name false pre " l lp" Hpre).
  change (Spec.squeeze false " l lp") with " l lp".
  set (X := Spec.squeeze false pre).
  assert (HX : PyStr.all_chars PyStr.is_space X = false).
  { unfold X. apply ends_with_split in Hpre.
    destruct Hpre as (a & c & -> & Hc).
    rewrite squeeze_app_word, all_chars_app.
    - unfold Spec.name_char in Hc.
      apply negb_true_iff, orb_false_iff in Hc. destruct Hc as [Hc _].
      cbn. rewrite Hc. apply andb_false_r.
    - unfold Spec.name_char in Hc.
      apply negb_true_iff, orb_false_iff in Hc. destruct Hc as [Hc _].
      cbn. now rewrite Hc. }
  exists (PyStr.lstrip_by PyStr.is_space X).
  unfold PyStr.strip. rewrite lstrip_app, HX.
  assert (Hend : forall q,
             PyStr.all_chars (fun c => negb (q c)) "lp" = true ->
             PyStr.ends_with q
               (PyStr.lstrip_by PyStr.is_space X ++ " l lp") = false).
  { intros q Hq.
    replace (PyStr.lstrip_by PyStr.is_space X ++ " l lp")%string
      with ((PyStr.lstrip_by PyStr.is_space X ++ " l ") ++ "lp")%string
      by now rewrite append_assoc.
    apply ends_with_outside; [discriminate|exact Hq]. }
  rewrite rstrip_by_fix by (apply Hend; reflexivity).
  unfold PyStr.rstrip_dot_comma.
  apply rstrip_by_fix, Hend. reflexivity.
Qed.

End LlpNames.

(** C6, on the inputs where it fails. The loop over the suffix table goes
    on after a rule has matched: on "Acme LLP" the rule for llp leaves
    "acme llp", as applying only the first matching rule would, and the
    rule for lp, next in the table, rewrites that to "acme l lp", which is
    the key. The same happens to every name that ends with a spelling of
    llp: its key ends with " l lp". *)
Theorem C6_lp_rule_rewrites_llp :
  Structure.normalize_company_name "Acme LLP" = "acme l lp" /\
  Structure.normalize_company_name "Acme, L.L.P." = "acme l lp" /\
  Structure.apply_suffixes "acme llp" = "acme l lp" /\
  Spec.first_rule_only Structure.suffixes "acme llp" = "acme llp" /\
  Spec.first_rule_only Structure.suffixes "acme, l.l.p." = "acme llp" /\
  (forall (rule : Re.pattern * string) (b t : string) (segs : list string),
      nth_error Structure.suffixes 3 = Some rule ->
      PyStr.ends_with Spec.name_char b = true ->
      Re.match_items (fst rule) (PyStr.lower t) = Some (segs, "") ->
      PyStr.is_suffix " l lp" (Structure.normalize_company_name (b ++ t))
      = true).
Proof.
  do 5 (split; [reflexivity|]).
  intros rule b t segs Hrule Hb Hm.
  apply is_suffix_spec.
  exact (llp_key rule b t Hrule Hb (match_items_lang _ _ _ _ Hm)).
Qed.
